(** * mcp-list: the incremental enrichment pipeline

    A shallow embedding of the sync scripts of the MCP server directory
    (scripts/utils/fetch.ts, scripts/registry.ts, scripts/enrichers/index.ts,
    scripts/enrichers/npm.ts, scripts/sync.ts and scripts/types.ts) together
    with the properties its specification states about them.

    Conventions of the embedding.
    - A JavaScript number that holds a count, a size or a duration in
      milliseconds is an integer of [Z]; the download figures the program adds
      up are integer counts, on which double arithmetic is exact below 2^53.
    - A JavaScript string is a [string]; the only characters the program
      inspects are ASCII.
    - An optional property [p?: T] is an [option T]; [None] is an absent or
      undefined property.
    - An [async] function that can reject returns an [Outcome]; what the
      network answers is an explicit argument (an oracle), and what the
      function does to the outside (requests, sleeps) is returned as a trace.
    - The clock and the host's date parser are arguments as well. *)

From Stdlib Require Import List String Ascii ZArith Bool Lia Permutation Sorted.
From Stdlib Require Import DecimalString.
Import ListNotations.

Open Scope string_scope.
Open Scope Z_scope.
Open Scope list_scope.

Set Implicit Arguments.

(* ===================================================================== *)
(** * JavaScript values the scripts rely on *)
(* ===================================================================== *)

Module Js.

(** Truthiness of a string: every string but the empty one. *)
Definition truthy_string (s : string) : bool :=
  match s with
  | EmptyString => false
  | String _ _ => true
  end.

(** Truthiness of an optional string ([undefined] is falsy). *)
Definition truthy_opt_string (o : option string) : bool :=
  match o with
  | Some s => truthy_string s
  | None => false
  end.

(** Truthiness of a number: every integer but zero. *)
Definition truthy_number (n : Z) : bool := negb (n =? 0).

(** [s.split(sep)] for a one-character separator: the segments between the
    occurrences of [sep], in order; never the empty array. *)
Fixpoint split (sep : ascii) (s : string) : list string :=
  match s with
  | EmptyString => [EmptyString]
  | String c rest =>
      if Ascii.eqb c sep then EmptyString :: split sep rest
      else match split sep rest with
           | seg :: segs => String c seg :: segs
           | [] => [String c EmptyString]
           end
  end.

(** [s.includes(sub)]. *)
Fixpoint includes (sub s : string) : bool :=
  String.prefix sub s ||
  match s with
  | EmptyString => false
  | String _ rest => includes sub rest
  end.

(** [String(n)], also what a template literal makes of [n], for a number
    that is an integer (below 10^21 in size): its decimal digits, after a
    minus sign when it is negative. *)
Definition number_to_string (n : Z) : string :=
  NilZero.string_of_int (Z.to_int n).

(** The character the names of servers are split on. *)
Definition slash : ascii := "/"%char.

(** Whether a string contains a given character. *)
Fixpoint has_char (c : ascii) (s : string) : bool :=
  match s with
  | EmptyString => false
  | String d rest => Ascii.eqb d c || has_char c rest
  end.

(** ** [Set]: insertion-ordered, without duplicates *)

Section OrderedSet.
Variable A : Type.
Variable eqb : A -> A -> bool.

Definition set_has (s : list A) (x : A) : bool := existsb (eqb x) s.

(** [s.add(x)]: appended at the end unless already present. *)
Definition set_add (s : list A) (x : A) : list A :=
  if set_has s x then s else s ++ [x].

(** [new Set(xs)] followed by a spread into an array: the elements of [xs]
    in the order of their first occurrence. *)
Definition set_of_array (xs : list A) : list A := fold_left set_add xs [].

End OrderedSet.

(** ** [Map]: insertion-ordered, keyed by string

    A [Map] is the list of its entries in insertion order: [set] on a key
    already present replaces the value in place, [set] on a new key appends,
    [delete] removes the entry, and [values()] iterates in that order. *)

Section OrderedMap.
Variable V : Type.

Definition Map := list (string * V).

Definition map_empty : Map := [].

Fixpoint map_get (m : Map) (k : string) : option V :=
  match m with
  | [] => None
  | (k', v) :: rest => if String.eqb k' k then Some v else map_get rest k
  end.

Fixpoint map_set (m : Map) (k : string) (v : V) : Map :=
  match m with
  | [] => [(k, v)]
  | (k', v') :: rest =>
      if String.eqb k' k then (k', v) :: rest
      else (k', v') :: map_set rest k v
  end.

Fixpoint map_delete (m : Map) (k : string) : Map :=
  match m with
  | [] => []
  | (k', v') :: rest =>
      if String.eqb k' k then rest else (k', v') :: map_delete rest k
  end.

Definition map_values (m : Map) : list V := map snd m.

Definition map_keys (m : Map) : list string := map fst m.

(** [new Map(pairs)]: the pairs are set one after the other. *)
Definition map_of_pairs (ps : list (string * V)) : Map :=
  fold_left (fun m kv => map_set m (fst kv) (snd kv)) ps map_empty.

End OrderedMap.

End Js.

(* ===================================================================== *)
(** * scripts/types.ts *)
(* ===================================================================== *)

(** Package registry types supported by MCP. *)
Inductive RegistryType : Type := npm | pypi | nuget | oci | mcpb.

(** Transport types for remote servers. *)
Inductive TransportType : Type := streamable_http | sse.

(** Server status in the registry. *)
Inductive ServerStatus : Type := active | deprecated | deleted.

Definition RegistryType_eqb (a b : RegistryType) : bool :=
  match a, b with
  | npm, npm | pypi, pypi | nuget, nuget | oci, oci | mcpb, mcpb => true
  | _, _ => false
  end.

Definition ServerStatus_eqb (a b : ServerStatus) : bool :=
  match a, b with
  | active, active | deprecated, deprecated | deleted, deleted => true
  | _, _ => false
  end.

Module EnvironmentVariable.
Record t : Type := mk {
  name : string;
  description : option string;
  required : option bool;
  secret : option bool
}.
End EnvironmentVariable.

Module RemoteHeader.
Record t : Type := mk {
  name : string;
  description : option string;
  isRequired : option bool;
  isSecret : option bool
}.
End RemoteHeader.

Module Package.
Record t : Type := mk {
  registryType : RegistryType;
  identifier : string;
  transport : option (list TransportType);
  environmentVariables : option (list EnvironmentVariable.t);
  fileSha256 : option string
}.
End Package.

Module Remote.
Record t : Type := mk {
  type : TransportType;
  url : string;
  headers : option (list RemoteHeader.t)
}.
End Remote.

Module Repository.
Record t : Type := mk {
  url : string;
  source : option string
}.
End Repository.

(** Raw server data from the registry API. *)
Module MCPRegistryServer.
Record t : Type := mk {
  schema : option string;
  name : string;
  description : string;
  repository : option Repository.t;
  version : string;
  packages : option (list Package.t);
  remotes : option (list Remote.t)
}.
End MCPRegistryServer.

(** The value of [_meta["io.modelcontextprotocol.registry/official"]]. *)
Module MCPRegistryMeta.
Record t : Type := mk {
  status : ServerStatus;
  publishedAt : string;
  updatedAt : string;
  isLatest : bool
}.
End MCPRegistryMeta.

Module MCPRegistryEntry.
Record t : Type := mk {
  server : MCPRegistryServer.t;
  _meta : MCPRegistryMeta.t
}.
End MCPRegistryEntry.

Module MCPRegistryResponse.
Record t : Type := mk {
  servers : list MCPRegistryEntry.t;
  count : Z;
  nextCursor : option string
}.
End MCPRegistryResponse.

Module GitHubOwner.
Record t : Type := mk { login : string; avatar : string }.
End GitHubOwner.

Module GitHubEnrichment.
Record t : Type := mk {
  stars : Z;
  forks : Z;
  openIssues : Z;
  watchers : Z;
  lastCommit : string;
  license : option string;
  topics : list string;
  language : option string;
  owner : GitHubOwner.t;
  archived : bool;
  defaultBranch : string
}.
End GitHubEnrichment.

Module NpmEnrichment.
Record t : Type := mk {
  weeklyDownloads : Z;
  monthlyDownloads : Z;
  latestVersion : string;
  dependencies : Z;
  lastPublished : option string;
  maintainers : list string;
  homepage : option string;
  keywords : list string
}.
End NpmEnrichment.

Module PyPiEnrichment.
Record t : Type := mk {
  downloads : Z;
  latestVersion : string;
  requiresPython : option string;
  lastPublished : string;
  author : option string;
  authorEmail : option string;
  homepage : option string;
  keywords : list string
}.
End PyPiEnrichment.

Module NuGetEnrichment.
Record t : Type := mk {
  totalDownloads : Z;
  latestVersion : string;
  lastPublished : string;
  authors : list string;
  tags : list string;
  projectUrl : option string
}.
End NuGetEnrichment.

Module DockerEnrichment.
Record t : Type := mk {
  pulls : Z;
  stars : Z;
  lastUpdated : string;
  tags : list string;
  description : option string;
  isOfficial : bool;
  isAutomated : bool
}.
End DockerEnrichment.

Module McpbEnrichment.
Record t : Type := mk {
  releaseUrl : string;
  downloadCount : Z;
  assetSize : Z;
  lastRelease : string;
  platforms : list string;
  tagName : string;
  prerelease : bool
}.
End McpbEnrichment.

(** Combined enrichment data for a server: one optional slot per source. *)
Module Enrichment.
Record t : Type := mk {
  lastEnrichedAt : string;
  github : option GitHubEnrichment.t;
  npm : option NpmEnrichment.t;
  pypi : option PyPiEnrichment.t;
  nuget : option NuGetEnrichment.t;
  docker : option DockerEnrichment.t;
  mcpb : option McpbEnrichment.t
}.
End Enrichment.

(** The [_computed] object of a server. *)
Module Computed.
Record t : Type := mk {
  organization : string;
  serverName : string;
  packageTypes : list RegistryType;
  hasRemote : bool;
  totalDownloads : Z;
  stars : Z
}.
End Computed.

(** Full server data stored in the data files. *)
Module MCPServer.
Record t : Type := mk {
  name : string;
  description : string;
  version : string;
  repository : option Repository.t;
  packages : list Package.t;
  remotes : list Remote.t;
  status : ServerStatus;
  publishedAt : string;
  updatedAt : string;
  isLatest : bool;
  enrichment : Enrichment.t;
  _computed : Computed.t
}.

(** [{ ...server, enrichment }]. *)
Definition with_enrichment (server : t) (e : Enrichment.t) : t :=
  mk (name server) (description server) (version server) (repository server)
     (packages server) (remotes server) (status server) (publishedAt server)
     (updatedAt server) (isLatest server) e (_computed server).

(** [{ ...server, _computed }]. *)
Definition with_computed (server : t) (c : Computed.t) : t :=
  mk (name server) (description server) (version server) (repository server)
     (packages server) (remotes server) (status server) (publishedAt server)
     (updatedAt server) (isLatest server) (enrichment server) c.
End MCPServer.

(** Sync state persisted between runs. *)
Module SyncState.
Record t : Type := mk {
  lastSyncAt : string;
  lastCursor : option string;
  totalServers : Z;
  lastFullSyncAt : string;
  version : Z
}.
End SyncState.

(** Options for fetching servers from the registry. *)
Module FetchServersOptions.
Record t : Type := mk {
  limit : option Z;
  cursor : option string;
  updatedSince : option string
}.
End FetchServersOptions.

(* ===================================================================== *)
(** * The host: thrown values, outcomes of promises, dates, the outside *)
(* ===================================================================== *)

Module Host.

(** The properties of a thrown object that the scripts look at:
    [err.code], [err.name], [err.message] and [err.cause?.code]. *)
Record ErrorObject : Type := mkError {
  code : option string;
  name : option string;
  message : option string;
  cause_code : option string
}.

(** A thrown value: an object, or anything that fails the test
    [error && typeof error === "object"]. *)
Inductive Thrown : Type :=
  | ThrownObject (e : ErrorObject)
  | ThrownOther.

(** [new Error(msg)]. *)
Definition new_Error (msg : string) : Thrown :=
  ThrownObject (mkError None (Some "Error") (Some msg) None).

(** How an awaited promise settles: with a value, or by throwing. *)
Inductive Outcome (A : Type) : Type :=
  | Returned (a : A)
  | Threw (e : Thrown).

Arguments Returned {A} a.
Arguments Threw {A} e.

Definition bind {A B : Type} (m : Outcome A) (k : A -> Outcome B) : Outcome B :=
  match m with
  | Returned a => k a
  | Threw e => Threw e
  end.

(** A received HTTP response whose body, read by [response.json()], is a
    value of type [B] or fails to parse. *)
Record Response (B : Type) : Type := mkResponse {
  status : Z;
  statusText : string;
  ok : bool;
  json : Outcome B
}.

Arguments mkResponse {B} status statusText ok json.
Arguments status {B} r.
Arguments statusText {B} r.
Arguments ok {B} r.
Arguments json {B} r.

(** The second argument of [fetch]: the headers, and the delay in
    milliseconds after which the attached abort signal fires, if any. *)
Record RequestInit : Type := mkInit {
  headers : list (string * string);
  signal : option Z
}.

(** [{ ...options, signal: controller.signal }]. *)
Definition with_signal (options : RequestInit) (timeout : Z) : RequestInit :=
  mkInit (headers options) (Some timeout).

(** What a program does to the outside, in order. *)
Inductive Event : Type :=
  | EvFetch (url : string) (timeout : option Z)
  | EvSleep (ms : Z)
  | EvEnricher (enricher : string) (server : string).

Definition Trace := list Event.

(** The sleeps of a trace, in order. *)
Fixpoint sleeps (tr : Trace) : list Z :=
  match tr with
  | [] => []
  | EvSleep ms :: rest => ms :: sleeps rest
  | _ :: rest => sleeps rest
  end.

(** The timeouts of the requests of a trace, in order. *)
Fixpoint timeouts (tr : Trace) : list Z :=
  match tr with
  | [] => []
  | EvFetch _ (Some t) :: rest => t :: timeouts rest
  | _ :: rest => timeouts rest
  end.

(** The number of requests of a trace. *)
Fixpoint requests (tr : Trace) : nat :=
  match tr with
  | [] => O
  | EvFetch _ _ :: rest => S (requests rest)
  | _ :: rest => requests rest
  end.

(** The number of calls to source enrichers of a trace. *)
Fixpoint enricher_calls (tr : Trace) : nat :=
  match tr with
  | [] => O
  | EvEnricher _ _ :: rest => S (enricher_calls rest)
  | _ :: rest => enricher_calls rest
  end.

(** ** [Date.prototype.toISOString]

    The proleptic Gregorian date of a number of milliseconds since the
    epoch, printed as [YYYY-MM-DDTHH:mm:ss.sssZ] (years outside 0..9999 take
    a sign and six digits). *)

Definition digit (n : Z) : ascii := ascii_of_nat (48 + Z.to_nat (n mod 10)).

(** The [width] low decimal digits of [n], most significant first. *)
Fixpoint digits (width : nat) (n : Z) : string :=
  match width with
  | O => EmptyString
  | S w => String.append (digits w (n / 10)) (String (digit n) EmptyString)
  end.

(** Year, month and day of a day count since 1970-01-01. *)
Definition civil_from_days (days : Z) : Z * Z * Z :=
  let z := days + 719468 in
  let era := z / 146097 in
  let doe := z - era * 146097 in
  let yoe := (doe - doe / 1460 + doe / 36524 - doe / 146096) / 365 in
  let doy := doe - (365 * yoe + yoe / 4 - yoe / 100) in
  let mp := (5 * doy + 2) / 153 in
  let d := doy - (153 * mp + 2) / 5 + 1 in
  let m := if mp <? 10 then mp + 3 else mp - 9 in
  let y := yoe + era * 400 + (if m <=? 2 then 1 else 0) in
  (y, m, d).

Definition year_string (y : Z) : string :=
  if (0 <=? y) && (y <=? 9999) then digits 4 y
  else if y <? 0 then String.append "-" (digits 6 (- y))
  else String.append "+" (digits 6 y).

Definition toISOString (ms : Z) : string :=
  let '(y, m, d) := civil_from_days (ms / 86400000) in
  let t := ms mod 86400000 in
  String.append (year_string y)
  (String.append "-" (String.append (digits 2 m)
  (String.append "-" (String.append (digits 2 d)
  (String.append "T" (String.append (digits 2 (t / 3600000))
  (String.append ":" (String.append (digits 2 ((t / 60000) mod 60))
  (String.append ":" (String.append (digits 2 ((t / 1000) mod 60))
  (String.append "." (String.append (digits 3 (t mod 1000)) "Z")))))))))))).

(** [new Date(s).getTime()] is the host's: it is an argument wherever it is
    used, [None] standing for the [NaN] of an invalid date. *)
Definition DateParser := string -> option Z.

End Host.

(* ===================================================================== *)
(** * scripts/utils/fetch.ts *)
(* ===================================================================== *)

Module Fetch.
Import Host.

(** [x === "lit"] on a property that may be absent. *)
Definition prop_is (o : option string) (lit : string) : bool :=
  match o with
  | Some s => String.eqb s lit
  | None => false
  end.

(** Check if an error should be retried: only network and timeout errors,
    not legitimate HTTP errors. *)
Definition isRetriableError (error : Thrown) : bool :=
  match error with
  | ThrownObject err =>
      if prop_is (code err) "UND_ERR_CONNECT_TIMEOUT"
         || prop_is (code err) "ETIMEDOUT"
         || prop_is (code err) "ECONNREFUSED"
         || prop_is (code err) "ECONNRESET"
      then true
      else if prop_is (name err) "AbortError" then true
      else if match message err with
              | Some msg => Js.includes "fetch failed" msg
              | None => false
              end
      then true
      else if prop_is (cause_code err) "UND_ERR_CONNECT_TIMEOUT" then true
      else false
  | ThrownOther => false
  end.

(** What [fetch(url, init)] does on the [attempt]-th request of one call of
    [fetchWithRetry]: it resolves with a response or throws. *)
Definition Network (B : Type) : Type :=
  string -> RequestInit -> Z -> Outcome (Response B).

Section FetchWithRetry.
Variable B : Type.
Variable fetch : Network B.
Variable url : string.
Variable options : RequestInit.
Variable maxRetries : Z.
Variable baseTimeout : Z.

(** The [for] loop of [fetchWithRetry], entered at [attempt] with
    [remaining] iterations before [attempt <= maxRetries] fails, followed by
    the statement after the loop. *)
Fixpoint attempts (remaining : nat) (attempt : Z) (lastError : option Thrown)
  : Outcome (Response B) * Trace :=
  match remaining with
  | O =>
      (Threw (match lastError with
              | Some e => e
              | None => new_Error "Max retries exceeded"
              end), [])
  | S remaining' =>
      let timeout := baseTimeout * attempt in
      match fetch url (with_signal options timeout) attempt with
      | Returned response =>
          (Returned response, [EvFetch url (Some timeout)])
      | Threw error =>
          let shouldRetry := isRetriableError error in
          if negb shouldRetry || (attempt =? maxRetries)
          then (Threw error, [EvFetch url (Some timeout)])
          else
            let '(result, tr) := attempts remaining' (attempt + 1) (Some error) in
            (result, EvFetch url (Some timeout) :: EvSleep (1000 * attempt) :: tr)
      end
  end.

(** Fetch with automatic retry on timeout and network errors. *)
Definition fetchWithRetry : Outcome (Response B) * Trace :=
  attempts (Z.to_nat maxRetries) 1 None.

End FetchWithRetry.

End Fetch.

(* ===================================================================== *)
(** * scripts/registry.ts *)
(* ===================================================================== *)

Module Registry.
Import Host.

Definition REGISTRY_BASE_URL : string := "https://registry.modelcontextprotocol.io".
Definition API_VERSION : string := "v0.1".
Definition DEFAULT_LIMIT : Z := 100.

(** The search parameters [fetchServers] sets on the URL of the request. *)
Record Query : Type := mkQuery {
  q_limit : Z;
  q_cursor : option string;
  q_updated_since : option string
}.

(** What the registry answers to the [page]-th request of one listing. *)
Definition Network : Type :=
  Query -> Z -> Outcome (Response MCPRegistryResponse.t).

(** [if (x) url.searchParams.set(..., x)]: set only when truthy. *)
Definition param (o : option string) : option string :=
  if Js.truthy_opt_string o then o else None.

Definition servers_url : string :=
  String.append REGISTRY_BASE_URL
    (String.append "/" (String.append API_VERSION "/servers")).

(** [`Registry API error: ${response.status} ${response.statusText}`]. *)
Definition api_error_message {B : Type} (response : Response B) : string :=
  String.append "Registry API error: "
    (String.append (Js.number_to_string (status response))
       (String.append " " (statusText response))).

(** Fetch servers from the registry with pagination support. *)
Definition fetchServers (net : Network) (page : Z)
    (options : FetchServersOptions.t) : Outcome MCPRegistryResponse.t :=
  let limit := match FetchServersOptions.limit options with
               | Some l => l
               | None => DEFAULT_LIMIT
               end in
  let query := mkQuery limit (param (FetchServersOptions.cursor options))
                 (param (FetchServersOptions.updatedSince options)) in
  bind (net query page) (fun response =>
    if negb (ok response)
    then Threw (new_Error (api_error_message response))
    else json response).

(** The predicate of the filter of [fetchAllServers]. *)
Definition entry_isLatest (entry : MCPRegistryEntry.t) : bool :=
  MCPRegistryMeta.isLatest (MCPRegistryEntry._meta entry).

(** [{ ...options, cursor }] for options that have no cursor of their own. *)
Definition with_cursor (options : FetchServersOptions.t)
    (cursor : option string) : FetchServersOptions.t :=
  FetchServersOptions.mk (FetchServersOptions.limit options) cursor
    (FetchServersOptions.updatedSince options).

Section FetchAll.
Variable net : Network.
Variable options : FetchServersOptions.t.

(** The [do ... while (cursor)] loop of [fetchAllServers].  The registry
    decides how many pages there are, so the loop takes [fuel]: [None] is a
    listing that has not ended after [fuel] pages. *)
Fixpoint pages (fuel : nat) (allServers : list MCPRegistryEntry.t)
    (cursor : option string) (pageCount : Z)
  : option (Outcome (list MCPRegistryEntry.t) * Trace) :=
  match fuel with
  | O => None
  | S fuel' =>
      let pageCount := pageCount + 1 in
      match fetchServers net pageCount (with_cursor options cursor) with
      | Threw e => Some (Threw e, [EvFetch servers_url None])
      | Returned response =>
          let latestServers :=
            filter entry_isLatest (MCPRegistryResponse.servers response) in
          let allServers := allServers ++ latestServers in
          let cursor := MCPRegistryResponse.nextCursor response in
          if Js.truthy_opt_string cursor
          then
            match pages fuel' allServers cursor pageCount with
            | Some (result, tr) =>
                Some (result, EvFetch servers_url None :: EvSleep 100 :: tr)
            | None => None
            end
          else Some (Returned allServers, [EvFetch servers_url None])
      end
  end.

(** Fetch all servers from the registry, handling pagination. *)
Definition fetchAllServers (fuel : nat)
  : option (Outcome (list MCPRegistryEntry.t) * Trace) :=
  pages fuel [] None 0.

End FetchAll.

(** Fetch servers updated since a given timestamp. *)
Definition fetchUpdatedServers (net : Network) (since : string) (fuel : nat)
  : option (Outcome (list MCPRegistryEntry.t) * Trace) :=
  fetchAllServers net (FetchServersOptions.mk None None (Some since)) fuel.

End Registry.

(* ===================================================================== *)
(** * scripts/enrichers/npm.ts *)
(* ===================================================================== *)

Module Npm.
Import Host.

Definition NPM_REGISTRY_URL : string := "https://registry.npmjs.org".
Definition NPM_API_URL : string := "https://api.npmjs.org".

Record DistTags : Type := mkDistTags { latest : option string }.

Record VersionData : Type := mkVersionData {
  dependencies : option (list (string * string))
}.

Record Maintainer : Type := mkMaintainer { maintainer_name : string }.

Record NpmPackageResponse : Type := mkPackage {
  name : string;
  dist_tags : option DistTags;
  time : list (string * string);
  maintainers : option (list Maintainer);
  homepage : option string;
  keywords : option (list string);
  versions : list (string * VersionData)
}.

Record NpmDownloadsResponse : Type := mkDownloads {
  downloads : Z;
  start : string;
  end_ : string;
  package : string
}.

Inductive Period : Type := last_week | last_month.

Definition period_string (p : Period) : string :=
  match p with
  | last_week => "last-week"
  | last_month => "last-month"
  end.

(** The headers both requests of this enricher send. *)
Definition request_init : RequestInit :=
  mkInit [("Accept", "application/json");
          ("User-Agent", "mcp-list/1.0.0 (https://github.com/sjnims/mcp-list)")]
         None.

(** Find the npm package identifier among the packages of a server. *)
Definition findNpmPackage (server : MCPServer.t) : option string :=
  match find (fun pkg => RegistryType_eqb (Package.registryType pkg) npm)
             (MCPServer.packages server) with
  | Some npmPackage =>
      if Js.truthy_string (Package.identifier npmPackage)
      then Some (Package.identifier npmPackage)
      else None
  | None => None
  end.

(** [Promise.all] of three promises: it rejects as soon as one of them
    does.  Which rejection wins when several reject is a matter of timing;
    the model takes the first in the order of the array. *)
Definition all3 {A B C : Type} (a : Outcome A) (b : Outcome B) (c : Outcome C)
  : Outcome (A * B * C) :=
  bind a (fun x => bind b (fun y => bind c (fun z => Returned (x, y, z)))).

Section Enricher.
(** The host's [encodeURIComponent]. *)
Variable encodeURIComponent : string -> string.
(** The npm registry and the npm downloads API. *)
Variable registry : Fetch.Network NpmPackageResponse.
Variable api : Fetch.Network NpmDownloadsResponse.

(** Fetch npm package metadata. *)
Definition fetchPackageData (packageName : string)
  : Outcome (option NpmPackageResponse) * Trace :=
  let encodedName := encodeURIComponent packageName in
  let url := String.append NPM_REGISTRY_URL (String.append "/" encodedName) in
  let '(fetched, tr) := Fetch.fetchWithRetry registry url request_init 3 10000 in
  (bind fetched (fun response =>
     if status response =? 404 then Returned None
     else if negb (ok response) then Returned None
     else bind (json response) (fun data => Returned (Some data))),
   tr).

(** Fetch npm download counts. *)
Definition fetchDownloads (packageName : string) (period : Period)
  : Outcome Z * Trace :=
  let encodedName := encodeURIComponent packageName in
  let url :=
    String.append NPM_API_URL
      (String.append "/downloads/point/"
         (String.append (period_string period)
            (String.append "/" encodedName))) in
  let '(fetched, tr) := Fetch.fetchWithRetry api url request_init 3 10000 in
  (bind fetched (fun response =>
     if negb (ok response) then Returned 0
     else bind (json response) (fun data =>
            Returned (if Js.truthy_number (downloads data)
                      then downloads data else 0))),
   tr).

(** The enrichment built from the three answers. *)
Definition npm_of (packageData : NpmPackageResponse)
    (weeklyDownloads monthlyDownloads : Z) : option NpmEnrichment.t :=
  match dist_tags packageData with
  | None => None
  | Some tags =>
      if negb (Js.truthy_opt_string (latest tags)) then None
      else
        let latestVersion := match latest tags with Some v => v | None => "" end in
        let latestVersionData := Js.map_get (versions packageData) latestVersion in
        let dependencyCount :=
          match latestVersionData with
          | Some data =>
              match dependencies data with
              | Some deps => Z.of_nat (List.length deps)
              | None => 0
              end
          | None => 0
          end in
        Some (NpmEnrichment.mk weeklyDownloads monthlyDownloads latestVersion
                dependencyCount
                (if Js.truthy_opt_string (Js.map_get (time packageData) latestVersion)
                 then Js.map_get (time packageData) latestVersion
                 else Js.map_get (time packageData) "modified")
                (match maintainers packageData with
                 | Some ms => map maintainer_name ms
                 | None => []
                 end)
                (homepage packageData)
                (match keywords packageData with
                 | Some ks => ks
                 | None => []
                 end))
  end.

(** Enrich a server with npm package data: [Returned None] is [null]. *)
Definition enrichNpm (server : MCPServer.t)
  : Outcome (option NpmEnrichment.t) * Trace :=
  match findNpmPackage server with
  | None => (Returned None, [])
  | Some packageName =>
      let '(packageData, tr1) := fetchPackageData packageName in
      let '(weeklyDownloads, tr2) := fetchDownloads packageName last_week in
      let '(monthlyDownloads, tr3) := fetchDownloads packageName last_month in
      (bind (all3 packageData weeklyDownloads monthlyDownloads)
         (fun '(packageData, weeklyDownloads, monthlyDownloads) =>
            match packageData with
            | None => Returned None
            | Some packageData =>
                Returned (npm_of packageData weeklyDownloads monthlyDownloads)
            end),
       tr1 ++ tr2 ++ tr3)
  end.

End Enricher.

End Npm.

(* ===================================================================== *)
(** * scripts/enrichers/index.ts *)
(* ===================================================================== *)

(** [EnrichmentOptions]: every option may be left out. *)
Module EnrichmentOptions.
Record t : Type := mk {
  delayMs : option Z;
  concurrency : option Z;
  skipIfFresh : option bool;
  maxAge : option Z
}.
End EnrichmentOptions.

(** [Required<EnrichmentOptions>]. *)
Module Options.
Record t : Type := mk {
  delayMs : Z;
  concurrency : Z;
  skipIfFresh : bool;
  maxAge : Z
}.
End Options.

Module Enrichers.
Import Host.

Definition DEFAULT_OPTIONS : Options.t :=
  Options.mk 100 3 true (24 * 60 * 60 * 1000).

Definition or_default {A : Type} (o : option A) (d : A) : A :=
  match o with
  | Some a => a
  | None => d
  end.

(** [{ ...DEFAULT_OPTIONS, ...options }]. *)
Definition merge_options (options : EnrichmentOptions.t) : Options.t :=
  Options.mk
    (or_default (EnrichmentOptions.delayMs options) (Options.delayMs DEFAULT_OPTIONS))
    (or_default (EnrichmentOptions.concurrency options) (Options.concurrency DEFAULT_OPTIONS))
    (or_default (EnrichmentOptions.skipIfFresh options) (Options.skipIfFresh DEFAULT_OPTIONS))
    (or_default (EnrichmentOptions.maxAge options) (Options.maxAge DEFAULT_OPTIONS)).

(** Resolved options passed where [EnrichmentOptions] are expected. *)
Definition as_options (opts : Options.t) : EnrichmentOptions.t :=
  EnrichmentOptions.mk (Some (Options.delayMs opts)) (Some (Options.concurrency opts))
    (Some (Options.skipIfFresh opts)) (Some (Options.maxAge opts)).

(** Check if enrichment data is still fresh, [now] being [Date.now()]. *)
Definition isEnrichmentFresh (Date_getTime : DateParser) (now : Z)
    (server : MCPServer.t) (maxAge : Z) : bool :=
  let lastEnriched := Enrichment.lastEnrichedAt (MCPServer.enrichment server) in
  if negb (Js.truthy_string lastEnriched) then false
  else
    match Date_getTime lastEnriched with
    | Some t => let age := now - t in age <? maxAge
    | None => false
    end.

(** The object a source enricher resolves with when it has data:
    [{ github: ... }], [{ npm: ... }] and so on. *)
Inductive SourceResult : Type :=
  | OfGitHub (github : GitHubEnrichment.t)
  | OfNpm (npm : NpmEnrichment.t)
  | OfPyPi (pypi : PyPiEnrichment.t)
  | OfNuGet (nuget : NuGetEnrichment.t)
  | OfDocker (docker : DockerEnrichment.t)
  | OfMcpb (mcpb : McpbEnrichment.t).

(** [Object.assign(enrichment, result)]. *)
Definition assign (enrichment : Enrichment.t) (result : SourceResult) : Enrichment.t :=
  let 'Enrichment.mk at_ gh np py nu dk mb := enrichment in
  match result with
  | OfGitHub x => Enrichment.mk at_ (Some x) np py nu dk mb
  | OfNpm x => Enrichment.mk at_ gh (Some x) py nu dk mb
  | OfPyPi x => Enrichment.mk at_ gh np (Some x) nu dk mb
  | OfNuGet x => Enrichment.mk at_ gh np py (Some x) dk mb
  | OfDocker x => Enrichment.mk at_ gh np py nu (Some x) mb
  | OfMcpb x => Enrichment.mk at_ gh np py nu dk (Some x)
  end.

(** [{ ...server.enrichment, lastEnrichedAt }]. *)
Definition stamped (enrichment : Enrichment.t) (lastEnrichedAt : string) : Enrichment.t :=
  Enrichment.mk lastEnrichedAt (Enrichment.github enrichment)
    (Enrichment.npm enrichment) (Enrichment.pypi enrichment)
    (Enrichment.nuget enrichment) (Enrichment.docker enrichment)
    (Enrichment.mcpb enrichment).

(** A source enricher as the coordinator sees it: for a server it resolves
    with a result, resolves with [null], or throws. *)
Definition EnricherFn (A : Type) : Type := MCPServer.t -> Outcome (option A).

(** The six source enrichers the coordinator imports, as they answer during
    one call of [enrichServer]. *)
Record Sources : Type := mkSources {
  enrichGitHub : EnricherFn GitHubEnrichment.t;
  enrichNpm : EnricherFn NpmEnrichment.t;
  enrichPyPi : EnricherFn PyPiEnrichment.t;
  enrichNuGet : EnricherFn NuGetEnrichment.t;
  enrichDocker : EnricherFn DockerEnrichment.t;
  enrichMcpb : EnricherFn McpbEnrichment.t
}.

Definition lift {A : Type} (wrap : A -> SourceResult) (fn : EnricherFn A)
  : EnricherFn SourceResult :=
  fun server =>
    match fn server with
    | Returned (Some a) => Returned (Some (wrap a))
    | Returned None => Returned None
    | Threw e => Threw e
    end.

(** The array [enrichers] of [enrichServer]. *)
Definition enrichers (src : Sources) : list (string * EnricherFn SourceResult) :=
  [ ("GitHub", lift OfGitHub (enrichGitHub src));
    ("npm", lift OfNpm (enrichNpm src));
    ("PyPI", lift OfPyPi (enrichPyPi src));
    ("NuGet", lift OfNuGet (enrichNuGet src));
    ("Docker", lift OfDocker (enrichDocker src));
    ("MCPB", lift OfMcpb (enrichMcpb src)) ].

(** The clock and the sources at the time of one call of [enrichServer]. *)
Record Env : Type := mkEnv {
  now : Z;
  sources : Sources
}.

Section Coordinator.
Variable Date_getTime : DateParser.

(** The loop over the enrichers: a result is merged, [null] and a thrown
    error leave the enrichment as it is, and the delay follows in each case. *)
Fixpoint run_enrichers (fns : list (string * EnricherFn SourceResult))
    (server : MCPServer.t) (delayMs : Z) (enrichment : Enrichment.t)
  : Enrichment.t * Trace :=
  match fns with
  | [] => (enrichment, [])
  | (name, fn) :: rest =>
      let enrichment :=
        match fn server with
        | Returned (Some result) => assign enrichment result
        | Returned None => enrichment
        | Threw _ => enrichment
        end in
      let '(enrichment, tr) := run_enrichers rest server delayMs enrichment in
      (enrichment, EvEnricher name (MCPServer.name server) :: EvSleep delayMs :: tr)
  end.

(** Enrich a single server with data from all applicable sources. *)
Definition enrichServer (env : Env) (server : MCPServer.t)
    (options : EnrichmentOptions.t) : MCPServer.t * Trace :=
  let opts := merge_options options in
  if Options.skipIfFresh opts
     && isEnrichmentFresh Date_getTime (now env) server (Options.maxAge opts)
  then (server, [])
  else
    let enrichment :=
      stamped (MCPServer.enrichment server) (toISOString (now env)) in
    let '(enrichment, tr) :=
      run_enrichers (enrichers (sources env)) server (Options.delayMs opts) enrichment in
    (MCPServer.with_enrichment server enrichment, tr).

Section Many.
(** The clock and the sources for the server at each index of the array. *)
Variable env : nat -> Env.
Variable opts : Options.t.

(** [Promise.all(batch.map((server) => enrichServer(server, opts)))] for a
    batch that starts at [index]; the calls overlap in time, and the trace
    lists their events call after call. *)
Fixpoint enrich_batch (index : nat) (batch : list MCPServer.t)
  : list MCPServer.t * Trace :=
  match batch with
  | [] => ([], [])
  | server :: rest =>
      let '(enriched, tr1) := enrichServer (env index) server (as_options opts) in
      let '(others, tr2) := enrich_batch (S index) rest in
      (enriched :: others, tr1 ++ tr2)
  end.

(** The [while (queue.length > 0)] loop of [enrichServers]; a batch of size
    zero makes no progress, so the loop takes [fuel]. *)
Fixpoint batches (fuel : nat) (index : nat) (queue results : list MCPServer.t)
  : option (list MCPServer.t * Trace) :=
  match queue with
  | [] => Some (results, [])
  | _ :: _ =>
      match fuel with
      | O => None
      | S fuel' =>
          let size := Z.to_nat (Options.concurrency opts) in
          let batch := firstn size queue in
          let queue := skipn size queue in
          let '(batchResults, tr1) := enrich_batch index batch in
          let results := results ++ batchResults in
          let tr2 := match queue with
                     | [] => []
                     | _ :: _ => [EvSleep (Options.delayMs opts * 2)]
                     end in
          match batches fuel' (index + List.length batch) queue results with
          | Some (final, tr3) => Some (final, tr1 ++ tr2 ++ tr3)
          | None => None
          end
      end
  end.

End Many.

(** Enrich multiple servers with rate limiting and concurrency control;
    [None] is the loop that never ends (a concurrency below one). *)
Definition enrichServers (env : nat -> Env) (servers : list MCPServer.t)
    (options : EnrichmentOptions.t) : option (list MCPServer.t * Trace) :=
  let opts := merge_options options in
  batches env opts (List.length servers) O servers [].

End Coordinator.

(** [if (figure) totalDownloads += figure] on a figure that may be absent. *)
Definition add_figure (totalDownloads : Z) (figure : option Z) : Z :=
  match figure with
  | Some n => if Js.truthy_number n then totalDownloads + n else totalDownloads
  | None => totalDownloads
  end.

(** Compute derived fields for a server. *)
Definition computeServerFields (server : MCPServer.t) : MCPServer.t :=
  let nameParts := Js.split Js.slash (MCPServer.name server) in
  let organization :=
    if (1 <? List.length nameParts)%nat then nth 0 nameParts "" else "" in
  let serverName :=
    if (1 <? List.length nameParts)%nat then nth 1 nameParts ""
    else nth 0 nameParts "" in
  let packageTypes :=
    Js.set_of_array RegistryType_eqb
      (map Package.registryType (MCPServer.packages server)) in
  let hasRemote := (0 <? List.length (MCPServer.remotes server))%nat in
  let e := MCPServer.enrichment server in
  let totalDownloads := 0 in
  let totalDownloads :=
    add_figure totalDownloads
      (option_map NpmEnrichment.monthlyDownloads (Enrichment.npm e)) in
  let totalDownloads :=
    add_figure totalDownloads
      (option_map PyPiEnrichment.downloads (Enrichment.pypi e)) in
  let totalDownloads :=
    add_figure totalDownloads
      (option_map NuGetEnrichment.totalDownloads (Enrichment.nuget e)) in
  let totalDownloads :=
    add_figure totalDownloads
      (option_map DockerEnrichment.pulls (Enrichment.docker e)) in
  let totalDownloads :=
    add_figure totalDownloads
      (option_map McpbEnrichment.downloadCount (Enrichment.mcpb e)) in
  let stars :=
    match option_map GitHubEnrichment.stars (Enrichment.github e) with
    | Some n => if Js.truthy_number n then n else 0
    | None => 0
    end in
  MCPServer.with_computed server
    (Computed.mk organization serverName packageTypes hasRemote
       totalDownloads stars).

End Enrichers.

(* ===================================================================== *)
(** * scripts/sync.ts *)
(* ===================================================================== *)

Module Sync.
Import Host.

(** Force a full sync every 7 days regardless of incremental updates. *)
Definition FULL_SYNC_INTERVAL_MS : Z := 7 * 24 * 60 * 60 * 1000.

(** What one run finds outside: the two data files as parsed ([None] for a
    file that is missing or cannot be read), the environment variable, the
    registry, the clock at the start and at the end of the run, and the clock
    and sources of every enrichment call. *)
Record World : Type := mkWorld {
  servers_file : option (list MCPServer.t);
  sync_state_file : option SyncState.t;
  FULL_SYNC : option string;
  started : Z;
  registry : Registry.Network;
  enrich_env : nat -> Enrichers.Env;
  finished : Z
}.

(** The variables of [sync] once the run is complete; [saved] is the array
    written to the servers file, [newState] the object written to the
    sync-state file. *)
Record Run : Type := mkRun {
  doFullSync : bool;
  entries : list MCPRegistryEntry.t;
  updatedServers : Js.Map MCPServer.t;
  serversArray : list MCPServer.t;
  saved : list MCPServer.t;
  newState : SyncState.t;
  trace : Trace
}.

Section Orchestrator.
Variable Date_getTime : DateParser.
(** The host's [String.prototype.localeCompare]. *)
Variable localeCompare : string -> string -> Z.

(** Load existing server data. *)
Definition loadServers (file : option (list MCPServer.t)) : Js.Map MCPServer.t :=
  match file with
  | None => Js.map_empty MCPServer.t
  | Some servers => Js.map_of_pairs (map (fun s => (MCPServer.name s, s)) servers)
  end.

(** [arr.sort(compare)]: a stable sort. *)
Fixpoint sort_insert (s : MCPServer.t) (sorted : list MCPServer.t)
  : list MCPServer.t :=
  match sorted with
  | [] => [s]
  | t :: rest =>
      if localeCompare (MCPServer.name s) (MCPServer.name t) <=? 0
      then s :: t :: rest
      else t :: sort_insert s rest
  end.

Definition sort_by_name (servers : list MCPServer.t) : list MCPServer.t :=
  fold_right sort_insert [] servers.

(** Save servers to file: what is written. *)
Definition saveServers (servers : list MCPServer.t) : list MCPServer.t :=
  sort_by_name servers.

(** Convert a registry entry to a server. *)
Definition convertRegistryEntry (entry : MCPRegistryEntry.t) : MCPServer.t :=
  let meta := MCPRegistryEntry._meta entry in
  let server := MCPRegistryEntry.server entry in
  MCPServer.mk
    (MCPRegistryServer.name server)
    (MCPRegistryServer.description server)
    (MCPRegistryServer.version server)
    (MCPRegistryServer.repository server)
    (match MCPRegistryServer.packages server with Some ps => ps | None => [] end)
    (match MCPRegistryServer.remotes server with Some rs => rs | None => [] end)
    (MCPRegistryMeta.status meta)
    (MCPRegistryMeta.publishedAt meta)
    (MCPRegistryMeta.updatedAt meta)
    (MCPRegistryMeta.isLatest meta)
    (Enrichment.mk "" None None None None None None)
    (Computed.mk "" "" [] false 0 0).

(** Determine if we should do a full sync, [now] being [Date.now()]. *)
Definition shouldDoFullSync (env_FULL_SYNC : option string) (now : Z)
    (state : option SyncState.t) : bool :=
  if Fetch.prop_is env_FULL_SYNC "true" then true
  else
    match state with
    | None => true
    | Some state =>
        match Date_getTime (SyncState.lastFullSyncAt state) with
        | Some lastFullSync =>
            let timeSinceFullSync := now - lastFullSync in
            FULL_SYNC_INTERVAL_MS <? timeSinceFullSync
        | None => false
        end
    end.

(** The body of the loop that converts the fetched entries and merges them
    with the existing data. *)
Definition merge_entry (existingServers : Js.Map MCPServer.t)
    (updatedServers : Js.Map MCPServer.t) (entry : MCPRegistryEntry.t)
  : Js.Map MCPServer.t :=
  let server := convertRegistryEntry entry in
  let existing := Js.map_get existingServers (MCPServer.name server) in
  let server :=
    match existing with
    | Some existing =>
        if Js.truthy_string (Enrichment.lastEnrichedAt (MCPServer.enrichment existing))
        then MCPServer.with_enrichment server (MCPServer.enrichment existing)
        else server
    | None => server
    end in
  if ServerStatus_eqb (MCPServer.status server) deleted
  then Js.map_delete updatedServers (MCPServer.name server)
  else Js.map_set updatedServers (MCPServer.name server) server.

Definition merge_entries (existingServers : Js.Map MCPServer.t)
    (entries : list MCPRegistryEntry.t) : Js.Map MCPServer.t :=
  fold_left (merge_entry existingServers) entries existingServers.

(** [entries.some((e) => e.server.name === s.name)]. *)
Definition fetched (entries : list MCPRegistryEntry.t) (s : MCPServer.t) : bool :=
  existsb (fun e => String.eqb (MCPRegistryServer.name (MCPRegistryEntry.server e))
                      (MCPServer.name s)) entries.

(** The options [sync] passes to [enrichServers]. *)
Definition enrich_options (doFullSync : bool) : EnrichmentOptions.t :=
  EnrichmentOptions.mk (Some 200) (Some 2) (Some (negb doFullSync))
    (Some (24 * 60 * 60 * 1000)).

(** [for (const server of enrichedServers) updatedServers.set(server.name, server)]. *)
Definition store_all (updatedServers : Js.Map MCPServer.t)
    (enrichedServers : list MCPServer.t) : Js.Map MCPServer.t :=
  fold_left (fun m server => Js.map_set m (MCPServer.name server) server)
    enrichedServers updatedServers.

(** Enrich servers, only the new and updated ones if incremental. *)
Definition enrich_step (env : nat -> Enrichers.Env) (doFullSync : bool)
    (entries : list MCPRegistryEntry.t) (updatedServers : Js.Map MCPServer.t)
  : option (Js.Map MCPServer.t * Trace) :=
  let serversArray := Js.map_values updatedServers in
  if (0 <? List.length entries)%nat
  then
    let serversToEnrich :=
      if doFullSync then serversArray
      else filter (fetched entries) serversArray in
    match Enrichers.enrichServers Date_getTime env serversToEnrich
            (enrich_options doFullSync) with
    | Some (enrichedServers, tr) => Some (store_all updatedServers enrichedServers, tr)
    | None => None
    end
  else Some (updatedServers, []).

(** How a run ends: it completes, or a fatal error is logged and the
    process exits with code 1 before anything is written. *)
Inductive Exit : Type :=
  | Completed (run : Run)
  | Fatal (error : Thrown).

(** The part of [sync] that follows the fetch of the entries. *)
Definition sync_entries (w : World) (syncState : option SyncState.t)
    (existingServers : Js.Map MCPServer.t) (doFullSync : bool)
    (entries : list MCPRegistryEntry.t) (tr0 : Trace) : option Exit :=
  let updatedServers := merge_entries existingServers entries in
  match enrich_step (enrich_env w) doFullSync entries updatedServers with
  | None => None
  | Some (updatedServers, tr1) =>
      let serversArray :=
        map Enrichers.computeServerFields (Js.map_values updatedServers) in
      let saved := saveServers serversArray in
      let stamp := toISOString (finished w) in
      let newState :=
        SyncState.mk stamp None (Z.of_nat (List.length serversArray))
          (if doFullSync then stamp
           else match syncState with
                | Some state =>
                    if Js.truthy_string (SyncState.lastFullSyncAt state)
                    then SyncState.lastFullSyncAt state else stamp
                | None => stamp
                end)
          1 in
      Some (Completed (mkRun doFullSync entries updatedServers serversArray
                         saved newState (tr0 ++ tr1)))
  end.

(** The fetch of the entries: everything on a full sync, what changed since
    the last sync otherwise ([shouldDoFullSync] is true without a previous
    state, so an incremental sync always has one). *)
Definition fetch_entries (w : World) (doFullSync : bool)
    (syncState : option SyncState.t) (fuel : nat)
  : option (Outcome (list MCPRegistryEntry.t) * Trace) :=
  if doFullSync
  then Registry.fetchAllServers (registry w)
         (FetchServersOptions.mk None None None) fuel
  else
    match syncState with
    | Some state =>
        Registry.fetchUpdatedServers (registry w) (SyncState.lastSyncAt state) fuel
    | None => Some (Threw (new_Error "Cannot read properties of null"), [])
    end.

(** Main sync function; [fuel] bounds the pages of the registry listing, and
    [None] is a run that does not end. *)
Definition sync (w : World) (fuel : nat) : option Exit :=
  let existingServers := loadServers (servers_file w) in
  let syncState := sync_state_file w in
  let doFullSync := shouldDoFullSync (FULL_SYNC w) (started w) syncState in
  match fetch_entries w doFullSync syncState fuel with
  | None => None
  | Some (Threw error, _) => Some (Fatal error)
  | Some (Returned entries, tr0) =>
      sync_entries w syncState existingServers doFullSync entries tr0
  end.

End Orchestrator.

End Sync.

(* ===================================================================== *)
(** * More of the host: arrays, and requests made with a bare [fetch] *)
(* ===================================================================== *)

Module JsArray.

(** [parts.join(sep)]. *)
Fixpoint join (sep : string) (parts : list string) : string :=
  match parts with
  | [] => EmptyString
  | [p] => p
  | p :: rest => String.append p (String.append sep (join sep rest))
  end.

(** The index [slice] starts or ends at, for an integer argument [i] and an
    array of length [len]: a negative argument counts from the end. *)
Definition relative (len i : Z) : Z :=
  if i <? 0 then Z.max (len + i) 0 else Z.min i len.

(** [items.slice(start, end)]. *)
Definition slice {A : Type} (items : list A) (start end_ : Z) : list A :=
  let len := Z.of_nat (List.length items) in
  let k := relative len start in
  let final := relative len end_ in
  firstn (Z.to_nat (final - k)) (skipn (Z.to_nat k) items).

End JsArray.

Module Web.
Import Host.

(** What [fetch(url, { headers })] does during one call of an enricher: it
    resolves with a response or throws.  The headers a caller sends (among
    them the credentials of the environment, when set) do not enter what the
    caller does with the answer, so the answer is given per URL. *)
Definition Network (B : Type) : Type := string -> Outcome (Response B).

(** [Promise.all] of two promises; see [Npm.all3] for the rejection that
    wins. *)
Definition all2 {A B : Type} (a : Outcome A) (b : Outcome B) : Outcome (A * B) :=
  bind a (fun x => bind b (fun y => Returned (x, y))).

End Web.

(* ===================================================================== *)
(** * scripts/enrichers/docker.ts *)
(* ===================================================================== *)

Module Docker.
Import Host.

Definition DOCKER_HUB_API_URL : string := "https://hub.docker.com/v2".

Record DockerHubRepoResponse : Type := mkRepo {
  name : string;
  namespace : string;
  description : option string;
  pull_count : Z;
  star_count : Z;
  last_updated : string;
  is_official : bool;
  is_automated : bool
}.

Record TagResult : Type := mkTag {
  tag_name : string;
  tag_last_updated : string
}.

Record DockerHubTagsResponse : Type := mkTags {
  count : Z;
  results : list TagResult
}.

(** The parts of an image identifier. *)
Record Image : Type := mkImage {
  registry : string;
  image_namespace : string;
  repository : string;
  tag : string
}.

(** Parse a Docker/OCI image identifier:
    [registry/namespace/repository:tag] or [namespace/repository:tag]. *)
Definition parseDockerImage (identifier : string) : option Image :=
  let pieces := Js.split ":"%char identifier in
  let imagePath := nth 0 pieces EmptyString in
  let tag := match nth_error pieces 1 with
             | Some t => t
             | None => "latest"
             end in
  let parts := Js.split Js.slash imagePath in
  if (List.length parts =? 1)%nat
  then Some (mkImage "docker.io" "library" (nth 0 parts EmptyString) tag)
  else
    if (List.length parts =? 2)%nat && negb (Js.includes "." (nth 0 parts EmptyString))
    then Some (mkImage "docker.io" (nth 0 parts EmptyString) (nth 1 parts EmptyString) tag)
    else
      if (3 <=? List.length parts)%nat
      then Some (mkImage (nth 0 parts EmptyString) (nth 1 parts EmptyString)
                   (JsArray.join "/" (skipn 2 parts)) tag)
      else None.

(** Find the Docker/OCI package identifier among the packages of a server. *)
Definition findDockerPackage (server : MCPServer.t) : option string :=
  match find (fun pkg => RegistryType_eqb (Package.registryType pkg) oci)
             (MCPServer.packages server) with
  | Some dockerPackage =>
      if Js.truthy_string (Package.identifier dockerPackage)
      then Some (Package.identifier dockerPackage)
      else None
  | None => None
  end.

Section Enricher.
(** Docker Hub, for the repository endpoint and for the tags endpoint. *)
Variable hub : Web.Network DockerHubRepoResponse.
Variable hub_tags : Web.Network DockerHubTagsResponse.

Definition repo_url (namespace repository : string) : string :=
  String.append DOCKER_HUB_API_URL
    (String.append "/repositories/"
       (String.append namespace (String.append "/" repository))).

Definition tags_url (namespace repository : string) : string :=
  String.append (repo_url namespace repository)
    "/tags?page_size=10&ordering=-last_updated".

(** Fetch Docker Hub repository data. *)
Definition fetchRepoData (namespace repository : string)
  : Outcome (option DockerHubRepoResponse) * Trace :=
  let url := repo_url namespace repository in
  (bind (hub url) (fun response =>
     if status response =? 404 then Returned None
     else if status response =? 429 then Returned None
     else if negb (ok response) then Returned None
     else bind (json response) (fun data => Returned (Some data))),
   [EvFetch url None]).

(** Fetch Docker Hub tags (limited to the most recent). *)
Definition fetchTags (namespace repository : string)
  : Outcome (list string) * Trace :=
  let url := tags_url namespace repository in
  (bind (hub_tags url) (fun response =>
     if negb (ok response) then Returned []
     else bind (json response) (fun data => Returned (map tag_name (results data)))),
   [EvFetch url None]).

(** Enrich a server with Docker Hub data: [Returned None] is [null]. *)
Definition enrichDocker (server : MCPServer.t)
  : Outcome (option DockerEnrichment.t) * Trace :=
  match findDockerPackage server with
  | None => (Returned None, [])
  | Some identifier =>
      match parseDockerImage identifier with
      | None => (Returned None, [])
      | Some parsed =>
          if negb (String.eqb (registry parsed) "docker.io")
          then (Returned None, [])
          else
            let '(repoData, tr1) :=
              fetchRepoData (image_namespace parsed) (repository parsed) in
            let '(tags, tr2) :=
              fetchTags (image_namespace parsed) (repository parsed) in
            (bind (Web.all2 repoData tags) (fun '(repoData, tags) =>
               match repoData with
               | None => Returned None
               | Some repoData =>
                   Returned
                     (Some (DockerEnrichment.mk (pull_count repoData)
                              (star_count repoData) (last_updated repoData) tags
                              (description repoData) (is_official repoData)
                              (is_automated repoData)))
               end),
             tr1 ++ tr2)
      end
  end.

End Enricher.

End Docker.

(* ===================================================================== *)
(** * scripts/enrichers/pypi.ts: the download statistics *)
(* ===================================================================== *)

Module PyPi.
Import Host.

Definition PYPISTATS_API_URL : string := "https://pypistats.org/api".

Record Recent : Type := mkRecent { last_month : Z }.

(** The body of the [recent] endpoint; [data] may be missing. *)
Record RecentResponse : Type := mkRecentResponse { data : option Recent }.

(** Fetch PyPI download statistics (last 30 days): whatever is thrown is
    caught. *)
Definition fetchDownloads (stats : Web.Network RecentResponse)
    (packageName : string) : Outcome Z * Trace :=
  let url :=
    String.append PYPISTATS_API_URL
      (String.append "/packages/" (String.append packageName "/recent")) in
  (match
     bind (stats url) (fun response =>
       if negb (ok response) then Returned 0
       else bind (json response) (fun body =>
              Returned (match data body with
                        | Some recent =>
                            if Js.truthy_number (last_month recent)
                            then last_month recent else 0
                        | None => 0
                        end)))
   with
   | Returned n => Returned n
   | Threw _ => Returned 0
   end,
   [EvFetch url None]).

End PyPi.

(* ===================================================================== *)
(** * scripts/enrichers/mcpb.ts: platform detection *)
(* ===================================================================== *)

Module Mcpb.

(** One alternative of a pattern: a literal, or a literal followed by one
    character other than a given one (as [x86[^_]]). *)
Inductive Alternative : Type :=
  | Literal (s : string)
  | LiteralThenNot (s : string) (c : ascii).

(** [s] starts with [lit] followed by a character other than [c]. *)
Fixpoint starts_then_not (lit : string) (c : ascii) (s : string) : bool :=
  match lit, s with
  | EmptyString, String d _ => negb (Ascii.eqb d c)
  | EmptyString, EmptyString => false
  | String a lit', String d s' => Ascii.eqb a d && starts_then_not lit' c s'
  | String _ _, EmptyString => false
  end.

Fixpoint occurs_then_not (lit : string) (c : ascii) (s : string) : bool :=
  starts_then_not lit c s ||
  match s with
  | EmptyString => false
  | String _ rest => occurs_then_not lit c rest
  end.

Definition matches (alt : Alternative) (s : string) : bool :=
  match alt with
  | Literal lit => Js.includes lit s
  | LiteralThenNot lit c => occurs_then_not lit c s
  end.

(** [new RegExp(pattern).test(s)] for a pattern that is an alternation. *)
Definition test (pattern : list Alternative) (s : string) : bool :=
  existsb (fun alt => matches alt s) pattern.

(** Architecture patterns, in the order of the object. *)
Definition archPatterns : list (list Alternative * string) :=
  [ ([Literal "x86_64"; Literal "x64"; Literal "amd64"], "x64");
    ([Literal "arm64"; Literal "aarch64"], "arm64");
    ([Literal "i386"; Literal "i686"; LiteralThenNot "x86" "_"%char], "x86");
    ([Literal "armv7"; Literal "arm32"], "arm") ].

(** OS patterns, in the order of the object. *)
Definition osPatterns : list (list Alternative * string) :=
  [ ([Literal "darwin"; Literal "macos"; Literal "osx"], "darwin");
    ([Literal "linux"], "linux");
    ([Literal "windows"; Literal "win32"; Literal "win64"; Literal ".exe"], "windows") ].

(** The loop over the entries of a pattern object: the value of the first
    pattern that matches. *)
Definition first_match (patterns : list (list Alternative * string))
    (lower : string) : option string :=
  match find (fun entry => test (fst entry) lower) patterns with
  | Some entry => Some (snd entry)
  | None => None
  end.

(** Detect the platform from an asset filename; [toLowerCase] is the
    host's. *)
Definition detectPlatform (toLowerCase : string -> string) (filename : string)
  : option string :=
  let lower := toLowerCase filename in
  let os := first_match osPatterns lower in
  let arch := first_match archPatterns lower in
  match os, arch with
  | Some os, Some arch => Some (String.append os (String.append "-" arch))
  | Some os, None => Some os
  | None, _ => None
  end.

End Mcpb.

(* ===================================================================== *)
(** * src/lib/pagination.ts *)
(* ===================================================================== *)

(** Pagination state (scripts/types.ts). *)
Module PaginationState.
Record t : Type := mk {
  page : Z;
  pageSize : Z;
  totalItems : Z;
  totalPages : Z
}.
End PaginationState.

Module Pagination.
Import PaginationState.

Definition DEFAULT_PAGE_SIZE : Z := 24.

(** [Math.ceil(a / b)] on integers, for a divisor other than zero (the
    quotient by zero is not an integer). *)
Definition ceil_div (a b : Z) : Z := - ((- a) / b).

(** [Math.floor(a / b)], likewise. *)
Definition floor_div (a b : Z) : Z := a / b.

(** Create the initial pagination state. *)
Definition createPaginationState (totalItems pageSize : Z) : t :=
  mk 1 pageSize totalItems (ceil_div totalItems pageSize).

(** Update the pagination state with a new total of items. *)
Definition updatePaginationTotal (state : t) (totalItems : Z) : t :=
  let totalPages := ceil_div totalItems (pageSize state) in
  mk (if totalPages <? page state then 1 else page state)
     (pageSize state) totalItems totalPages.

(** Change page. *)
Definition setPage (state : t) (page : Z) : t :=
  let clampedPage := Z.max 1 (Z.min page (totalPages state)) in
  mk clampedPage (pageSize state) (totalItems state) (totalPages state).

(** Go to the next page. *)
Definition nextPage (state : t) : t := setPage state (page state + 1).

(** Go to the previous page. *)
Definition prevPage (state : t) : t := setPage state (page state - 1).

(** Change the page size. *)
Definition setPageSize (state : t) (pageSize : Z) : t :=
  let totalPages := ceil_div (totalItems state) pageSize in
  let firstItemIndex := (page state - 1) * PaginationState.pageSize state in
  let newPage := floor_div firstItemIndex pageSize + 1 in
  mk (Z.min newPage totalPages) pageSize (totalItems state) totalPages.

(** Get the slice of items for the current page. *)
Definition paginateItems {A : Type} (items : list A) (state : t) : list A :=
  let start := (page state - 1) * pageSize state in
  let end_ := start + pageSize state in
  JsArray.slice items start end_.

(** Get the pagination info for display: [(start, end, total)]. *)
Definition getPaginationInfo (state : t) : Z * Z * Z :=
  let start := (page state - 1) * pageSize state + 1 in
  let end_ := Z.min (page state * pageSize state) (totalItems state) in
  (start, end_, totalItems state).

(** An element of the list of page numbers: a number or ["..."]. *)
Inductive PageItem : Type :=
  | Number (n : Z)
  | Ellipsis.

(** [i; i+1; ...]: the [n] numbers from [i] on. *)
Fixpoint numbers (i : Z) (n : nat) : list PageItem :=
  match n with
  | O => []
  | S n' => Number i :: numbers (i + 1) n'
  end.

(** Get the page numbers to display, with ellipsis for gaps. *)
Definition getPageNumbers (state : t) (maxVisible : Z) : list PageItem :=
  let page := page state in
  let totalPages := totalPages state in
  if totalPages <=? maxVisible
  then numbers 1 (Z.to_nat totalPages)
  else
    let sidePages := floor_div (maxVisible - 3) 2 in
    let rangeStart := Z.max 2 (page - sidePages) in
    let rangeEnd := Z.min (totalPages - 1) (page + sidePages) in
    let '(rangeStart, rangeEnd) :=
      if page <=? sidePages + 2 then (rangeStart, maxVisible - 2)
      else if totalPages - sidePages - 1 <=? page
           then (totalPages - maxVisible + 3, rangeEnd)
           else (rangeStart, rangeEnd) in
    [Number 1]
    ++ (if 2 <? rangeStart then [Ellipsis] else [])
    ++ numbers rangeStart (Z.to_nat (rangeEnd - rangeStart + 1))
    ++ (if rangeEnd <? totalPages - 1 then [Ellipsis] else [])
    ++ [Number totalPages].

(** Check if one can go to the previous page. *)
Definition canGoPrev (state : t) : bool := 1 <? page state.

(** Check if one can go to the next page. *)
Definition canGoNext (state : t) : bool := page state <? totalPages state.

End Pagination.

(* ===================================================================== *)
(** * Notions used to state the properties *)
(* ===================================================================== *)

(** ** Resilient fetch *)

(** [a; a+1; ...]: the [n] integers from [a] on. *)
Fixpoint range (a : Z) (n : nat) : list Z :=
  match n with
  | O => []
  | S n' => a :: range (a + 1) n'
  end.

(** The conditions under which a failed request is tried again, as the
    specification names them, and the shape of the thrown object that each
    stands for: a connection timeout (reported by the socket, by the HTTP
    client, or as the cause of the failure), a connection refused, a
    connection reset, the abort of a request that ran into its timeout, and
    a failure of [fetch] itself. *)
Inductive NetworkErrorKind : Type :=
  | Timeout | ConnRefused | ConnReset | Aborted | GenericFetchFailure.

(** The text [s] has the text [sub] somewhere in it. *)
Definition occurs_in (sub s : string) : Prop :=
  exists before after, s = String.append before (String.append sub after).

Definition error_of_kind (kind : NetworkErrorKind) (err : Host.ErrorObject) : Prop :=
  match kind with
  | Timeout =>
      Host.code err = Some "ETIMEDOUT"
      \/ Host.code err = Some "UND_ERR_CONNECT_TIMEOUT"
      \/ Host.cause_code err = Some "UND_ERR_CONNECT_TIMEOUT"
  | ConnRefused => Host.code err = Some "ECONNREFUSED"
  | ConnReset => Host.code err = Some "ECONNRESET"
  | Aborted => Host.name err = Some "AbortError"
  | GenericFetchFailure =>
      exists msg, Host.message err = Some msg /\ occurs_in "fetch failed" msg
  end.

(** A thrown value is retriable when it is an object of one of the kinds;
    every other thrown value is terminal. *)
Definition retriable (e : Host.Thrown) : Prop :=
  exists err kind, e = Host.ThrownObject err /\ error_of_kind kind err.

Section RetryNotions.
Import Host.
Variable B : Type.
Variable fetch : Fetch.Network B.
Variable url : string.
Variable options : RequestInit.
Variable maxRetries : Z.
Variable baseTimeout : Z.

(** How the [k]-th attempt of a call ends; it is made with the timeout
    [baseTimeout * k]. *)
Definition attempt_outcome (k : Z) : Outcome (Response B) :=
  fetch url (with_signal options (baseTimeout * k)) k.

(** The attempt throws an error that is retried. *)
Definition fails_retriably (k : Z) : Prop :=
  exists e, attempt_outcome k = Threw e /\ Fetch.isRetriableError e = true.

(** The attempt ends the call: a response was received, or the error thrown
    is not retriable, or it was the last allowed attempt. *)
Definition decisive (k : Z) : Prop :=
  match attempt_outcome k with
  | Returned _ => True
  | Threw e => Fetch.isRetriableError e = false \/ k = maxRetries
  end.

(** The attempt throws a retriable error. *)
Definition throws_retriable (k : Z) : Prop :=
  exists e, attempt_outcome k = Threw e /\ retriable e.

(** The attempt is one after which the specification has the call end: a
    response was received, of whatever status, or the error thrown is not
    retriable, or it was the last allowed attempt. *)
Definition ends_the_call (k : Z) : Prop :=
  match attempt_outcome k with
  | Returned _ => True
  | Threw e => ~ retriable e \/ k = maxRetries
  end.

(** [n] attempts from the attempt [from] on that are all retried: a request
    with the progressive timeout, then the sleep. *)
Definition retry_trace (from : Z) (n : nat) : Trace :=
  flat_map (fun j => [EvFetch url (Some (baseTimeout * j)); EvSleep (1000 * j)])
    (range from n).

End RetryNotions.

(** ** Derived fields *)

(** The sources that contribute a download figure. *)
Inductive DownloadSource : Type :=
  | FromNpm | FromPyPi | FromNuGet | FromDocker | FromMcpb.

(** The download figure of a source as the specification counts it: the
    figure when the source is present, zero when it is absent. *)
Definition figure (src : DownloadSource) (e : Enrichment.t) : Z :=
  match src with
  | FromNpm =>
      match Enrichment.npm e with
      | Some x => NpmEnrichment.monthlyDownloads x
      | None => 0
      end
  | FromPyPi =>
      match Enrichment.pypi e with
      | Some x => PyPiEnrichment.downloads x
      | None => 0
      end
  | FromNuGet =>
      match Enrichment.nuget e with
      | Some x => NuGetEnrichment.totalDownloads x
      | None => 0
      end
  | FromDocker =>
      match Enrichment.docker e with
      | Some x => DockerEnrichment.pulls x
      | None => 0
      end
  | FromMcpb =>
      match Enrichment.mcpb e with
      | Some x => McpbEnrichment.downloadCount x
      | None => 0
      end
  end.

Definition all_sources : list DownloadSource :=
  [FromNpm; FromPyPi; FromNuGet; FromDocker; FromMcpb].

Definition sum_of_figures (e : Enrichment.t) : Z :=
  fold_right Z.add 0 (map (fun src => figure src e) all_sources).

(** The derived fields of a server, as [computeServerFields] sets them. *)
Definition computed_of (server : MCPServer.t) : Computed.t :=
  MCPServer._computed (Enrichers.computeServerFields server).

Definition totalDownloads_of (server : MCPServer.t) : Z :=
  Computed.totalDownloads (computed_of server).

Definition organization_of (server : MCPServer.t) : string :=
  Computed.organization (computed_of server).

Definition serverName_of (server : MCPServer.t) : string :=
  Computed.serverName (computed_of server).

(** The part of [s] before the first [sep]; all of [s] when it has none. *)
Fixpoint before_first (sep : ascii) (s : string) : string :=
  match s with
  | EmptyString => EmptyString
  | String c rest =>
      if Ascii.eqb c sep then EmptyString else String c (before_first sep rest)
  end.

(** The entire remainder of [s] after the first [sep]; empty when it has
    none. *)
Fixpoint after_first (sep : ascii) (s : string) : string :=
  match s with
  | EmptyString => EmptyString
  | String c rest => if Ascii.eqb c sep then rest else after_first sep rest
  end.

(** ** Coordinator *)

(** A server is selected for enrichment unless it is skipped as fresh. *)
Definition selected (Date_getTime : Host.DateParser) (env : Enrichers.Env)
    (server : MCPServer.t) (options : EnrichmentOptions.t) : bool :=
  negb (Options.skipIfFresh (Enrichers.merge_options options)
        && Enrichers.isEnrichmentFresh Date_getTime (Enrichers.now env) server
             (Options.maxAge (Enrichers.merge_options options))).

(** The enrichment of a record is less than [maxAge] old at the time [now]:
    [lastEnrichedAt] is set, it reads as a date, and less than [maxAge]
    milliseconds have passed since that date. *)
Definition enriched_within (Date_getTime : Host.DateParser) (maxAge now : Z)
    (server : MCPServer.t) : Prop :=
  let stamp := Enrichment.lastEnrichedAt (MCPServer.enrichment server) in
  stamp <> EmptyString
  /\ exists t, Date_getTime stamp = Some t /\ now - t < maxAge.

(** The enrichment of a server is fresh when the call for the server at
    index [i] of the array is made. *)
Definition fresh_at (Date_getTime : Host.DateParser) (env : nat -> Enrichers.Env)
    (maxAge : Z) (i : nat) (server : MCPServer.t) : Prop :=
  Enrichers.isEnrichmentFresh Date_getTime (Enrichers.now (env i)) server maxAge = true.

(** ** Orchestrator *)

Definition entry_name (e : MCPRegistryEntry.t) : string :=
  MCPRegistryServer.name (MCPRegistryEntry.server e).

Definition entry_status (e : MCPRegistryEntry.t) : ServerStatus :=
  MCPRegistryMeta.status (MCPRegistryEntry._meta e).

(** The last of the fetched entries that carries a given name: the one whose
    write wins in the merge. *)
Fixpoint last_entry_named (n : string) (entries : list MCPRegistryEntry.t)
  : option MCPRegistryEntry.t :=
  match entries with
  | [] => None
  | e :: rest =>
      match last_entry_named n rest with
      | Some later => Some later
      | None => if String.eqb (entry_name e) n then Some e else None
      end
  end.

(** A collection keyed by the names of its records, each name once. *)
Definition keyed_by_name (m : Js.Map MCPServer.t) : Prop :=
  NoDup (Js.map_keys m)
  /\ Forall (fun kv => fst kv = MCPServer.name (snd kv)) m.

(** The record the merge builds for an entry: the converted entry, with the
    enrichment of the existing record of that name when it has been
    enriched. *)
Definition merged_record (existingServers : Js.Map MCPServer.t)
    (e : MCPRegistryEntry.t) : MCPServer.t :=
  match Js.map_get existingServers (entry_name e) with
  | Some existing =>
      if Js.truthy_string (Enrichment.lastEnrichedAt (MCPServer.enrichment existing))
      then MCPServer.with_enrichment (Sync.convertRegistryEntry e)
             (MCPServer.enrichment existing)
      else Sync.convertRegistryEntry e
  | None => Sync.convertRegistryEntry e
  end.

(** The registry-sourced fields of a record. *)
Definition registry_fields (s : MCPServer.t) :=
  (MCPServer.name s, MCPServer.description s, MCPServer.version s,
   MCPServer.repository s, MCPServer.packages s, MCPServer.remotes s,
   MCPServer.status s, MCPServer.publishedAt s, MCPServer.updatedAt s,
   MCPServer.isLatest s).

(** The record holds the registry fields of an entry and a given
    enrichment. *)
Definition holds (r : MCPServer.t) (e : MCPRegistryEntry.t) (E : Enrichment.t) : Prop :=
  registry_fields r = registry_fields (Sync.convertRegistryEntry e)
  /\ MCPServer.enrichment r = E.

(* ===================================================================== *)
(** * Scenarios *)
(* ===================================================================== *)

Module Scenario.
Import Host.

(** 2025-01-01T00:00:00.000Z, six hours later, and a second after that. *)
Definition t0 : Z := 1735689600000.
Definition t1 : Z := t0 + 6 * 60 * 60 * 1000.
Definition t2 : Z := t1 + 1000.

(** A date parser that knows the timestamps of the scenarios. *)
Definition Date_getTime : DateParser :=
  Js.map_get [(toISOString t0, t0); (toISOString t1, t1); (toISOString t2, t2)].

Definition localeCompare (a b : string) : Z :=
  match String.compare a b with
  | Lt => -1
  | Eq => 0
  | Gt => 1
  end.

(** *** Network errors and responses *)

Definition timeout_error : Thrown :=
  ThrownObject (mkError (Some "ETIMEDOUT") (Some "Error") (Some "connect ETIMEDOUT") None).

Definition reset_error : Thrown :=
  ThrownObject (mkError (Some "ECONNRESET") (Some "Error") (Some "read ECONNRESET") None).

Definition syntax_error : Thrown :=
  ThrownObject (mkError None (Some "SyntaxError") (Some "Unexpected token < in JSON") None).

(** The reason phrase a server sends with a status. *)
Definition reason (status : Z) : string :=
  if status =? 200 then "OK"
  else if status =? 404 then "Not Found"
  else if status =? 500 then "Internal Server Error"
  else if status =? 503 then "Service Unavailable"
  else "".

Definition answer {B : Type} (status : Z) (body : B) : Response B :=
  mkResponse status (reason status) ((200 <=? status) && (status <=? 299))
    (Returned body).

(** Attempts 1 and 2 time out, attempt 3 is answered. *)
Definition third_time_lucky : Fetch.Network string :=
  fun _ _ attempt =>
    if attempt <? 3 then Threw timeout_error else Returned (answer 200 "ok").

(** The first attempt is answered with a plain 404. *)
Definition not_found : Fetch.Network string :=
  fun _ _ _ => Returned (answer 404 "Not Found").

(** *** Servers *)

Definition tool_package : Package.t :=
  Package.mk npm "acme-tool" None None None.

Definition tool_entry (version : string) (status : ServerStatus)
    (isLatest : bool) : MCPRegistryEntry.t :=
  MCPRegistryEntry.mk
    (MCPRegistryServer.mk None "acme/tool" "A tool" None version
       (Some [tool_package]) None)
    (MCPRegistryMeta.mk status "2024-12-01T00:00:00.000Z"
       "2025-01-01T03:00:00.000Z" isLatest).

Definition tool_npm (monthlyDownloads : Z) : NpmEnrichment.t :=
  NpmEnrichment.mk 1200 monthlyDownloads "1.0.0" 2
    (Some "2024-12-01T00:00:00.000Z") ["acme"] None ["mcp"].

(** The enrichment [E] of the existing record, stamped at [t0]. *)
Definition tool_enrichment : Enrichment.t :=
  Enrichment.mk (toISOString t0) None (Some (tool_npm 5000)) None None None None.

(** The record [A] of the prior snapshot. *)
Definition tool_server : MCPServer.t :=
  MCPServer.with_enrichment
    (Sync.convertRegistryEntry (tool_entry "1.0.0" active true)) tool_enrichment.

(** A record that has never been enriched. *)
Definition new_server : MCPServer.t :=
  Sync.convertRegistryEntry (tool_entry "1.0.0" active true).

Definition server_named (name : string) : MCPServer.t :=
  MCPServer.mk name "" "1.0.0" None [] [] active "" "" true
    (Enrichment.mk "" None None None None None None)
    (Computed.mk "" "" [] false 0 0).

(** *** Sources *)

(** No source has anything to say. *)
Definition silent : Enrichers.Sources :=
  Enrichers.mkSources
    (fun _ => Returned None) (fun _ => Returned None) (fun _ => Returned None)
    (fun _ => Returned None) (fun _ => Returned None) (fun _ => Returned None).

(** Every source throws. *)
Definition broken : Enrichers.Sources :=
  Enrichers.mkSources
    (fun _ => Threw reset_error) (fun _ => Threw reset_error)
    (fun _ => Threw reset_error) (fun _ => Threw reset_error)
    (fun _ => Threw reset_error) (fun _ => Threw reset_error).

(** Only npm answers. *)
Definition npm_only : Enrichers.Sources :=
  Enrichers.mkSources
    (fun _ => Returned None) (fun _ => Returned (Some (tool_npm 5000)))
    (fun _ => Returned None) (fun _ => Returned None)
    (fun _ => Returned None) (fun _ => Returned None).

Definition at_time (now : Z) (src : Enrichers.Sources) : nat -> Enrichers.Env :=
  fun _ => Enrichers.mkEnv now src.

(** *** The npm registry *)

(** The registry drops every connection; the downloads API answers. *)
Definition npm_unreachable : Fetch.Network Npm.NpmPackageResponse :=
  fun _ _ _ => Threw reset_error.

(** The registry answers 200 with a body that is not JSON. *)
Definition npm_garbled : Fetch.Network Npm.NpmPackageResponse :=
  fun _ _ _ => Returned (mkResponse 200 "OK" true (Threw syntax_error)).

(** The registry answers 500. *)
Definition npm_down : Fetch.Network Npm.NpmPackageResponse :=
  fun _ _ _ => Returned (mkResponse 500 "Internal Server Error" false (Threw syntax_error)).

Definition npm_downloads : Fetch.Network Npm.NpmDownloadsResponse :=
  fun _ _ _ =>
    Returned (answer 200 (Npm.mkDownloads 5000 "2024-12-01" "2024-12-31" "acme-tool")).

Definition encodeURIComponent (s : string) : string := s.

(** The sources of a run in which the npm enricher is the real one, in front
    of an unreachable registry. *)
Definition npm_behind_unreachable : Enrichers.Sources :=
  Enrichers.mkSources
    (fun _ => Returned None)
    (fun server =>
       fst (Npm.enrichNpm encodeURIComponent npm_unreachable npm_downloads server))
    (fun _ => Returned None) (fun _ => Returned None)
    (fun _ => Returned None) (fun _ => Returned None).

(** *** The MCP registry *)

(** A registry that serves the given pages, one per request, each but the
    last with a cursor to the next. *)
Definition serving (pages : list (list MCPRegistryEntry.t)) : Registry.Network :=
  fun _ page =>
    match nth_error pages (Z.to_nat (page - 1)) with
    | Some entries =>
        Returned
          (answer 200
             (MCPRegistryResponse.mk entries (Z.of_nat (List.length entries))
                (if page <? Z.of_nat (List.length pages) then Some "next" else None)))
    | None => Threw (new_Error "no such page")
    end.

Definition state_at (t : Z) : SyncState.t :=
  SyncState.mk (toISOString t) None 1 (toISOString t) 1.

(** An incremental run at [t1] over a snapshot that holds [tool_server],
    last synced at [t0], against a registry that serves [pages]. *)
Definition incremental (pages : list (list MCPRegistryEntry.t)) : Sync.World :=
  Sync.mkWorld (Some [tool_server]) (Some (state_at t0)) None t1
    (serving pages) (at_time t1 silent) t2.

(** A first run, with no files, against a registry that serves [pages];
    only npm answers the enrichment. *)
Definition first_run (pages : list (list MCPRegistryEntry.t)) : Sync.World :=
  Sync.mkWorld None None None t1 (serving pages) (at_time t1 npm_only) t2.

End Scenario.

(* ===================================================================== *)
(** * Further notions: listing, sources, snapshot order, pagination *)
(* ===================================================================== *)

Import Host.

(** [n] pages were fetched, each answered with a cursor to the next. *)
Fixpoint followed (net : Registry.Network) (options : FetchServersOptions.t)
    (cursor : option string) (page : Z) (responses : list MCPRegistryResponse.t) : Prop :=
  match responses with
  | [] => True
  | r :: rest =>
      Registry.fetchServers net (page + 1) (Registry.with_cursor options cursor) = Returned r
      /\ Js.truthy_opt_string (MCPRegistryResponse.nextCursor r) = true
      /\ followed net options (MCPRegistryResponse.nextCursor r) (page + 1) rest
  end.

(** The cursor in hand after the given responses. *)
Definition cursor_after (cursor : option string) (responses : list MCPRegistryResponse.t)
  : option string :=
  fold_left (fun _ r => MCPRegistryResponse.nextCursor r) responses cursor.

(** The entries of a response that are the latest version of their server. *)
Definition latest_of (r : MCPRegistryResponse.t) : list MCPRegistryEntry.t :=
  filter Registry.entry_isLatest (MCPRegistryResponse.servers r).

(** The search parameters of the request for the page after [cursor]. *)
Definition query_of (options : FetchServersOptions.t) (cursor : option string)
  : Registry.Query :=
  Registry.mkQuery
    (match FetchServersOptions.limit options with
     | Some l => l
     | None => Registry.DEFAULT_LIMIT
     end)
    (Registry.param cursor)
    (Registry.param (FetchServersOptions.updatedSince options)).

(** The slot of a source after its enricher has answered: the data it
    resolved with, or what the slot held when it resolved with [null] or
    threw. *)
Definition slot_after {A : Type} (old : option A) (answer : Outcome (option A))
  : option A :=
  match answer with
  | Returned (Some a) => Some a
  | Returned None => old
  | Threw _ => old
  end.

(** The names of the enrichers, in the order of the array. *)
Definition enricher_names : list string :=
  ["GitHub"; "npm"; "PyPI"; "NuGet"; "Docker"; "MCPB"].

(** The order the snapshot is written in. *)
Definition name_le (localeCompare : string -> string -> Z) (a b : MCPServer.t) : Prop :=
  localeCompare (MCPServer.name a) (MCPServer.name b) <= 0.

(** The URLs the npm enricher requests for a package. *)
Definition npm_package_url (encodeURIComponent : string -> string) (packageName : string)
  : string :=
  String.append Npm.NPM_REGISTRY_URL (String.append "/" (encodeURIComponent packageName)).

Definition npm_downloads_url (encodeURIComponent : string -> string)
    (period : Npm.Period) (packageName : string) : string :=
  String.append Npm.NPM_API_URL
    (String.append "/downloads/point/"
       (String.append (Npm.period_string period)
          (String.append "/" (encodeURIComponent packageName)))).

(** The first request of a call of [fetchWithRetry] by the npm enricher. *)
Definition first_answer {B : Type} (net : Fetch.Network B) (url : string)
  : Outcome (Response B) :=
  net url (with_signal Npm.request_init (10000 * 1)) 1.

(** The path of an image identifier (what precedes the first ":") and its
    segments. *)
Definition image_path (identifier : string) : string :=
  nth 0 (Js.split ":"%char identifier) EmptyString.

Definition path_segments (identifier : string) : list string :=
  Js.split Js.slash (image_path identifier).

(** [a/b]. *)
Definition slashed (a b : string) : string :=
  String.append a (String.append "/" b).

(** The tokens that name an operating system in an asset filename. *)
Definition os_tokens : list string :=
  ["darwin"; "macos"; "osx"; "linux"; "windows"; "win32"; "win64"; ".exe"].

(** Every platform [detectPlatform] can name. *)
Definition platforms : list string :=
  flat_map (fun os => os :: map (fun arch => String.append os (String.append "-" arch))
                              ["x64"; "arm64"; "x86"; "arm"])
    ["darwin"; "linux"; "windows"].

(** The URL the PyPI enricher asks for the recent downloads of a package. *)
Definition pypi_recent_url (packageName : string) : string :=
  String.append PyPi.PYPISTATS_API_URL
    (String.append "/packages/" (String.append packageName "/recent")).

(** A pagination state the functions of the library produce from a positive
    page size and a count of items: the page count is the one of the items,
    and the page is in range (page 1 of 0 is the state of an empty list). *)
Definition paginated (s : PaginationState.t) : Prop :=
  0 < PaginationState.pageSize s
  /\ 0 <= PaginationState.totalItems s
  /\ PaginationState.totalPages s
     = Pagination.ceil_div (PaginationState.totalItems s) (PaginationState.pageSize s)
  /\ 1 <= PaginationState.page s <= Z.max 1 (PaginationState.totalPages s).

(** ** Further scenarios *)

Module Cases.
Import Host.

(** A request for a URL that is none: the error is no network error. *)
Definition invalid_url_error : Thrown :=
  ThrownObject (mkError (Some "ERR_INVALID_URL") (Some "TypeError") (Some "Invalid URL") None).

Definition bad_url : Fetch.Network string :=
  fun _ _ _ => Threw invalid_url_error.

(** Every attempt ends in a connection reset. *)
Definition unreachable : Fetch.Network string :=
  fun _ _ _ => Threw Scenario.reset_error.

(** The first attempt runs into its timeout and is aborted, the second
    fails in [fetch], the third is answered with a 500. *)
Definition abort_error : Thrown :=
  ThrownObject (mkError None (Some "AbortError") (Some "This operation was aborted") None).

Definition fetch_failed_error : Thrown :=
  ThrownObject (mkError None (Some "TypeError") (Some "fetch failed") None).

Definition flaky : Fetch.Network string :=
  fun _ _ attempt =>
    if attempt =? 1 then Threw abort_error
    else if attempt =? 2 then Threw fetch_failed_error
    else Returned (Scenario.answer 500 "Internal Server Error").

(** Options that skip fresh records and ask for batches of no server. *)
Definition skip_fresh_no_concurrency : EnrichmentOptions.t :=
  EnrichmentOptions.mk None (Some 0) (Some true) None.

(** The options of a plain listing. *)
Definition listing : FetchServersOptions.t := FetchServersOptions.mk None None None.

Definition entry_named (name : string) : MCPRegistryEntry.t :=
  MCPRegistryEntry.mk
    (MCPRegistryServer.mk None name "A server" None "1.0.0" None None)
    (MCPRegistryMeta.mk active "2024-12-01T00:00:00.000Z"
       "2025-01-01T03:00:00.000Z" true).

(** The two pages of a registry, the first with a superseded entry. *)
Definition page_one : MCPRegistryResponse.t :=
  MCPRegistryResponse.mk
    [Scenario.tool_entry "0.9.0" active false; Scenario.tool_entry "1.0.0" active true]
    2 (Some "next").

Definition page_two : MCPRegistryResponse.t :=
  MCPRegistryResponse.mk [entry_named "zeta/last"] 1 None.

Definition two_pages : Registry.Network :=
  Scenario.serving
    [[Scenario.tool_entry "0.9.0" active false; Scenario.tool_entry "1.0.0" active true];
     [entry_named "zeta/last"]].

(** The first page is served, the connection drops on the second. *)
Definition second_page_fails : Registry.Network :=
  fun _ page =>
    if page =? 1 then Returned (Scenario.answer 200 page_one)
    else Threw Scenario.reset_error.

(** The first page is served, the second is answered with a 503. *)
Definition second_page_unavailable : Registry.Network :=
  fun _ page =>
    if page =? 1 then Returned (Scenario.answer 200 page_one)
    else Returned (mkResponse 503 "Service Unavailable" false
                     (Threw Scenario.syntax_error)).

(** Every page comes with a cursor to a next one. *)
Definition endless : Registry.Network :=
  fun _ _ => Returned (Scenario.answer 200 (MCPRegistryResponse.mk [] 0 (Some "again"))).

(** Options that ask for batches of no server. *)
Definition no_concurrency : EnrichmentOptions.t :=
  EnrichmentOptions.mk None (Some 0) None None.

(** A first run against a registry that lists two servers, the later name
    first. *)
Definition two_servers : Sync.World :=
  Scenario.first_run [[entry_named "zeta/last"; entry_named "alpha/first"]].

(** An incremental run that fetches a server other than the one of the
    snapshot. *)
Definition other_server : Sync.World :=
  Scenario.incremental [[entry_named "zeta/last"]].

(** An incremental run that fetches nothing. *)
Definition nothing_new : Sync.World := Scenario.incremental [[]].

(** A run over a state file whose [lastFullSyncAt] is no date. *)
Definition undated : SyncState.t :=
  SyncState.mk (toISOString Scenario.t0) None 1 "yesterday" 1.

Definition undated_run : Sync.World :=
  Sync.mkWorld (Some [Scenario.tool_server]) (Some undated) None Scenario.t1
    (Scenario.serving [[]]) (Scenario.at_time Scenario.t1 Scenario.silent) Scenario.t2.

(** The npm registry knows the package; the downloads API is down. *)
Definition tool_package_data : Npm.NpmPackageResponse :=
  Npm.mkPackage "acme-tool" (Some (Npm.mkDistTags (Some "1.0.0")))
    [("1.0.0", "2024-12-01T00:00:00.000Z")] None None None
    [("1.0.0", Npm.mkVersionData (Some [("zod", "^3.0.0")]))].

Definition npm_registry : Fetch.Network Npm.NpmPackageResponse :=
  fun _ _ _ => Returned (Scenario.answer 200 tool_package_data).

Definition downloads_down : Fetch.Network Npm.NpmDownloadsResponse :=
  fun _ _ _ =>
    Returned (mkResponse 503 "Service Unavailable" false (Threw Scenario.syntax_error)).

(** A server published as an image of Docker Hub. *)
Definition image_server : MCPServer.t :=
  MCPServer.mk "acme/tool" "" "1.0.0" None
    [Package.mk oci "acme/tool:1.2" None None None] [] active "" "" true
    (Enrichment.mk "" None None None None None None)
    (Computed.mk "" "" [] false 0 0).

Definition tool_repo : Docker.DockerHubRepoResponse :=
  Docker.mkRepo "tool" "acme" None 1500 7 "2024-12-01T00:00:00.000Z" false false.

Definition hub : Web.Network Docker.DockerHubRepoResponse :=
  fun _ => Returned (Scenario.answer 200 tool_repo).

Definition hub_tags_down : Web.Network Docker.DockerHubTagsResponse :=
  fun _ => Returned (mkResponse 500 "Internal Server Error" false (Threw Scenario.syntax_error)).

(** Five items, and the third of their pages of two. *)
Definition five : list Z := [10; 20; 30; 40; 50].

Definition second_of_three : PaginationState.t :=
  Pagination.setPage (Pagination.createPaginationState 5 2) 2.

Definition last_of_three : PaginationState.t :=
  Pagination.setPage (Pagination.createPaginationState 5 2) 3.

(** Page 10 of 20. *)
Definition tenth_of_twenty : PaginationState.t :=
  Pagination.setPage (Pagination.createPaginationState 480 Pagination.DEFAULT_PAGE_SIZE) 10.

End Cases.

(* ===================================================================== *)
(** * Facts about the embedding *)
(* ===================================================================== *)

Import Host.

(** ** Ordered sets *)

Section OrderedSetFacts.
Variable A : Type.
Variable eqb : A -> A -> bool.
Hypothesis eqb_eq : forall a b, eqb a b = true <-> a = b.

Lemma set_has_In (s : list A) (x : A) : Js.set_has eqb s x = true <-> In x s.
Proof.
  unfold Js.set_has. rewrite existsb_exists. split.
  - intros [y [Hy Heq]]. apply eqb_eq in Heq. now subst.
  - intros H. exists x. split; [assumption | now apply eqb_eq].
Qed.

Lemma set_add_In (s : list A) (x y : A) :
  In y (Js.set_add eqb s x) <-> In y s \/ y = x.
Proof.
  unfold Js.set_add. destruct (Js.set_has eqb s x) eqn:E.
  - apply set_has_In in E. split; [tauto | intros [H | ->]; assumption].
  - rewrite in_app_iff. simpl. intuition.
Qed.

Lemma set_add_NoDup (s : list A) (x : A) :
  NoDup s -> NoDup (Js.set_add eqb s x).
Proof.
  intros Hs. unfold Js.set_add. destruct (Js.set_has eqb s x) eqn:E; [assumption|].
  assert (~ In x s) as Hx.
  { intros H. apply set_has_In in H. congruence. }
  clear E. induction Hs as [| a l Ha Hl IH]; simpl.
  - constructor; [intros [] | constructor].
  - constructor.
    + rewrite in_app_iff. simpl. intros [H | [H | []]]; [tauto |].
      subst. apply Hx. now left.
    + apply IH. intros H. apply Hx. now right.
Qed.

Lemma fold_set_add_spec (xs acc : list A) :
  NoDup acc ->
  NoDup (fold_left (Js.set_add eqb) xs acc)
  /\ forall y, In y (fold_left (Js.set_add eqb) xs acc) <-> In y acc \/ In y xs.
Proof.
  revert acc. induction xs as [| x xs IH]; intros acc Hacc; simpl.
  - split; [assumption | intros y; tauto].
  - destruct (IH (Js.set_add eqb acc x) (set_add_NoDup x Hacc)) as [Hnd Hin].
    split; [assumption |].
    intros y. rewrite Hin, set_add_In. intuition.
Qed.

Lemma set_of_array_spec (xs : list A) :
  NoDup (Js.set_of_array eqb xs)
  /\ forall y, In y (Js.set_of_array eqb xs) <-> In y xs.
Proof.
  unfold Js.set_of_array.
  destruct (fold_set_add_spec xs (NoDup_nil A)) as [Hnd Hin].
  split; [assumption |]. intros y. rewrite Hin. simpl. tauto.
Qed.

End OrderedSetFacts.

Lemma RegistryType_eqb_eq (a b : RegistryType) :
  RegistryType_eqb a b = true <-> a = b.
Proof. destruct a, b; simpl; split; intros H; try reflexivity; discriminate. Qed.

(** ** Derived fields *)

Lemma add_figure_plus (total : Z) (o : option Z) :
  Enrichers.add_figure total o = total + match o with Some n => n | None => 0 end.
Proof.
  unfold Enrichers.add_figure, Js.truthy_number. destruct o as [n |]; [| lia].
  destruct (Z.eqb_spec n 0); simpl; lia.
Qed.

Lemma totalDownloads_sum (server : MCPServer.t) :
  totalDownloads_of server = sum_of_figures (MCPServer.enrichment server).
Proof.
  unfold totalDownloads_of, Enrichers.computeServerFields, sum_of_figures. simpl.
  rewrite !add_figure_plus.
  destruct (MCPServer.enrichment server) as [at_ gh np py nu dk mb]; simpl.
  destruct np, py, nu, dk, mb; simpl; lia.
Qed.

Lemma split_first (sep : ascii) (s : string) :
  Js.split sep s
  = before_first sep s
    :: (if Js.has_char sep s then Js.split sep (after_first sep s) else []).
Proof.
  induction s as [| c rest IH]; simpl; [reflexivity |].
  destruct (Ascii.eqb c sep); simpl; [reflexivity |].
  rewrite IH. reflexivity.
Qed.

Lemma before_first_no_sep (sep : ascii) (s : string) :
  Js.has_char sep (before_first sep s) = false.
Proof.
  induction s as [| c rest IH]; simpl; [reflexivity |].
  destruct (Ascii.eqb c sep) eqn:E; simpl; [reflexivity |].
  rewrite E. exact IH.
Qed.

Lemma before_first_whole (sep : ascii) (s : string) :
  Js.has_char sep s = false -> before_first sep s = s.
Proof.
  induction s as [| c rest IH]; simpl; [reflexivity |].
  destruct (Ascii.eqb c sep); simpl; [discriminate |].
  intros H. now rewrite IH.
Qed.

Lemma organization_of_eq (server : MCPServer.t) :
  organization_of server
  = if Js.has_char Js.slash (MCPServer.name server)
    then before_first Js.slash (MCPServer.name server) else "".
Proof.
  unfold organization_of, Enrichers.computeServerFields. simpl.
  rewrite split_first.
  destruct (Js.has_char Js.slash (MCPServer.name server)); [| reflexivity].
  rewrite (split_first Js.slash (after_first _ _)). reflexivity.
Qed.

Lemma serverName_of_eq (server : MCPServer.t) :
  serverName_of server
  = if Js.has_char Js.slash (MCPServer.name server)
    then before_first Js.slash (after_first Js.slash (MCPServer.name server))
    else MCPServer.name server.
Proof.
  unfold serverName_of, Enrichers.computeServerFields. simpl.
  rewrite split_first.
  destruct (Js.has_char Js.slash (MCPServer.name server)) eqn:E.
  - rewrite (split_first Js.slash (after_first _ _)). reflexivity.
  - simpl. now apply before_first_whole.
Qed.

(** ** Resilient fetch *)

Section RetryPolicy.
Variable B : Type.
Variable fetch : Fetch.Network B.
Variable url : string.
Variable options : RequestInit.
Variable maxRetries : Z.
Variable baseTimeout : Z.

Lemma attempts_decided (n : nat) :
  forall (a : Z) (remaining : nat) (lastError : option Thrown),
  (n < remaining)%nat ->
  (forall j, a <= j < a + Z.of_nat n -> fails_retriably fetch url options baseTimeout j) ->
  (forall j, a <= j < a + Z.of_nat n -> j <> maxRetries) ->
  decisive fetch url options maxRetries baseTimeout (a + Z.of_nat n) ->
  Fetch.attempts fetch url options maxRetries baseTimeout remaining a lastError
  = (attempt_outcome fetch url options baseTimeout (a + Z.of_nat n),
     retry_trace url baseTimeout a n ++ [EvFetch url (Some (baseTimeout * (a + Z.of_nat n)))]).
Proof.
  induction n as [| n IH]; intros a remaining lastError Hrem Hfail Hnot Hdec.
  - destruct remaining as [| remaining]; [lia |].
    replace (a + Z.of_nat 0) with a in * by lia.
    unfold decisive, attempt_outcome in *. simpl.
    destruct (fetch url (with_signal options (baseTimeout * a)) a) as [r | e];
      [reflexivity |].
    destruct Hdec as [Hdec | Hdec].
    + rewrite Hdec. reflexivity.
    + apply Z.eqb_eq in Hdec. rewrite Hdec, orb_true_r. reflexivity.
  - destruct remaining as [| remaining]; [lia |].
    destruct (Hfail a ltac:(lia)) as [e [He Hretry]].
    unfold attempt_outcome in He. simpl. rewrite He, Hretry.
    assert ((a =? maxRetries) = false) as Hne.
    { apply Z.eqb_neq. apply Hnot. lia. }
    rewrite Hne. simpl.
    rewrite (IH (a + 1) remaining (Some e)).
    + replace (a + 1 + Z.of_nat n) with (a + Z.of_nat (S n)) by lia. reflexivity.
    + lia.
    + intros j Hj. apply Hfail. lia.
    + intros j Hj. apply Hnot. lia.
    + replace (a + 1 + Z.of_nat n) with (a + Z.of_nat (S n)) by lia. exact Hdec.
Qed.

Lemma sleeps_app (t1 t2 : Trace) : sleeps (t1 ++ t2) = sleeps t1 ++ sleeps t2.
Proof.
  induction t1 as [| ev t1 IH]; simpl; [reflexivity |].
  destruct ev; simpl; rewrite IH; reflexivity.
Qed.

Lemma timeouts_app (t1 t2 : Trace) : timeouts (t1 ++ t2) = timeouts t1 ++ timeouts t2.
Proof.
  induction t1 as [| ev t1 IH]; simpl; [reflexivity |].
  destruct ev as [u [t |] | ms | n s]; simpl; rewrite IH; reflexivity.
Qed.

Lemma requests_app (t1 t2 : Trace) : requests (t1 ++ t2) = (requests t1 + requests t2)%nat.
Proof.
  induction t1 as [| ev t1 IH]; simpl; [reflexivity |].
  destruct ev; simpl; rewrite IH; reflexivity.
Qed.

Lemma retry_trace_sleeps (from : Z) (n : nat) :
  sleeps (retry_trace url baseTimeout from n) = map (fun j => 1000 * j) (range from n).
Proof.
  revert from. induction n as [| n IH]; intros from; simpl; [reflexivity |].
  f_equal. apply IH.
Qed.

Lemma retry_trace_timeouts (from : Z) (n : nat) :
  timeouts (retry_trace url baseTimeout from n) = map (fun j => baseTimeout * j) (range from n).
Proof.
  revert from. induction n as [| n IH]; intros from; simpl; [reflexivity |].
  f_equal. apply IH.
Qed.

Lemma retry_trace_requests (from : Z) (n : nat) :
  requests (retry_trace url baseTimeout from n) = n.
Proof.
  revert from. induction n as [| n IH]; intros from; simpl; [reflexivity |].
  f_equal. apply IH.
Qed.

Lemma range_snoc (a : Z) (n : nat) :
  range a (S n) = range a n ++ [a + Z.of_nat n].
Proof.
  revert a. induction n as [| n IH]; intros a.
  - simpl. f_equal. lia.
  - change (range a (S (S n))) with (a :: range (a + 1) (S n)).
    rewrite IH. simpl.
    replace (a + 1 + Z.of_nat n) with (a + Z.of_nat (S n)) by lia. reflexivity.
Qed.

End RetryPolicy.

(** ** Registry client *)

Section RegistryFacts.
Variable net : Registry.Network.
Variable options : FetchServersOptions.t.

Lemma pages_latest (fuel : nat) :
  forall acc cursor pageCount result tr,
  Forall (fun e => Registry.entry_isLatest e = true) acc ->
  Registry.pages net options fuel acc cursor pageCount = Some (Returned result, tr) ->
  Forall (fun e => Registry.entry_isLatest e = true) result.
Proof.
  induction fuel as [| fuel IH]; intros acc cursor pageCount result tr Hacc Hrun.
  - discriminate.
  - simpl in Hrun.
    destruct (Registry.fetchServers net (pageCount + 1) (Registry.with_cursor options cursor))
      as [response | e]; [| discriminate].
    assert (Forall (fun e => Registry.entry_isLatest e = true)
              (acc ++ filter Registry.entry_isLatest (MCPRegistryResponse.servers response)))
      as Hacc'.
    { apply Forall_app. split; [assumption |].
      apply Forall_forall. intros e He. now apply filter_In in He. }
    destruct (Js.truthy_opt_string (MCPRegistryResponse.nextCursor response)).
    + destruct (Registry.pages net options fuel _ _ _) as [[res tr'] |] eqn:E;
        [| discriminate].
      injection Hrun as Hres _. subst res. eapply IH; eassumption.
    + injection Hrun as Hres _. now subst result.
Qed.

End RegistryFacts.

(** ** Coordinator *)

Section CoordinatorFacts.
Variable Date_getTime : DateParser.

Lemma assign_lastEnrichedAt (e : Enrichment.t) (r : Enrichers.SourceResult) :
  Enrichment.lastEnrichedAt (Enrichers.assign e r) = Enrichment.lastEnrichedAt e.
Proof. destruct e, r; reflexivity. Qed.

Lemma run_enrichers_lastEnrichedAt fns :
  forall server delayMs e,
  Enrichment.lastEnrichedAt (fst (Enrichers.run_enrichers fns server delayMs e))
  = Enrichment.lastEnrichedAt e.
Proof.
  induction fns as [| [name fn] fns IH]; intros server delayMs e; simpl; [reflexivity |].
  match goal with
  | |- context [Enrichers.run_enrichers fns server delayMs ?x] =>
      specialize (IH server delayMs x);
      destruct (Enrichers.run_enrichers fns server delayMs x) as [e' tr]
  end.
  simpl in *. rewrite IH.
  destruct (fn server) as [[r |] | err]; [apply assign_lastEnrichedAt | reflexivity | reflexivity].
Qed.

Lemma append_nonempty (a b : string) : b <> "" -> String.append a b <> "".
Proof.
  intros Hb. destruct a as [| c a]; simpl; [assumption | discriminate].
Qed.

Lemma toISOString_nonempty (ms : Z) : toISOString ms <> "".
Proof.
  unfold toISOString. destruct (civil_from_days (ms / 86400000)) as [[y m] d].
  apply append_nonempty. discriminate.
Qed.

Lemma merge_as_options (opts : Options.t) :
  Enrichers.merge_options (Enrichers.as_options opts) = opts.
Proof. destruct opts; reflexivity. Qed.

Lemma enrichServer_fresh (env : Enrichers.Env) (server : MCPServer.t)
    (options : EnrichmentOptions.t) :
  selected Date_getTime env server options = false ->
  Enrichers.enrichServer Date_getTime env server options = (server, []).
Proof.
  unfold selected. intros H. apply negb_false_iff in H.
  unfold Enrichers.enrichServer. now rewrite H.
Qed.

Lemma enricher_calls_app (t1 t2 : Trace) :
  enricher_calls (t1 ++ t2) = (enricher_calls t1 + enricher_calls t2)%nat.
Proof.
  induction t1 as [| ev t1 IH]; simpl; [reflexivity |].
  destruct ev; simpl; rewrite IH; reflexivity.
Qed.

Section Many.
Variable env : nat -> Enrichers.Env.
Variable opts : Options.t.

Lemma enrich_batch_app (l1 l2 : list MCPServer.t) :
  forall index,
  Enrichers.enrich_batch Date_getTime env opts index (l1 ++ l2)
  = (fst (Enrichers.enrich_batch Date_getTime env opts index l1)
       ++ fst (Enrichers.enrich_batch Date_getTime env opts (index + List.length l1) l2),
     snd (Enrichers.enrich_batch Date_getTime env opts index l1)
       ++ snd (Enrichers.enrich_batch Date_getTime env opts (index + List.length l1) l2)).
Proof.
  induction l1 as [| s l1 IH]; intros index; simpl.
  - rewrite Nat.add_0_r. now destruct (Enrichers.enrich_batch _ _ _ index l2).
  - destruct (Enrichers.enrichServer Date_getTime (env index) s _) as [s' tr1].
    rewrite IH.
    destruct (Enrichers.enrich_batch Date_getTime env opts (S index) l1) as [o1 t1].
    simpl. replace (index + S (List.length l1))%nat with (S index + List.length l1)%nat by lia.
    now rewrite app_assoc.
Qed.

Lemma batches_spec (fuel : nat) :
  forall index queue results,
  1 <= Options.concurrency opts ->
  (List.length queue <= fuel)%nat ->
  exists tr,
    Enrichers.batches Date_getTime env opts fuel index queue results
    = Some (results ++ fst (Enrichers.enrich_batch Date_getTime env opts index queue), tr)
    /\ enricher_calls tr
       = enricher_calls (snd (Enrichers.enrich_batch Date_getTime env opts index queue)).
Proof.
  induction fuel as [| fuel IH]; intros index queue results Hc Hlen.
  - destruct queue; [| simpl in Hlen; lia].
    exists []. simpl. now rewrite app_nil_r.
  - destruct queue as [| s queue'] eqn:Eq.
    + exists []. simpl. now rewrite app_nil_r.
    + rewrite <- Eq in *. 
      assert (Enrichers.batches Date_getTime env opts (S fuel) index queue results
              = let size := Z.to_nat (Options.concurrency opts) in
                let batch := firstn size queue in
                let queue' := skipn size queue in
                let '(batchResults, tr1) := Enrichers.enrich_batch Date_getTime env opts index batch in
                let results := results ++ batchResults in
                let tr2 := match queue' with
                           | [] => []
                           | _ :: _ => [EvSleep (Options.delayMs opts * 2)]
                           end in
                match Enrichers.batches Date_getTime env opts fuel (index + List.length batch) queue' results with
                | Some (final, tr3) => Some (final, tr1 ++ tr2 ++ tr3)
                | None => None
                end) as Hstep.
      { rewrite Eq. reflexivity. }
      rewrite Hstep. cbv zeta. clear Hstep.
      set (size := Z.to_nat (Options.concurrency opts)).
      assert (1 <= size)%nat as Hsize by (unfold size; lia).
      assert (List.length (skipn size queue) <= fuel)%nat as Hlen'.
      { rewrite length_skipn.
        assert (List.length queue = S (List.length queue')) as Hq
          by (rewrite Eq; reflexivity).
        lia. }
      pose proof (firstn_skipn size queue) as Hsplit.
      pose proof (enrich_batch_app (firstn size queue) (skipn size queue) index) as Happ.
      rewrite Hsplit in Happ.
      destruct (Enrichers.enrich_batch Date_getTime env opts index (firstn size queue))
        as [batchResults tr1] eqn:E1.
      destruct (IH (index + List.length (firstn size queue))%nat (skipn size queue)
                  (results ++ batchResults) Hc Hlen') as [tr3 [Hrun Hcalls]].
      rewrite Hrun. eexists. split.
      * rewrite Happ. simpl. rewrite <- app_assoc. reflexivity.
      * rewrite Happ. simpl. rewrite !enricher_calls_app, Hcalls.
        destruct (skipn size queue); simpl; lia.
Qed.

End Many.

End CoordinatorFacts.

(** ** Ordered maps *)

Section MapFacts.
Variable V : Type.
Implicit Types (m : Js.Map V) (k : string) (v : V).

Lemma map_get_set_eq m k v : Js.map_get (Js.map_set m k v) k = Some v.
Proof.
  induction m as [| [k' v'] m IH]; simpl.
  - now rewrite String.eqb_refl.
  - destruct (String.eqb k' k) eqn:E; simpl; rewrite E; [reflexivity | exact IH].
Qed.

Lemma map_get_set_ne m k k' v :
  k <> k' -> Js.map_get (Js.map_set m k v) k' = Js.map_get m k'.
Proof.
  intros Hne. induction m as [| [k0 v0] m IH]; simpl.
  - destruct (String.eqb_spec k k'); [contradiction | reflexivity].
  - destruct (String.eqb_spec k0 k) as [-> | Hk]; simpl.
    + destruct (String.eqb_spec k k'); [contradiction | reflexivity].
    + now rewrite IH.
Qed.

Lemma map_get_None m k : Js.map_get m k = None <-> ~ In k (Js.map_keys m).
Proof.
  induction m as [| [k' v'] m IH]; simpl.
  - tauto.
  - destruct (String.eqb_spec k' k) as [-> | Hk].
    + split; [discriminate | intros H; exfalso; apply H; now left].
    + rewrite IH. tauto.
Qed.

Lemma map_get_In m k v : Js.map_get m k = Some v -> In (k, v) m.
Proof.
  induction m as [| [k' v'] m IH]; simpl; [discriminate |].
  destruct (String.eqb_spec k' k) as [-> | Hk].
  - intros [= ->]. now left.
  - intros H. right. now apply IH.
Qed.

Lemma map_In_get m k v :
  NoDup (Js.map_keys m) -> In (k, v) m -> Js.map_get m k = Some v.
Proof.
  induction m as [| [k' v'] m IH]; simpl; [intros _ [] |].
  intros Hnd [Heq | Hin].
  - injection Heq as -> ->. now rewrite String.eqb_refl.
  - inversion Hnd as [| ? ? Hnot Hnd']; subst.
    destruct (String.eqb_spec k' k) as [-> | Hk].
    + exfalso. apply Hnot. change k with (fst (k, v)). now apply in_map.
    + now apply IH.
Qed.

Lemma map_keys_set m k v :
  Js.map_keys (Js.map_set m k v)
  = if existsb (String.eqb k) (Js.map_keys m) then Js.map_keys m
    else Js.map_keys m ++ [k].
Proof.
  unfold Js.map_keys.
  induction m as [| [k' v'] m IH]; simpl; [reflexivity |].
  rewrite (String.eqb_sym k k').
  destruct (String.eqb_spec k' k) as [-> | Hk]; simpl; [reflexivity |].
  rewrite IH.
  now destruct (existsb (String.eqb k) (map fst m)).
Qed.

Lemma map_set_NoDup m k v :
  NoDup (Js.map_keys m) -> NoDup (Js.map_keys (Js.map_set m k v)).
Proof.
  intros Hnd. rewrite map_keys_set.
  destruct (existsb (String.eqb k) (Js.map_keys m)) eqn:E; [assumption |].
  apply NoDup_app; [assumption | repeat constructor; intros [] |].
  intros x Hx [Hk | []]. subst x.
  assert (existsb (String.eqb k) (Js.map_keys m) = true) as Hex.
  { apply existsb_exists. exists k. split; [assumption | apply String.eqb_refl]. }
  congruence.
Qed.

Lemma map_delete_incl m k x : In x (Js.map_delete m k) -> In x m.
Proof.
  induction m as [| [k' v'] m IH]; simpl; [tauto |].
  destruct (String.eqb k' k); simpl; [tauto |].
  intros [H | H]; [now left | right; now apply IH].
Qed.

Lemma map_delete_NoDup m k :
  NoDup (Js.map_keys m) -> NoDup (Js.map_keys (Js.map_delete m k)).
Proof.
  induction m as [| [k' v'] m IH]; simpl; [trivial |].
  intros Hnd. inversion Hnd as [| ? ? Hnot Hnd']; subst.
  destruct (String.eqb k' k); simpl; [assumption |].
  constructor; [| now apply IH].
  intros Hin. apply Hnot. unfold Js.map_keys in *.
  apply in_map_iff in Hin. destruct Hin as [[k0 v0] [Hk0 Hin]]. simpl in Hk0. subst.
  apply map_delete_incl in Hin. change k' with (fst (k', v0)). now apply in_map.
Qed.

Lemma map_get_delete_eq m k :
  NoDup (Js.map_keys m) -> Js.map_get (Js.map_delete m k) k = None.
Proof.
  induction m as [| [k' v'] m IH]; simpl; [reflexivity |].
  intros Hnd. inversion Hnd as [| ? ? Hnot Hnd']; subst.
  destruct (String.eqb_spec k' k) as [-> | Hk]; simpl.
  - now apply map_get_None.
  - destruct (String.eqb_spec k' k); [contradiction | now apply IH].
Qed.

Lemma map_get_delete_ne m k k' :
  k <> k' -> Js.map_get (Js.map_delete m k) k' = Js.map_get m k'.
Proof.
  intros Hne. induction m as [| [k0 v0] m IH]; simpl; [reflexivity |].
  destruct (String.eqb_spec k0 k) as [-> | Hk]; simpl.
  - destruct (String.eqb_spec k k'); [contradiction | reflexivity].
  - now rewrite IH.
Qed.

End MapFacts.

(** ** Orchestrator *)

Section SyncFacts.
Variable Date_getTime : DateParser.
Variable localeCompare : string -> string -> Z.

Lemma merged_record_name ex e : MCPServer.name (merged_record ex e) = entry_name e.
Proof.
  unfold merged_record. destruct (Js.map_get ex (entry_name e)) as [x |]; [| reflexivity].
  now destruct (Js.truthy_string _).
Qed.

Lemma merged_record_status ex e : MCPServer.status (merged_record ex e) = entry_status e.
Proof.
  unfold merged_record. destruct (Js.map_get ex (entry_name e)) as [x |]; [| reflexivity].
  now destruct (Js.truthy_string _).
Qed.

Lemma merge_entry_eq ex m e :
  Sync.merge_entry ex m e
  = if ServerStatus_eqb (entry_status e) deleted
    then Js.map_delete m (entry_name e)
    else Js.map_set m (entry_name e) (merged_record ex e).
Proof.
  unfold Sync.merge_entry.
  change (MCPServer.name (Sync.convertRegistryEntry e)) with (entry_name e).
  fold (merged_record ex e).
  now rewrite merged_record_name, merged_record_status.
Qed.

Lemma Forall_map_set (P : string * MCPServer.t -> Prop) m k v :
  Forall P m -> P (k, v) -> Forall P (Js.map_set m k v).
Proof.
  intros Hm Hkv. induction m as [| [k' v'] m IH]; simpl.
  - now constructor.
  - inversion Hm; subst.
    destruct (String.eqb_spec k' k) as [-> | Hne]; constructor; auto.
Qed.

Lemma Forall_map_delete (P : string * MCPServer.t -> Prop) m k :
  Forall P m -> Forall P (Js.map_delete m k).
Proof.
  intros Hm. apply Forall_forall. intros x Hx.
  apply map_delete_incl in Hx. revert x Hx. now apply Forall_forall.
Qed.

Lemma keyed_set m (s : MCPServer.t) :
  keyed_by_name m -> keyed_by_name (Js.map_set m (MCPServer.name s) s).
Proof.
  intros [Hnd Hk]. split; [now apply map_set_NoDup | now apply Forall_map_set].
Qed.

Lemma keyed_delete m k : keyed_by_name m -> keyed_by_name (Js.map_delete m k).
Proof.
  intros [Hnd Hk]. split; [now apply map_delete_NoDup | now apply Forall_map_delete].
Qed.

Lemma keyed_merge_entry ex m e :
  keyed_by_name m -> keyed_by_name (Sync.merge_entry ex m e).
Proof.
  intros Hm. rewrite merge_entry_eq.
  destruct (ServerStatus_eqb (entry_status e) deleted); [now apply keyed_delete |].
  rewrite <- (merged_record_name ex e). now apply keyed_set.
Qed.

Lemma keyed_fold_merge ex entries :
  forall m, keyed_by_name m -> keyed_by_name (fold_left (Sync.merge_entry ex) entries m).
Proof.
  induction entries as [| e entries IH]; intros m Hm; simpl; [assumption |].
  apply IH. now apply keyed_merge_entry.
Qed.

Lemma keyed_loadServers file : keyed_by_name (Sync.loadServers file).
Proof.
  destruct file as [servers |]; simpl.
  - unfold Js.map_of_pairs.
    assert (forall m, keyed_by_name m ->
              keyed_by_name
                (fold_left (fun m0 kv => Js.map_set m0 (fst kv) (snd kv))
                   (map (fun s => (MCPServer.name s, s)) servers) m)) as H.
    { induction servers as [| s servers IH]; intros m Hm; simpl; [assumption |].
      apply IH. now apply keyed_set. }
    apply H. split; constructor.
  - split; constructor.
Qed.

Lemma keyed_value_get m (s : MCPServer.t) :
  keyed_by_name m -> In s (Js.map_values m) ->
  Js.map_get m (MCPServer.name s) = Some s.
Proof.
  intros [Hnd Hk] Hin. unfold Js.map_values in Hin.
  apply in_map_iff in Hin. destruct Hin as [[k v] [Hv Hin]]. simpl in Hv. subst v.
  apply map_In_get; [assumption |].
  rewrite Forall_forall in Hk. specialize (Hk _ Hin). simpl in Hk. now subst k.
Qed.

Lemma get_value_In (m : Js.Map MCPServer.t) k s :
  Js.map_get m k = Some s -> In s (Js.map_values m).
Proof.
  intros H. apply map_get_In in H. unfold Js.map_values.
  change s with (snd (k, s)). now apply in_map.
Qed.

Lemma fold_merge_get ex entries n :
  forall m, keyed_by_name m ->
  Js.map_get (fold_left (Sync.merge_entry ex) entries m) n
  = match last_entry_named n entries with
    | None => Js.map_get m n
    | Some e =>
        if ServerStatus_eqb (entry_status e) deleted then None
        else Some (merged_record ex e)
    end.
Proof.
  induction entries as [| e entries IH]; intros m Hm; simpl; [reflexivity |].
  rewrite IH by now apply keyed_merge_entry.
  destruct (last_entry_named n entries) as [later |]; [reflexivity |].
  rewrite merge_entry_eq.
  destruct (String.eqb_spec (entry_name e) n) as [<- | Hne].
  - destruct (ServerStatus_eqb (entry_status e) deleted).
    + apply map_get_delete_eq. apply Hm.
    + apply map_get_set_eq.
  - destruct (ServerStatus_eqb (entry_status e) deleted).
    + now apply map_get_delete_ne.
    + now apply map_get_set_ne.
Qed.

Lemma keyed_store_all enriched :
  forall m, keyed_by_name m -> keyed_by_name (Sync.store_all m enriched).
Proof.
  unfold Sync.store_all.
  induction enriched as [| s enriched IH]; intros m Hm; simpl; [assumption |].
  apply IH. now apply keyed_set.
Qed.

Lemma store_all_get_other enriched n :
  forall m,
  (forall s, In s enriched -> MCPServer.name s <> n) ->
  Js.map_get (Sync.store_all m enriched) n = Js.map_get m n.
Proof.
  unfold Sync.store_all.
  induction enriched as [| s enriched IH]; intros m Hs; simpl; [reflexivity |].
  rewrite IH by (intros s' Hs'; apply Hs; now right).
  apply map_get_set_ne. apply Hs. now left.
Qed.

Lemma store_all_get_same enriched n r :
  forall m,
  (forall s, In s enriched -> MCPServer.name s = n -> s = r) ->
  Js.map_get m n = Some r ->
  Js.map_get (Sync.store_all m enriched) n = Some r.
Proof.
  unfold Sync.store_all.
  induction enriched as [| s enriched IH]; intros m Hs Hm; simpl; [assumption |].
  apply IH; [intros s' Hs'; apply Hs; now right |].
  destruct (String.eqb_spec (MCPServer.name s) n) as [Hn | Hn].
  - rewrite (Hs s (or_introl eq_refl) Hn), <- Hn.
    rewrite (Hs s (or_introl eq_refl) Hn) at 1. apply map_get_set_eq.
  - now rewrite map_get_set_ne.
Qed.

Lemma enrichServer_name env s options :
  MCPServer.name (fst (Enrichers.enrichServer Date_getTime env s options))
  = MCPServer.name s.
Proof.
  unfold Enrichers.enrichServer.
  destruct (_ && _); [reflexivity |].
  now destruct (Enrichers.run_enrichers _ _ _ _).
Qed.

Lemma enrich_batch_In env opts l :
  forall index s',
  In s' (fst (Enrichers.enrich_batch Date_getTime env opts index l)) ->
  exists i s, In s l
    /\ s' = fst (Enrichers.enrichServer Date_getTime (env i) s (Enrichers.as_options opts)).
Proof.
  induction l as [| s l IH]; intros index s'; simpl; [intros [] |].
  destruct (Enrichers.enrichServer Date_getTime (env index) s _) as [x tr1] eqn:E1.
  destruct (Enrichers.enrich_batch Date_getTime env opts (S index) l) as [o tr2] eqn:E2.
  simpl. intros [<- | Hin].
  - exists index, s. split; [now left | now rewrite E1].
  - specialize (IH (S index) s'). rewrite E2 in IH.
    destruct (IH Hin) as [i [s0 [Hs0 Heq]]]. exists i, s0. split; [now right | assumption].
Qed.

Lemma enrichServers_some env servers options :
  1 <= Options.concurrency (Enrichers.merge_options options) ->
  exists tr,
    Enrichers.enrichServers Date_getTime env servers options
    = Some (fst (Enrichers.enrich_batch Date_getTime env
                   (Enrichers.merge_options options) 0 servers), tr)
    /\ enricher_calls tr
       = enricher_calls (snd (Enrichers.enrich_batch Date_getTime env
                                (Enrichers.merge_options options) 0 servers)).
Proof.
  intros Hc. unfold Enrichers.enrichServers.
  destruct (batches_spec Date_getTime env (Enrichers.merge_options options)
              (fuel := List.length servers) 0 servers [] Hc (le_n _))
    as [tr [Hrun Hcalls]].
  exists tr. split; assumption.
Qed.

End SyncFacts.

Section SyncRun.
Variable Date_getTime : DateParser.
Variable localeCompare : string -> string -> Z.

Lemma sort_insert_perm s sorted :
  Permutation (Sync.sort_insert localeCompare s sorted) (s :: sorted).
Proof.
  induction sorted as [| t sorted IH]; simpl; [reflexivity |].
  destruct (_ <=? 0); [reflexivity |].
  rewrite IH. apply perm_swap.
Qed.

Lemma saveServers_perm servers :
  Permutation (Sync.saveServers localeCompare servers) servers.
Proof.
  unfold Sync.saveServers, Sync.sort_by_name.
  induction servers as [| s servers IH]; simpl; [reflexivity |].
  rewrite sort_insert_perm. now constructor.
Qed.

Lemma saveServers_In servers s :
  In s (Sync.saveServers localeCompare servers) <-> In s servers.
Proof.
  split; apply Permutation_in;
    [apply saveServers_perm | apply Permutation_sym, saveServers_perm].
Qed.

(** What the variables of a completed run are, in terms of the steps. *)
Lemma sync_completed w fuel run :
  Sync.sync Date_getTime localeCompare w fuel = Some (Sync.Completed run) ->
  let existing := Sync.loadServers (Sync.servers_file w) in
  let merged := Sync.merge_entries existing (Sync.entries run) in
  Sync.doFullSync run
    = Sync.shouldDoFullSync Date_getTime (Sync.FULL_SYNC w) (Sync.started w)
        (Sync.sync_state_file w)
  /\ (exists tr,
        Sync.enrich_step Date_getTime (Sync.enrich_env w) (Sync.doFullSync run)
          (Sync.entries run) merged
        = Some (Sync.updatedServers run, tr))
  /\ Sync.serversArray run
     = map Enrichers.computeServerFields (Js.map_values (Sync.updatedServers run))
  /\ Sync.saved run = Sync.saveServers localeCompare (Sync.serversArray run).
Proof.
  unfold Sync.sync.
  set (full := Sync.shouldDoFullSync _ _ _ _).
  match goal with
  | |- match ?listing with _ => _ end = _ -> _ => destruct listing as [[[es | err] tr0] |]
  end; try discriminate.
  unfold Sync.sync_entries.
  destruct (Sync.enrich_step _ _ _ _ _) as [[m2 tr1] |] eqn:E; [| discriminate].
  intros [= <-]. simpl. repeat split; try reflexivity.
  exists tr1. exact E.
Qed.

Lemma enrich_step_keyed env full entries m m' tr :
  keyed_by_name m ->
  Sync.enrich_step Date_getTime env full entries m = Some (m', tr) ->
  keyed_by_name m'.
Proof.
  unfold Sync.enrich_step. intros Hm.
  destruct (0 <? List.length entries)%nat.
  - destruct (Enrichers.enrichServers _ _ _ _) as [[enriched tr'] |]; [| discriminate].
    intros [= <- _]. now apply keyed_store_all.
  - now intros [= <- _].
Qed.

(** The servers handed to the coordinator are values of the merged map. *)
Lemma enrich_step_inv env full entries m m' tr :
  Sync.enrich_step Date_getTime env full entries m = Some (m', tr) ->
  m' = m
  \/ exists toEnrich,
       incl toEnrich (Js.map_values m)
       /\ m' = Sync.store_all m
                 (fst (Enrichers.enrich_batch Date_getTime env
                         (Enrichers.merge_options (Sync.enrich_options full)) 0 toEnrich)).
Proof.
  unfold Sync.enrich_step.
  destruct (0 <? List.length entries)%nat; [| intros [= <- _]; now left].
  set (toEnrich := if full then _ else _).
  destruct (enrichServers_some Date_getTime env toEnrich (Sync.enrich_options full))
    as [tr' [Hrun _]]; [destruct full; simpl; lia |].
  rewrite Hrun. intros [= <- _]. right. exists toEnrich. split; [| reflexivity].
  unfold toEnrich. destruct full; [apply incl_refl |].
  intros s Hs. now apply filter_In in Hs.
Qed.

Lemma enrich_step_get_None env full entries m m' tr n :
  keyed_by_name m ->
  Sync.enrich_step Date_getTime env full entries m = Some (m', tr) ->
  Js.map_get m n = None -> Js.map_get m' n = None.
Proof.
  intros Hm Hstep Hn.
  destruct (enrich_step_inv _ _ _ _ Hstep) as [-> | [toEnrich [Hincl ->]]]; [assumption |].
  rewrite store_all_get_other; [assumption |].
  intros s' Hs' Hname.
  destruct (enrich_batch_In _ _ _ _ _ _ Hs') as [i [s [Hs ->]]].
  rewrite enrichServer_name in Hname.
  pose proof (@keyed_value_get m s Hm (Hincl _ Hs)) as Hget.
  rewrite Hname in Hget. congruence.
Qed.

Lemma isEnrichmentFresh_enrichment now a b maxAge :
  MCPServer.enrichment a = MCPServer.enrichment b ->
  Enrichers.isEnrichmentFresh Date_getTime now a maxAge
  = Enrichers.isEnrichmentFresh Date_getTime now b maxAge.
Proof. unfold Enrichers.isEnrichmentFresh. now intros ->. Qed.

Lemma enrich_step_get_fresh env entries m m' tr n r :
  keyed_by_name m ->
  Sync.enrich_step Date_getTime env false entries m = Some (m', tr) ->
  Js.map_get m n = Some r ->
  (forall i, Enrichers.isEnrichmentFresh Date_getTime (Enrichers.now (env i)) r
               (24 * 60 * 60 * 1000) = true) ->
  Js.map_get m' n = Some r.
Proof.
  intros Hm Hstep Hn Hfresh.
  destruct (enrich_step_inv _ _ _ _ Hstep) as [-> | [toEnrich [Hincl ->]]]; [assumption |].
  apply store_all_get_same; [| assumption].
  intros s' Hs' Hname.
  destruct (enrich_batch_In _ _ _ _ _ _ Hs') as [i [s [Hs ->]]].
  rewrite enrichServer_name in Hname.
  pose proof (@keyed_value_get m s Hm (Hincl _ Hs)) as Hget.
  rewrite Hname, Hn in Hget. injection Hget as <-.
  rewrite enrichServer_fresh; [reflexivity |].
  unfold selected. rewrite merge_as_options. simpl.
  now rewrite Hfresh.
Qed.

End SyncRun.

Section Idempotence.
Variable Date_getTime : DateParser.

Section Batch.
Variable env : nat -> Enrichers.Env.
Variable opts : Options.t.
Hypothesis Hskip : Options.skipIfFresh opts = true.

Lemma enrichServer_skips i s :
  fresh_at Date_getTime env (Options.maxAge opts) i s ->
  Enrichers.enrichServer Date_getTime (env i) s (Enrichers.as_options opts) = (s, []).
Proof.
  intros Hf. apply enrichServer_fresh. unfold selected.
  rewrite merge_as_options, Hskip. unfold fresh_at in Hf. now rewrite Hf.
Qed.

Lemma enrich_batch_nth l :
  forall index i s,
  nth_error l i = Some s -> fresh_at Date_getTime env (Options.maxAge opts) (index + i) s ->
  nth_error (fst (Enrichers.enrich_batch Date_getTime env opts index l)) i = Some s.
Proof.
  induction l as [| x l IH]; intros index i s Hnth Hf.
  - destruct i; discriminate.
  - simpl.
    destruct (Enrichers.enrichServer Date_getTime (env index) x _) as [x' tr1] eqn:E1.
    destruct (Enrichers.enrich_batch Date_getTime env opts (S index) l) as [o tr2] eqn:E2.
    destruct i as [| i]; simpl in *.
    + injection Hnth as ->. rewrite Nat.add_0_r in Hf.
      rewrite (enrichServer_skips Hf) in E1. now injection E1 as <- _.
    + specialize (IH (S index) i s Hnth). rewrite E2 in IH. apply IH.
      now replace (S index + i)%nat with (index + S i)%nat by lia.
Qed.

Lemma enrich_batch_all_fresh l :
  forall index,
  (forall i s, nth_error l i = Some s -> fresh_at Date_getTime env (Options.maxAge opts) (index + i) s) ->
  Enrichers.enrich_batch Date_getTime env opts index l = (l, []).
Proof.
  induction l as [| x l IH]; intros index Hall; simpl; [reflexivity |].
  rewrite enrichServer_skips.
  - rewrite IH; [reflexivity |].
    intros i s Hnth. replace (S index + i)%nat with (index + S i)%nat by lia.
    now apply Hall.
  - specialize (Hall O x eq_refl). now rewrite Nat.add_0_r in Hall.
Qed.

End Batch.

End Idempotence.

(* ===================================================================== *)
(** * Properties of the specification *)
(* ===================================================================== *)

(** ** Resilient fetch *)

(** *** The classification of errors *)

Lemma prefix_append (sub s : string) :
  String.prefix sub s = true <-> exists rest, s = String.append sub rest.
Proof.
  revert s. induction sub as [| c sub IH]; intros s.
  - split; [intros _; now exists s | intros _; now destruct s].
  - destruct s as [| c' s]; simpl;
      [split; [discriminate | intros [rest H]; discriminate] |].
    destruct (Ascii.ascii_dec c c') as [<- | Hne].
    + rewrite IH. split; intros [rest H]; exists rest; [now rewrite H | now injection H].
    + split; [discriminate | intros [rest H]; injection H as H1 _; now elim Hne].
Qed.

Lemma includes_occurs_in (sub s : string) :
  Js.includes sub s = true <-> occurs_in sub s.
Proof.
  split.
  - induction s as [| c s IH]; cbn [Js.includes]; intros H; apply orb_true_iff in H.
    + destruct H as [H | H]; [| discriminate].
      apply prefix_append in H. destruct H as [rest H]. now exists EmptyString, rest.
    + destruct H as [H | H].
      * apply prefix_append in H. destruct H as [rest H]. now exists EmptyString, rest.
      * destruct (IH H) as (before & after & E). exists (String c before), after.
        simpl. now rewrite E.
  - intros (before & after & E). revert s E.
    induction before as [| c before IH]; intros s E; simpl in E.
    + assert (String.prefix sub s = true) as H by (apply prefix_append; now exists after).
      destruct s; cbn [Js.includes]; now rewrite H.
    + subst s. cbn [Js.includes String.append]. rewrite (IH _ eq_refl). apply orb_true_r.
Qed.

Lemma prop_is_Some (o : option string) (lit : string) :
  Fetch.prop_is o lit = true <-> o = Some lit.
Proof.
  destruct o as [s |]; simpl; [| split; discriminate].
  rewrite String.eqb_eq. split; [now intros -> | now intros [= ->]].
Qed.

Lemma isRetriableError_cases (err : ErrorObject) :
  Fetch.isRetriableError (ThrownObject err) = true
  <-> code err = Some "UND_ERR_CONNECT_TIMEOUT" \/ code err = Some "ETIMEDOUT"
      \/ code err = Some "ECONNREFUSED" \/ code err = Some "ECONNRESET"
      \/ name err = Some "AbortError"
      \/ (exists msg, message err = Some msg /\ occurs_in "fetch failed" msg)
      \/ cause_code err = Some "UND_ERR_CONNECT_TIMEOUT".
Proof.
  unfold Fetch.isRetriableError.
  rewrite <- !prop_is_Some.
  assert ((exists msg, message err = Some msg /\ occurs_in "fetch failed" msg)
          <-> match message err with
              | Some msg => Js.includes "fetch failed" msg
              | None => false
              end = true) as ->.
  { destruct (message err) as [msg |].
    - rewrite includes_occurs_in. split; [intros (m & [= <-] & H); exact H |].
      intros H. now exists msg.
    - split; [intros (m & H & _); discriminate | discriminate]. }
  destruct (Fetch.prop_is (code err) "UND_ERR_CONNECT_TIMEOUT");
    destruct (Fetch.prop_is (code err) "ETIMEDOUT");
    destruct (Fetch.prop_is (code err) "ECONNREFUSED");
    destruct (Fetch.prop_is (code err) "ECONNRESET");
    destruct (Fetch.prop_is (name err) "AbortError");
    destruct (match message err with
              | Some msg => Js.includes "fetch failed" msg
              | None => false
              end);
    destruct (Fetch.prop_is (cause_code err) "UND_ERR_CONNECT_TIMEOUT");
    simpl; intuition discriminate.
Qed.

(** [isRetriableError] is true of the retriable conditions of the
    specification, and of nothing else. *)
Lemma isRetriableError_retriable (e : Thrown) :
  Fetch.isRetriableError e = true <-> retriable e.
Proof.
  destruct e as [err |].
  - rewrite isRetriableError_cases. unfold retriable. split.
    + intros H. exists err.
      destruct H as [H | [H | [H | [H | [H | [H | H]]]]]].
      * exists Timeout. split; [reflexivity |]. simpl. tauto.
      * exists Timeout. split; [reflexivity |]. simpl. tauto.
      * now exists ConnRefused.
      * now exists ConnReset.
      * now exists Aborted.
      * now exists GenericFetchFailure.
      * exists Timeout. split; [reflexivity |]. simpl. tauto.
    + intros (err' & kind & [= <-] & H). destruct kind; simpl in H; tauto.
  - split; [discriminate |]. intros (err & kind & H & _). discriminate.
Qed.

Lemma not_retriable (e : Thrown) :
  Fetch.isRetriableError e = false -> ~ retriable e.
Proof.
  intros H Hr. apply isRetriableError_retriable in Hr. congruence.
Qed.

(** *** The retry policy *)

Section RetryProperties.
Variable B : Type.
Variable fetch : Fetch.Network B.
Variable url : string.
Variable options : RequestInit.
Variable maxRetries : Z.
Variable baseTimeout : Z.

(** C1. Whatever the attempts of a call of [fetchWithRetry] do: when the
    attempts before the [k]-th all throw a retriable error (a connection
    timeout, a connection refused or reset, the abort of a request that ran
    into its timeout, a failure of [fetch]) and the [k]-th ends the call (it
    receives a response of any status, or throws an error that is none of
    these, or is the last of the [maxRetries] attempts), the call ends as
    that attempt does: the response is returned as it is, and the error is
    thrown as it is.  The call has made [k] requests and no more, with the
    timeouts [baseTimeout * 1 .. baseTimeout * k], and has slept [1000 * j]
    after each attempt [j] before the [k]-th. *)
Theorem fetchWithRetry_policy (k : Z) :
  1 <= k <= maxRetries ->
  (forall j, 1 <= j < k -> throws_retriable fetch url options baseTimeout j) ->
  ends_the_call fetch url options maxRetries baseTimeout k ->
  let '(result, tr) := Fetch.fetchWithRetry fetch url options maxRetries baseTimeout in
  result = attempt_outcome fetch url options baseTimeout k
  /\ requests tr = Z.to_nat k
  /\ sleeps tr = map (fun j => 1000 * j) (range 1 (Z.to_nat (k - 1)))
  /\ timeouts tr = map (fun j => baseTimeout * j) (range 1 (Z.to_nat k)).
Proof.
  intros Hk Hfail Hend. unfold Fetch.fetchWithRetry.
  assert (forall j, 1 <= j < k -> fails_retriably fetch url options baseTimeout j)
    as Hfail'.
  { intros j Hj. destruct (Hfail j Hj) as (e & He & Hr).
    exists e. split; [exact He | now apply isRetriableError_retriable]. }
  assert (decisive fetch url options maxRetries baseTimeout k) as Hdec.
  { unfold decisive, ends_the_call in *.
    destruct (attempt_outcome fetch url options baseTimeout k) as [r | e]; [exact I |].
    destruct Hend as [Hno | Hlast]; [left | now right].
    destruct (Fetch.isRetriableError e) eqn:E; [| reflexivity].
    apply isRetriableError_retriable in E. contradiction. }
  assert (k = 1 + Z.of_nat (Z.to_nat (k - 1))) as Ek by lia.
  rewrite (@attempts_decided B fetch url options maxRetries baseTimeout
             (Z.to_nat (k - 1)) 1 (Z.to_nat maxRetries) None).
  - rewrite <- Ek. split; [reflexivity |].
    rewrite requests_app, sleeps_app, timeouts_app.
    rewrite retry_trace_requests, retry_trace_sleeps, retry_trace_timeouts.
    cbn [requests sleeps timeouts].
    split; [lia |]. split; [apply app_nil_r |].
    replace (Z.to_nat k) with (S (Z.to_nat (k - 1))) by lia.
    rewrite range_snoc, map_app. cbn [map]. now rewrite <- Ek.
  - lia.
  - intros j Hj. apply Hfail'. lia.
  - intros j Hj. lia.
  - now rewrite <- Ek.
Qed.

End RetryProperties.

(** Five calls with three attempts allowed.  Attempts 1 and 2 time out and
    attempt 3 succeeds: its response is returned after sleeps of 1000 ms
    then 2000 ms.  A plain 404 is returned at once.  An error that is no
    network error is thrown at once, without a retry.  A connection that is
    reset three times gives the third error, after two sleeps.  An abort,
    then a failure of [fetch], then a 500: the 500 is returned. *)
Lemma fetchWithRetry_policy_witness :
  let url := "https://registry.npmjs.org/acme-tool" in
  let lucky := Fetch.fetchWithRetry Scenario.third_time_lucky url Npm.request_init 3 10000 in
  let missing := Fetch.fetchWithRetry Scenario.not_found url Npm.request_init 3 10000 in
  let invalid := Fetch.fetchWithRetry Cases.bad_url url Npm.request_init 3 10000 in
  let reset := Fetch.fetchWithRetry Cases.unreachable url Npm.request_init 3 10000 in
  let flaky := Fetch.fetchWithRetry Cases.flaky url Npm.request_init 3 10000 in
  (fst lucky = Returned (Scenario.answer 200 "ok")
   /\ sleeps (snd lucky) = [1000; 2000]
   /\ timeouts (snd lucky) = [10000; 20000; 30000])
  /\ (fst missing = Returned (Scenario.answer 404 "Not Found")
      /\ requests (snd missing) = 1%nat
      /\ sleeps (snd missing) = [])
  /\ (fst invalid = Threw Cases.invalid_url_error
      /\ requests (snd invalid) = 1%nat
      /\ sleeps (snd invalid) = [])
  /\ (fst reset = Threw Scenario.reset_error
      /\ requests (snd reset) = 3%nat
      /\ sleeps (snd reset) = [1000; 2000])
  /\ (fst flaky = Returned (Scenario.answer 500 "Internal Server Error")
      /\ requests (snd flaky) = 3%nat
      /\ sleeps (snd flaky) = [1000; 2000]).
Proof.
  cbv zeta. split; [| split; [| split; [| split]]].
  - pose proof (@fetchWithRetry_policy string Scenario.third_time_lucky
                  "https://registry.npmjs.org/acme-tool" Npm.request_init 3 10000 3) as H.
    destruct (Fetch.fetchWithRetry Scenario.third_time_lucky _ _ 3 10000) as [result tr].
    destruct H as (Hres & _ & Hs & Ht).
    + lia.
    + intros j Hj. exists Scenario.timeout_error.
      assert (j = 1 \/ j = 2) as [-> | ->] by lia;
        (split; [reflexivity |]); eexists; exists Timeout;
        (split; [reflexivity | left; reflexivity]).
    + exact I.
    + simpl. rewrite Hres, Hs, Ht. repeat split; reflexivity.
  - pose proof (@fetchWithRetry_policy string Scenario.not_found
                  "https://registry.npmjs.org/acme-tool" Npm.request_init 3 10000 1) as H.
    destruct (Fetch.fetchWithRetry Scenario.not_found _ _ 3 10000) as [result tr].
    destruct H as (Hres & Hn & Hs & _).
    + lia.
    + intros j Hj. lia.
    + exact I.
    + simpl. rewrite Hres, Hn, Hs. repeat split; reflexivity.
  - pose proof (@fetchWithRetry_policy string Cases.bad_url
                  "https://registry.npmjs.org/acme-tool" Npm.request_init 3 10000 1) as H.
    destruct (Fetch.fetchWithRetry Cases.bad_url _ _ 3 10000) as [result tr].
    destruct H as (Hres & Hn & Hs & _).
    + lia.
    + intros j Hj. lia.
    + left. apply not_retriable. reflexivity.
    + simpl. rewrite Hres, Hn, Hs. repeat split; reflexivity.
  - pose proof (@fetchWithRetry_policy string Cases.unreachable
                  "https://registry.npmjs.org/acme-tool" Npm.request_init 3 10000 3) as H.
    destruct (Fetch.fetchWithRetry Cases.unreachable _ _ 3 10000) as [result tr].
    destruct H as (Hres & Hn & Hs & _).
    + lia.
    + intros j Hj. exists Scenario.reset_error. split; [reflexivity |].
      eexists. exists ConnReset. split; reflexivity.
    + right. reflexivity.
    + simpl. rewrite Hres, Hn, Hs. repeat split; reflexivity.
  - pose proof (@fetchWithRetry_policy string Cases.flaky
                  "https://registry.npmjs.org/acme-tool" Npm.request_init 3 10000 3) as H.
    destruct (Fetch.fetchWithRetry Cases.flaky _ _ 3 10000) as [result tr].
    destruct H as (Hres & Hn & Hs & _).
    + lia.
    + intros j Hj. assert (j = 1 \/ j = 2) as [-> | ->] by lia.
      * exists Cases.abort_error. split; [reflexivity |].
        eexists. exists Aborted. split; reflexivity.
      * exists Cases.fetch_failed_error. split; [reflexivity |].
        eexists. exists GenericFetchFailure. split; [reflexivity |].
        exists "fetch failed". split; [reflexivity |].
        now exists EmptyString, EmptyString.
    + exact I.
    + simpl. rewrite Hres, Hn, Hs. repeat split; reflexivity.
Defined.

(** ** Source enrichers *)

(** C5. The npm enricher raises to its caller: with a package to look up and
    a registry that drops every connection, the three attempts of
    [fetchWithRetry] fail and [enrichNpm] throws the last error instead of
    resolving with [null]; so it does on a body that does not parse.  A
    response that is not OK does give [null], and the coordinator catches
    what the enricher throws. *)
Theorem enrichNpm_throws_on_network_error :
  fst (Npm.enrichNpm Scenario.encodeURIComponent Scenario.npm_unreachable
         Scenario.npm_downloads Scenario.new_server)
  = Threw Scenario.reset_error
  /\ fst (Npm.enrichNpm Scenario.encodeURIComponent Scenario.npm_garbled
            Scenario.npm_downloads Scenario.new_server)
     = Threw Scenario.syntax_error
  /\ fst (Npm.enrichNpm Scenario.encodeURIComponent Scenario.npm_down
            Scenario.npm_downloads Scenario.new_server)
     = Returned None
  /\ Enrichment.npm
       (MCPServer.enrichment
          (fst (Enrichers.enrichServer Scenario.Date_getTime
                  (Enrichers.mkEnv Scenario.t1 Scenario.npm_behind_unreachable)
                  Scenario.new_server (Sync.enrich_options false))))
     = None.
Proof. repeat (split; [reflexivity |]). reflexivity. Qed.

(** ** Registry client *)

(** C6. Every entry of the list [fetchAllServers] returns, and hence of the
    list [fetchUpdatedServers] returns, is flagged as the latest version of
    its server, whatever pages the registry serves. *)
Theorem fetchAllServers_only_latest :
  forall (net : Registry.Network) (fuel : nat) result tr,
  (forall options,
     Registry.fetchAllServers net options fuel = Some (Returned result, tr) ->
     Forall (fun e => MCPRegistryMeta.isLatest (MCPRegistryEntry._meta e) = true) result)
  /\ (forall since,
     Registry.fetchUpdatedServers net since fuel = Some (Returned result, tr) ->
     Forall (fun e => MCPRegistryMeta.isLatest (MCPRegistryEntry._meta e) = true) result).
Proof.
  intros net fuel result tr. split.
  - intros options H. eapply pages_latest; [constructor | exact H].
  - intros since H. eapply pages_latest; [constructor | exact H].
Qed.

(** Two pages, the first of which carries a superseded version. *)
Lemma fetchAllServers_only_latest_witness :
  exists result tr,
    Registry.fetchAllServers
      (Scenario.serving
         [[Scenario.tool_entry "1.0.0" active false; Scenario.tool_entry "2.0.0" active true];
          [Scenario.tool_entry "0.9.0" active false]])
      (FetchServersOptions.mk None None None) 5
    = Some (Returned result, tr)
    /\ result = [Scenario.tool_entry "2.0.0" active true]
    /\ Forall (fun e => MCPRegistryMeta.isLatest (MCPRegistryEntry._meta e) = true) result.
Proof.
  eexists. eexists. split; [vm_compute; reflexivity |]. split; [reflexivity |].
  refine (proj1 (@fetchAllServers_only_latest
                   (Scenario.serving
                      [[Scenario.tool_entry "1.0.0" active false;
                        Scenario.tool_entry "2.0.0" active true];
                       [Scenario.tool_entry "0.9.0" active false]])
                   5 _ _) (FetchServersOptions.mk None None None) _).
  vm_compute. reflexivity.
Defined.

(** ** Derived fields *)

(** C7. After [computeServerFields], [packageTypes] holds the registry types
    of the packages of the record, each once; [hasRemote] tells whether the
    record has a remote; [totalDownloads] is the sum of the download figures
    of the sources that are present, an absent source counting for zero; and
    between two records that differ in the figure of one source only, the
    totals differ by the difference of that figure. *)
Theorem computeServerFields_derived (server : MCPServer.t) :
  let c := computed_of server in
  let types := map Package.registryType (MCPServer.packages server) in
  (NoDup (Computed.packageTypes c)
   /\ forall t, In t (Computed.packageTypes c) <-> In t types)
  /\ Computed.hasRemote c = (0 <? Z.of_nat (List.length (MCPServer.remotes server)))
  /\ Computed.totalDownloads c = sum_of_figures (MCPServer.enrichment server)
  /\ forall (server' : MCPServer.t) (src : DownloadSource),
       (forall other, other <> src ->
          figure other (MCPServer.enrichment server')
          = figure other (MCPServer.enrichment server)) ->
       totalDownloads_of server' - totalDownloads_of server
       = figure src (MCPServer.enrichment server')
         - figure src (MCPServer.enrichment server).
Proof.
  cbv zeta. split; [| split; [| split]].
  - apply set_of_array_spec. exact RegistryType_eqb_eq.
  - unfold computed_of. simpl. destruct (MCPServer.remotes server); reflexivity.
  - apply (totalDownloads_sum server).
  - intros server' src Hsame. rewrite !totalDownloads_sum.
    unfold sum_of_figures, all_sources. cbn [map fold_right].
    pose proof (Hsame FromNpm) as H1. pose proof (Hsame FromPyPi) as H2.
    pose proof (Hsame FromNuGet) as H3. pose proof (Hsame FromDocker) as H4.
    pose proof (Hsame FromMcpb) as H5. clear Hsame.
    destruct src;
      repeat match goal with
      | H : _ <> _ -> _ |- _ =>
          first [ specialize (H ltac:(discriminate)) | clear H ]
      end; lia.
Qed.

(** The npm figure of a record goes from 5000 to 7000: so does the total. *)
Lemma computeServerFields_derived_witness :
  let before := Scenario.tool_server in
  let after :=
    MCPServer.with_enrichment Scenario.tool_server
      (Enrichers.assign Scenario.tool_enrichment (Enrichers.OfNpm (Scenario.tool_npm 7000))) in
  totalDownloads_of before = 5000
  /\ totalDownloads_of after - totalDownloads_of before = 2000.
Proof.
  cbv zeta.
  destruct (computeServerFields_derived Scenario.tool_server) as (_ & _ & Hsum & Hdelta).
  split; [exact Hsum |].
  rewrite (Hdelta _ FromNpm); [reflexivity |].
  intros other Hother. destruct other; try reflexivity. now contradiction Hother.
Defined.

(** C8. After [computeServerFields] on a record whose name has no "/",
    [organization] is empty and [serverName] is the name; on a record whose
    name has one, [organization] is the part of the name before the first
    "/" and [serverName] is the part between the first "/" and the second,
    which is the entire remainder when the name has one "/" only.  For the
    name "acme/tool" they are "acme" and "tool". *)
Theorem computeServerFields_name_split (server : MCPServer.t) :
  let name := MCPServer.name server in
  (Js.has_char Js.slash name = false ->
     organization_of server = "" /\ serverName_of server = name)
  /\ (Js.has_char Js.slash name = true ->
     organization_of server = before_first Js.slash name
     /\ serverName_of server = before_first Js.slash (after_first Js.slash name)
     /\ (Js.has_char Js.slash (after_first Js.slash name) = false ->
         serverName_of server = after_first Js.slash name))
  /\ (name = "acme/tool" ->
     organization_of server = "acme" /\ serverName_of server = "tool").
Proof.
  cbv zeta. rewrite organization_of_eq, serverName_of_eq. repeat split.
  - now rewrite H.
  - now rewrite H.
  - now rewrite H.
  - now rewrite H.
  - rewrite H. now apply before_first_whole.
  - now rewrite H.
  - now rewrite H.
Qed.

Lemma computeServerFields_name_split_witness :
  organization_of (Scenario.server_named "io.github.acme/tool") = "io.github.acme"
  /\ serverName_of (Scenario.server_named "io.github.acme/tool") = "tool".
Proof.
  destruct (computeServerFields_name_split (Scenario.server_named "io.github.acme/tool"))
    as [_ [H _]].
  destruct (H eq_refl) as [Horg [_ Hname]].
  split; [exact Horg | exact (Hname eq_refl)].
Defined.

(** On a name with two separators [serverName] is not the entire remainder
    after the first. *)
Lemma serverName_not_remainder :
  serverName_of (Scenario.server_named "acme/tool/extra") = "tool"
  /\ after_first Js.slash (MCPServer.name (Scenario.server_named "acme/tool/extra"))
     = "tool/extra"
  /\ serverName_of (Scenario.server_named "acme/tool/extra")
     <> after_first Js.slash (MCPServer.name (Scenario.server_named "acme/tool/extra")).
Proof. repeat split. discriminate. Qed.

(** C10. [computeServerFields] changes nothing but [_computed]: the
    registry-sourced fields and the enrichment of the record it returns are
    those of the record it was given. *)
Theorem computeServerFields_frame (server : MCPServer.t) :
  let server' := Enrichers.computeServerFields server in
  MCPServer.name server' = MCPServer.name server
  /\ MCPServer.description server' = MCPServer.description server
  /\ MCPServer.version server' = MCPServer.version server
  /\ MCPServer.repository server' = MCPServer.repository server
  /\ MCPServer.packages server' = MCPServer.packages server
  /\ MCPServer.remotes server' = MCPServer.remotes server
  /\ MCPServer.status server' = MCPServer.status server
  /\ MCPServer.publishedAt server' = MCPServer.publishedAt server
  /\ MCPServer.updatedAt server' = MCPServer.updatedAt server
  /\ MCPServer.isLatest server' = MCPServer.isLatest server
  /\ MCPServer.enrichment server' = MCPServer.enrichment server.
Proof. repeat split. Qed.

(** ** Coordinator *)

Section CoordinatorProperties.
Variable Date_getTime : DateParser.

(** [isEnrichmentFresh] holds of the records whose enrichment is less than
    [maxAge] old, and of no other. *)
Lemma isEnrichmentFresh_enriched_within (now : Z) (server : MCPServer.t) (maxAge : Z) :
  Enrichers.isEnrichmentFresh Date_getTime now server maxAge = true
  <-> enriched_within Date_getTime maxAge now server.
Proof.
  unfold Enrichers.isEnrichmentFresh, enriched_within. cbv zeta.
  destruct (Enrichment.lastEnrichedAt (MCPServer.enrichment server)) as [| c stamp] eqn:E;
    simpl.
  - split; [discriminate | intros [H _]; contradiction].
  - destruct (Date_getTime (String c stamp)) as [t |].
    + rewrite Z.ltb_lt. split.
      * intros H. split; [discriminate | now exists t].
      * intros [_ (t' & [= <-] & H)]. exact H.
    + split; [discriminate | intros [_ (t' & H & _)]; discriminate].
Qed.

(** C3. With [skipIfFresh] set, [enrichServer] returns as it is a record
    whose [lastEnrichedAt] is set and less than [maxAge] old at the time of
    the call, and calls no source enricher; so does [enrichServers] for that
    record, at its place in the result, when the concurrency is one or more.
    When every record is that recent no source is called at all; hence a
    second run over the output of a first run, the freshness window not
    having expired, returns that output unchanged. *)
Theorem coordinator_skips_fresh (options : EnrichmentOptions.t) :
  Options.skipIfFresh (Enrichers.merge_options options) = true ->
  let maxAge := Options.maxAge (Enrichers.merge_options options) in
  let fresh (env : Enrichers.Env) (server : MCPServer.t) :=
    enriched_within Date_getTime maxAge (Enrichers.now env) server in
  (forall env server,
     fresh env server ->
     Enrichers.enrichServer Date_getTime env server options = (server, []))
  /\ (1 <= Options.concurrency (Enrichers.merge_options options) ->
      (forall env servers i server,
         nth_error servers i = Some server -> fresh (env i) server ->
         exists results tr,
           Enrichers.enrichServers Date_getTime env servers options = Some (results, tr)
           /\ nth_error results i = Some server)
      /\ (forall env servers,
         (forall i server, nth_error servers i = Some server -> fresh (env i) server) ->
         exists tr,
           Enrichers.enrichServers Date_getTime env servers options = Some (servers, tr)
           /\ enricher_calls tr = O)
      /\ (forall env1 env2 servers options1 out1 tr1,
         Enrichers.enrichServers Date_getTime env1 servers options1 = Some (out1, tr1) ->
         (forall i server, nth_error out1 i = Some server -> fresh (env2 i) server) ->
         exists tr2,
           Enrichers.enrichServers Date_getTime env2 out1 options = Some (out1, tr2)
           /\ enricher_calls tr2 = O)).
Proof.
  intros Hskip. cbv zeta.
  assert (forall env servers,
            1 <= Options.concurrency (Enrichers.merge_options options) ->
            (forall i server, nth_error servers i = Some server ->
               enriched_within Date_getTime
                 (Options.maxAge (Enrichers.merge_options options))
                 (Enrichers.now (env i)) server) ->
            exists tr,
              Enrichers.enrichServers Date_getTime env servers options = Some (servers, tr)
              /\ enricher_calls tr = O) as Hall.
  { intros env servers Hc Hfresh.
    destruct (enrichServers_some Date_getTime env servers options Hc) as [tr [Hrun Hcalls]].
    rewrite (@enrich_batch_all_fresh Date_getTime env (Enrichers.merge_options options)
               Hskip servers O) in Hrun, Hcalls.
    - exists tr. split; assumption.
    - intros i server Hnth. apply isEnrichmentFresh_enriched_within. now apply Hfresh.
    - intros i server Hnth. apply isEnrichmentFresh_enriched_within. now apply Hfresh. }
  split; [| intros Hc; split; [| split]].
  - intros env server Hf. apply isEnrichmentFresh_enriched_within in Hf.
    apply enrichServer_fresh. unfold selected.
    now rewrite Hskip, Hf.
  - intros env servers i server Hnth Hf. apply isEnrichmentFresh_enriched_within in Hf.
    destruct (enrichServers_some Date_getTime env servers options Hc) as [tr [Hrun _]].
    eexists. exists tr. split; [exact Hrun |].
    now apply enrich_batch_nth.
  - intros env servers. now apply Hall.
  - intros env1 env2 servers options1 out1 tr1 _ Hfresh. now apply Hall.
Qed.

(** C9. The record [enrichServer] returns for a server that is selected for
    enrichment carries, as [lastEnrichedAt], the timestamp of the clock of
    the call, whatever the source enrichers do: resolve with data, resolve
    with [null] or throw. It is never empty. *)
Theorem enrichServer_stamps (env : Enrichers.Env) (server : MCPServer.t)
    (options : EnrichmentOptions.t) :
  selected Date_getTime env server options = true ->
  let server' := fst (Enrichers.enrichServer Date_getTime env server options) in
  Enrichment.lastEnrichedAt (MCPServer.enrichment server')
  = toISOString (Enrichers.now env)
  /\ Enrichment.lastEnrichedAt (MCPServer.enrichment server') <> "".
Proof.
  unfold selected. intros Hsel. apply negb_true_iff in Hsel.
  cbv zeta. unfold Enrichers.enrichServer. rewrite Hsel.
  match goal with
  | |- context [Enrichers.run_enrichers ?f ?s ?d ?e] =>
      pose proof (run_enrichers_lastEnrichedAt f s d e) as H;
      destruct (Enrichers.run_enrichers f s d e) as [e' tr]
  end.
  simpl in *. rewrite H. split; [reflexivity | apply toISOString_nonempty].
Qed.

End CoordinatorProperties.

(** A first run enriches a server from npm; a second run a second later,
    against sources that would all throw, returns the output of the first
    and calls none of them. *)
Lemma coordinator_skips_fresh_witness :
  exists out1 tr1 tr2,
    Enrichers.enrichServers Scenario.Date_getTime
      (Scenario.at_time Scenario.t1 Scenario.npm_only) [Scenario.new_server]
      (Sync.enrich_options false) = Some (out1, tr1)
    /\ enricher_calls tr1 = 6%nat
    /\ Enrichers.enrichServers Scenario.Date_getTime
         (Scenario.at_time Scenario.t2 Scenario.broken) out1
         (Sync.enrich_options false) = Some (out1, tr2)
    /\ enricher_calls tr2 = O.
Proof.
  eexists. eexists.
  assert (Enrichers.enrichServers Scenario.Date_getTime
            (Scenario.at_time Scenario.t1 Scenario.npm_only) [Scenario.new_server]
            (Sync.enrich_options false)
          = Some (fst (Enrichers.enrich_batch Scenario.Date_getTime
                         (Scenario.at_time Scenario.t1 Scenario.npm_only)
                         (Enrichers.merge_options (Sync.enrich_options false))
                         O [Scenario.new_server]),
                  snd (Enrichers.enrich_batch Scenario.Date_getTime
                         (Scenario.at_time Scenario.t1 Scenario.npm_only)
                         (Enrichers.merge_options (Sync.enrich_options false))
                         O [Scenario.new_server]))) as Hfirst
    by (vm_compute; reflexivity).
  destruct (proj2 (@coordinator_skips_fresh Scenario.Date_getTime
                     (Sync.enrich_options false) eq_refl)) as (_ & _ & Hsecond).
  - simpl. lia.
  - destruct (Hsecond (Scenario.at_time Scenario.t1 Scenario.npm_only)
                (Scenario.at_time Scenario.t2 Scenario.broken)
                [Scenario.new_server] (Sync.enrich_options false) _ _ Hfirst)
      as [tr2 [Hrun Hcalls]].
    + intros i server Hnth. vm_compute in Hnth.
      destruct i as [| [| i]]; try discriminate Hnth.
      injection Hnth as <-.
      apply (@isEnrichmentFresh_enriched_within Scenario.Date_getTime).
      vm_compute. reflexivity.
    + exists tr2. split; [exact Hfirst |]. split; [reflexivity |].
      split; assumption.
Defined.

(** The claim of C3 fails for [enrichServers] with a concurrency of zero:
    over one record, enriched six hours before and fresh for a day, with
    [skipIfFresh] set, the run takes no record from the queue and does not
    return, after one round or after a thousand. *)
Lemma coordinator_needs_concurrency :
  EnrichmentOptions.skipIfFresh Cases.skip_fresh_no_concurrency = Some true
  /\ enriched_within Scenario.Date_getTime
       (Options.maxAge (Enrichers.merge_options Cases.skip_fresh_no_concurrency))
       Scenario.t1 Scenario.tool_server
  /\ Enrichers.enrichServers Scenario.Date_getTime
       (Scenario.at_time Scenario.t1 Scenario.silent) [Scenario.tool_server]
       Cases.skip_fresh_no_concurrency = None
  /\ Enrichers.batches Scenario.Date_getTime
       (Scenario.at_time Scenario.t1 Scenario.silent)
       (Enrichers.merge_options Cases.skip_fresh_no_concurrency)
       1000 O [Scenario.tool_server] [] = None.
Proof.
  split; [reflexivity |]. split.
  - apply (@isEnrichmentFresh_enriched_within Scenario.Date_getTime).
    vm_compute. reflexivity.
  - split; vm_compute; reflexivity.
Qed.

(** Every source throws: the record is stamped all the same. *)
Lemma enrichServer_stamps_witness :
  Enrichment.lastEnrichedAt
    (MCPServer.enrichment
       (fst (Enrichers.enrichServer Scenario.Date_getTime
               (Enrichers.mkEnv Scenario.t1 Scenario.broken)
               Scenario.new_server (Sync.enrich_options false))))
  = "2025-01-01T06:00:00.000Z".
Proof.
  destruct (@enrichServer_stamps Scenario.Date_getTime
              (Enrichers.mkEnv Scenario.t1 Scenario.broken)
              Scenario.new_server (Sync.enrich_options false) eq_refl) as [H _].
  exact H.
Defined.

(** ** Orchestrator *)

Lemma ServerStatus_eqb_eq (a b : ServerStatus) :
  ServerStatus_eqb a b = true <-> a = b.
Proof. destruct a, b; simpl; split; intros H; try reflexivity; discriminate. Qed.

Lemma last_entry_named_name n entries :
  forall e, last_entry_named n entries = Some e -> entry_name e = n.
Proof.
  induction entries as [| x entries IH]; intros e; simpl; [discriminate |].
  destruct (last_entry_named n entries) as [later |].
  - intros [= <-]. now apply IH.
  - destruct (String.eqb_spec (entry_name x) n); [| discriminate].
    now intros [= <-].
Qed.

Section OrchestratorProperties.
Variable Date_getTime : DateParser.
Variable localeCompare : string -> string -> Z.

(** The run completes whenever the fetch of the entries does. *)
Lemma sync_completes w fuel entries tr :
  Sync.fetch_entries w
    (Sync.shouldDoFullSync Date_getTime (Sync.FULL_SYNC w) (Sync.started w)
       (Sync.sync_state_file w))
    (Sync.sync_state_file w) fuel = Some (Returned entries, tr) ->
  exists run,
    Sync.sync Date_getTime localeCompare w fuel = Some (Sync.Completed run)
    /\ Sync.entries run = entries.
Proof.
  intros Hfetch. unfold Sync.sync. rewrite Hfetch. unfold Sync.sync_entries.
  set (full := Sync.shouldDoFullSync _ _ _ _).
  set (merged := Sync.merge_entries _ _).
  assert (exists m tr1,
            Sync.enrich_step Date_getTime (Sync.enrich_env w) full entries merged
            = Some (m, tr1)) as [m [tr1 Hstep]].
  { unfold Sync.enrich_step.
    destruct (0 <? List.length entries)%nat; [| eexists; eexists; reflexivity].
    match goal with
    | |- context [Enrichers.enrichServers _ ?env ?l ?o] =>
        destruct (enrichServers_some Date_getTime env l o) as [tr' [Hrun _]]
    end.
    - destruct full; simpl; lia.
    - rewrite Hrun. eexists. eexists. reflexivity. }
  rewrite Hstep. eexists. split; reflexivity.
Qed.

Lemma sync_keyed w fuel run :
  Sync.sync Date_getTime localeCompare w fuel = Some (Sync.Completed run) ->
  keyed_by_name (Sync.updatedServers run).
Proof.
  intros Hrun. destruct (sync_completed _ _ _ _ Hrun) as (_ & [tr Hstep] & _ & _).
  eapply enrich_step_keyed; [| exact Hstep].
  apply keyed_fold_merge, keyed_loadServers.
Qed.

(** The records written are the computed values of the working collection. *)
Lemma saved_inv w fuel run r :
  Sync.sync Date_getTime localeCompare w fuel = Some (Sync.Completed run) ->
  In r (Sync.saved run) ->
  exists s, Js.map_get (Sync.updatedServers run) (MCPServer.name r) = Some s
            /\ r = Enrichers.computeServerFields s.
Proof.
  intros Hrun Hin. pose proof (sync_keyed _ _ Hrun) as Hkeyed.
  destruct (sync_completed _ _ _ _ Hrun) as (_ & _ & Harr & Hsaved).
  rewrite Hsaved, saveServers_In, Harr in Hin.
  apply in_map_iff in Hin. destruct Hin as [s [<- Hs]].
  exists s. split; [| reflexivity].
  change (MCPServer.name (Enrichers.computeServerFields s)) with (MCPServer.name s).
  now apply keyed_value_get.
Qed.

Lemma saved_intro w fuel run n s :
  Sync.sync Date_getTime localeCompare w fuel = Some (Sync.Completed run) ->
  Js.map_get (Sync.updatedServers run) n = Some s ->
  In (Enrichers.computeServerFields s) (Sync.saved run).
Proof.
  intros Hrun Hget.
  destruct (sync_completed _ _ _ _ Hrun) as (_ & _ & Harr & Hsaved).
  rewrite Hsaved, saveServers_In, Harr. apply in_map. eapply get_value_In, Hget.
Qed.

(** C2. In an incremental sync, let [A] be a record of the prior snapshot
    that has been enriched, and let [e] be the last of the fetched entries
    that carries the name of [A], not a deletion.  When the enrichment of [A]
    is fresh during the run, the working collection and the snapshot written
    hold, under that name, one record: it has the registry fields of [e] and
    the enrichment of [A], unchanged. *)
Theorem sync_merge_keeps_enrichment
    (w : Sync.World) (fuel : nat) (run : Sync.Run) (n : string)
    (A : MCPServer.t) (e : MCPRegistryEntry.t) :
  Sync.sync Date_getTime localeCompare w fuel = Some (Sync.Completed run) ->
  Sync.doFullSync run = false ->
  Js.map_get (Sync.loadServers (Sync.servers_file w)) n = Some A ->
  Enrichment.lastEnrichedAt (MCPServer.enrichment A) <> "" ->
  last_entry_named n (Sync.entries run) = Some e ->
  entry_status e <> deleted ->
  (forall i, fresh_at Date_getTime (Sync.enrich_env w) (24 * 60 * 60 * 1000) i A) ->
  (exists r, Js.map_get (Sync.updatedServers run) n = Some r
             /\ holds r e (MCPServer.enrichment A))
  /\ (exists r, In r (Sync.saved run) /\ MCPServer.name r = n)
  /\ (forall r, In r (Sync.saved run) -> MCPServer.name r = n ->
        holds r e (MCPServer.enrichment A)).
Proof.
  intros Hrun Hincr HA Hstamp Hlast Hstatus Hfresh.
  pose proof (last_entry_named_name _ _ Hlast) as Hname.
  destruct (sync_completed _ _ _ _ Hrun) as (_ & [tr Hstep] & _ & _).
  cbv zeta in Hstep. rewrite Hincr in Hstep.
  set (existing := Sync.loadServers (Sync.servers_file w)) in *.
  set (r0 := MCPServer.with_enrichment (Sync.convertRegistryEntry e) (MCPServer.enrichment A)).
  assert (merged_record existing e = r0) as Hrec.
  { unfold merged_record. rewrite Hname, HA.
    destruct (Enrichment.lastEnrichedAt (MCPServer.enrichment A)); [contradiction | reflexivity]. }
  assert (Js.map_get (Sync.merge_entries existing (Sync.entries run)) n = Some r0) as Hmerged.
  { unfold Sync.merge_entries. rewrite fold_merge_get by apply keyed_loadServers.
    rewrite Hlast, Hrec.
    destruct (ServerStatus_eqb (entry_status e) deleted) eqn:E; [| reflexivity].
    apply ServerStatus_eqb_eq in E. contradiction. }
  assert (Js.map_get (Sync.updatedServers run) n = Some r0) as Hfinal.
  { eapply enrich_step_get_fresh; [| exact Hstep | exact Hmerged |].
    - apply keyed_fold_merge, keyed_loadServers.
    - intros i. rewrite (@isEnrichmentFresh_enrichment Date_getTime _ r0 A); [apply Hfresh | reflexivity]. }
  assert (holds r0 e (MCPServer.enrichment A)) as Hholds by (split; reflexivity).
  split; [exists r0; split; assumption |]. split.
  - exists (Enrichers.computeServerFields r0). split.
    + eapply saved_intro; eassumption.
    + exact Hname.
  - intros r Hin Hr. destruct (saved_inv _ _ _ Hrun Hin) as [s [Hs ->]].
    rewrite Hr, Hfinal in Hs. injection Hs as <-. exact Hholds.
Qed.

(** C4. Let [e] be the last of the fetched entries that carries its name.
    When its status is "deleted", neither the working collection nor the
    snapshot written holds a record of that name after the run, whatever the
    prior snapshot held under it. *)
Theorem sync_purges_deleted
    (w : Sync.World) (fuel : nat) (run : Sync.Run) (n : string)
    (e : MCPRegistryEntry.t) :
  Sync.sync Date_getTime localeCompare w fuel = Some (Sync.Completed run) ->
  last_entry_named n (Sync.entries run) = Some e ->
  entry_status e = deleted ->
  Js.map_get (Sync.updatedServers run) n = None
  /\ (forall r, In r (Sync.serversArray run) -> MCPServer.name r <> n)
  /\ (forall r, In r (Sync.saved run) -> MCPServer.name r <> n).
Proof.
  intros Hrun Hlast Hstatus.
  destruct (sync_completed _ _ _ _ Hrun) as (_ & [tr Hstep] & Harr & Hsaved).
  cbv zeta in Hstep.
  assert (Js.map_get (Sync.updatedServers run) n = None) as Hnone.
  { eapply enrich_step_get_None; [| exact Hstep |].
    - apply keyed_fold_merge, keyed_loadServers.
    - unfold Sync.merge_entries. rewrite fold_merge_get by apply keyed_loadServers.
      now rewrite Hlast, Hstatus. }
  assert (forall r, In r (Sync.saved run) -> MCPServer.name r <> n) as Hsavedn.
  { intros r Hin Hr. destruct (saved_inv _ _ _ Hrun Hin) as [s [Hs _]].
    rewrite Hr in Hs. congruence. }
  split; [exact Hnone |]. split; [| exact Hsavedn].
  intros r Hin. apply Hsavedn. rewrite Hsaved. now apply saveServers_In.
Qed.

End OrchestratorProperties.

(** An incremental run that fetches version 2.0.0 of a server whose
    enrichment is six hours old: the record written has the new version and
    the old enrichment. *)
Lemma sync_merge_keeps_enrichment_witness :
  exists run,
    Sync.sync Scenario.Date_getTime Scenario.localeCompare
      (Scenario.incremental [[Scenario.tool_entry "2.0.0" active true]]) 5
    = Some (Sync.Completed run)
    /\ (forall r, In r (Sync.saved run) -> MCPServer.name r = "acme/tool" ->
          holds r (Scenario.tool_entry "2.0.0" active true) Scenario.tool_enrichment)
    /\ map MCPServer.version (Sync.saved run) = ["2.0.0"].
Proof.
  eexists. split; [vm_compute; reflexivity |]. split; [| reflexivity].
  match goal with
  | |- forall r, In r (Sync.saved ?run) -> _ =>
      refine (proj2 (proj2 (@sync_merge_keeps_enrichment
                Scenario.Date_getTime Scenario.localeCompare
                (Scenario.incremental [[Scenario.tool_entry "2.0.0" active true]]) 5
                run "acme/tool" Scenario.tool_server
                (Scenario.tool_entry "2.0.0" active true) _ _ _ _ _ _ _)))
  end.
  - vm_compute. reflexivity.
  - reflexivity.
  - vm_compute. reflexivity.
  - vm_compute. discriminate.
  - reflexivity.
  - vm_compute. discriminate.
  - intros i. vm_compute. reflexivity.
Defined.

(** The claim of C2 fails on an update that a later entry of the same fetch
    supersedes, and on an update whose status is "deleted": in the first run
    the record written has the registry fields of the later entry, in the
    second no record is written under the name. *)
Lemma sync_merge_superseded_or_deleted :
  (exists run,
     Sync.sync Scenario.Date_getTime Scenario.localeCompare
       (Scenario.incremental
          [[Scenario.tool_entry "2.0.0" active true;
            Scenario.tool_entry "3.0.0" active true]]) 5
     = Some (Sync.Completed run)
     /\ Sync.doFullSync run = false
     /\ In (Scenario.tool_entry "2.0.0" active true) (Sync.entries run)
     /\ (forall i, fresh_at Scenario.Date_getTime (Scenario.at_time Scenario.t1 Scenario.silent)
                     (24 * 60 * 60 * 1000) i Scenario.tool_server)
     /\ ~ exists r, In r (Sync.saved run)
                    /\ holds r (Scenario.tool_entry "2.0.0" active true)
                         Scenario.tool_enrichment)
  /\ (exists run,
     Sync.sync Scenario.Date_getTime Scenario.localeCompare
       (Scenario.incremental [[Scenario.tool_entry "2.0.0" deleted true]]) 5
     = Some (Sync.Completed run)
     /\ Sync.doFullSync run = false
     /\ In (Scenario.tool_entry "2.0.0" deleted true) (Sync.entries run)
     /\ (forall i, fresh_at Scenario.Date_getTime (Scenario.at_time Scenario.t1 Scenario.silent)
                     (24 * 60 * 60 * 1000) i Scenario.tool_server)
     /\ ~ exists r, In r (Sync.saved run) /\ MCPServer.name r = "acme/tool").
Proof.
  split.
  - eexists. split; [vm_compute; reflexivity |].
    split; [reflexivity |]. split; [left; reflexivity |].
    split; [intros i; vm_compute; reflexivity |].
    intros [r [[<- | []] [Hfields _]]]. vm_compute in Hfields. discriminate.
  - eexists. split; [vm_compute; reflexivity |].
    split; [reflexivity |]. split; [left; reflexivity |].
    split; [intros i; vm_compute; reflexivity |].
    intros [r [[] _]].
Qed.

(** The registry reports the deletion of a server that has been enriched:
    nothing is written under its name. *)
Lemma sync_purges_deleted_witness :
  exists run,
    Sync.sync Scenario.Date_getTime Scenario.localeCompare
      (Scenario.incremental [[Scenario.tool_entry "2.0.0" deleted true]]) 5
    = Some (Sync.Completed run)
    /\ Js.map_get (Sync.updatedServers run) "acme/tool" = None
    /\ Sync.saved run = [].
Proof.
  eexists. split; [vm_compute; reflexivity |]. split; [| reflexivity].
  match goal with
  | |- Js.map_get (Sync.updatedServers ?run) _ = None =>
      refine (proj1 (@sync_purges_deleted
                Scenario.Date_getTime Scenario.localeCompare
                (Scenario.incremental [[Scenario.tool_entry "2.0.0" deleted true]]) 5
                run "acme/tool" (Scenario.tool_entry "2.0.0" deleted true) _ _ _))
  end.
  - vm_compute. reflexivity.
  - reflexivity.
  - reflexivity.
Defined.

(** The claim of C4 fails on a deletion that a later entry of the same fetch
    follows under the same name: the record is written again. *)
Lemma sync_deleted_then_readded :
  exists run,
    Sync.sync Scenario.Date_getTime Scenario.localeCompare
      (Scenario.incremental
         [[Scenario.tool_entry "2.0.0" deleted true;
           Scenario.tool_entry "3.0.0" active true]]) 5
    = Some (Sync.Completed run)
    /\ In (Scenario.tool_entry "2.0.0" deleted true) (Sync.entries run)
    /\ entry_status (Scenario.tool_entry "2.0.0" deleted true) = deleted
    /\ Js.map_get (Sync.updatedServers run)
         (entry_name (Scenario.tool_entry "2.0.0" deleted true)) <> None
    /\ exists r, In r (Sync.saved run)
                 /\ MCPServer.name r = entry_name (Scenario.tool_entry "2.0.0" deleted true).
Proof.
  eexists. split; [vm_compute; reflexivity |].
  split; [left; reflexivity |]. split; [reflexivity |].
  split; [discriminate |].
  eexists. split; [left; reflexivity | reflexivity].
Qed.

(** ** The end-to-end scenarios of the specification *)

(** The registry returns one entry named "acme/tool", version 1.0.0, active,
    with one npm package; the npm enricher returns 5000 monthly downloads and
    no other source has data. *)
Example first_run_scenario :
  exists run,
    Sync.sync Scenario.Date_getTime Scenario.localeCompare
      (Scenario.first_run [[Scenario.tool_entry "1.0.0" active true]]) 5
    = Some (Sync.Completed run)
    /\ map MCPServer._computed (Sync.saved run)
       = [Computed.mk "acme" "tool" [npm] false 5000 0]
    /\ map (fun s => Enrichment.lastEnrichedAt (MCPServer.enrichment s)) (Sync.saved run)
       = ["2025-01-01T06:00:00.000Z"]
    /\ SyncState.lastFullSyncAt (Sync.newState run) = "2025-01-01T06:00:01.000Z".
Proof. eexists. split; [vm_compute; reflexivity |]. repeat split. Qed.

Example toISOString_epoch :
  toISOString 0 = "1970-01-01T00:00:00.000Z"
  /\ toISOString 951782400000 = "2000-02-29T00:00:00.000Z"
  /\ toISOString (-1) = "1969-12-31T23:59:59.999Z".
Proof. repeat split. Qed.

(* ===================================================================== *)
(** * Further properties of the code *)
(* ===================================================================== *)

(** ** Retries and the listing of the registry *)
Section RetryInvariants.
Variable B : Type.
Variable fetch : Fetch.Network B.
Variable url : string.
Variable options : RequestInit.
Variable maxRetries : Z.
Variable baseTimeout : Z.

Lemma attempts_invariant (remaining : nat) :
  forall (a : Z) (lastError : option Thrown),
  (1 <= remaining)%nat ->
  a + Z.of_nat remaining = maxRetries + 1 ->
  let '(result, tr) :=
    Fetch.attempts fetch url options maxRetries baseTimeout remaining a lastError in
  let n := requests tr in
  (1 <= n <= remaining)%nat
  /\ sleeps tr = map (fun j => 1000 * j) (range a (n - 1))
  /\ timeouts tr = map (fun j => baseTimeout * j) (range a n)
  /\ result = attempt_outcome fetch url options baseTimeout (a + Z.of_nat n - 1)
  /\ decisive fetch url options maxRetries baseTimeout (a + Z.of_nat n - 1).
Proof.
  induction remaining as [| remaining IH]; intros a lastError Hrem Hsum; [lia |].
  simpl. unfold decisive, attempt_outcome.
  destruct (fetch url (with_signal options (baseTimeout * a)) a) as [r | e] eqn:Ha.
  - simpl. replace (a + 1 - 1) with a by lia. rewrite Ha.
    repeat split; try reflexivity; lia.
  - destruct (Fetch.isRetriableError e) eqn:Hr; simpl.
    + destruct (Z.eqb_spec a maxRetries) as [Heq | Hne].
      * simpl. replace (a + 1 - 1) with a by lia. rewrite Ha.
        repeat split; try reflexivity; try lia.
      * assert (1 <= remaining)%nat as Hrem' by lia.
        specialize (IH (a + 1) (Some e) Hrem' ltac:(lia)).
        destruct (Fetch.attempts fetch url options maxRetries baseTimeout remaining
                    (a + 1) (Some e)) as [result tr].
        cbv zeta in IH. destruct IH as (Hn & Hs & Ht & Hres & Hdec).
        cbn [requests sleeps timeouts].
        replace (a + Z.of_nat (S (requests tr)) - 1)
          with (a + 1 + Z.of_nat (requests tr) - 1) by lia.
        split; [lia |]. split.
        { rewrite Hs. replace (S (requests tr) - 1)%nat with (S (requests tr - 1)) by lia.
          reflexivity. }
        split; [rewrite Ht; reflexivity |].
        split; [exact Hres | exact Hdec].
    + replace (a + 1 - 1) with a by lia. rewrite Ha.
      repeat split; try reflexivity; try lia; now left.
Qed.

(** X1. Every call of [fetchWithRetry], whatever the network does, makes at
    most [maxRetries] requests, the [j]-th with the timeout
    [baseTimeout * j], and sleeps [1000 * j] after each attempt [j] but the
    last.  With [maxRetries] below one it makes no request and throws
    "Max retries exceeded"; otherwise it ends as its last attempt does, and
    an error it throws is not retriable unless the attempts are used up. *)
Theorem fetchWithRetry_bounded :
  let '(result, tr) := Fetch.fetchWithRetry fetch url options maxRetries baseTimeout in
  let n := requests tr in
  (n <= Z.to_nat maxRetries)%nat
  /\ sleeps tr = map (fun j => 1000 * j) (range 1 (n - 1))
  /\ timeouts tr = map (fun j => baseTimeout * j) (range 1 n)
  /\ ((maxRetries <= 0 /\ n = O
       /\ result = Threw (new_Error "Max retries exceeded"))
      \/ (1 <= Z.of_nat n
          /\ result = attempt_outcome fetch url options baseTimeout (Z.of_nat n)
          /\ (forall e, result = Threw e ->
                Fetch.isRetriableError e = false \/ Z.of_nat n = maxRetries))).
Proof.
  unfold Fetch.fetchWithRetry.
  destruct (Z.to_nat maxRetries) as [| m] eqn:Em.
  - simpl. repeat split; try lia. left. repeat split; lia.
  - pose proof (@attempts_invariant (S m) 1 None ltac:(lia) ltac:(lia)) as H.
    destruct (Fetch.attempts fetch url options maxRetries baseTimeout (S m) 1 None)
      as [result tr].
    cbv zeta in *. destruct H as (Hn & Hs & Ht & Hres & Hdec).
    replace (1 + Z.of_nat (requests tr) - 1) with (Z.of_nat (requests tr)) in * by lia.
    split; [lia |]. split; [exact Hs |]. split; [exact Ht |]. right.
    split; [lia |]. split; [exact Hres |].
    intros e He. unfold decisive in Hdec. rewrite <- Hres, He in Hdec. exact Hdec.
Qed.

End RetryInvariants.

Section ListingFacts.
Variable net : Registry.Network.
Variable options : FetchServersOptions.t.

Lemma pages_followed (prefix : list MCPRegistryResponse.t) :
  forall fuel acc cursor page,
  followed net options cursor page prefix ->
  Registry.pages net options (List.length prefix + fuel) acc cursor page
  = match Registry.pages net options fuel (acc ++ flat_map latest_of prefix)
            (cursor_after cursor prefix) (page + Z.of_nat (List.length prefix)) with
    | Some (result, tr) =>
        Some (result,
              flat_map (fun _ => [EvFetch Registry.servers_url None; EvSleep 100]) prefix ++ tr)
    | None => None
    end.
Proof.
  induction prefix as [| r prefix IH]; intros fuel acc cursor page Hf.
  - simpl. rewrite app_nil_r, Z.add_0_r.
    now destruct (Registry.pages net options fuel acc cursor page) as [[res tr] |].
  - destruct Hf as (Hr & Hc & Hrest).
    change (List.length (r :: prefix) + fuel)%nat with (S (List.length prefix + fuel)).
    cbn [Registry.pages]. rewrite Hr, Hc.
    rewrite (IH fuel _ _ _ Hrest).
    unfold cursor_after. cbn [fold_left flat_map].
    fold (latest_of r). rewrite <- app_assoc.
    replace (page + 1 + Z.of_nat (List.length prefix))
      with (page + Z.of_nat (List.length (r :: prefix)))
      by (cbn [List.length]; lia).
    now destruct (Registry.pages net options fuel _ _ _) as [[res tr] |].
Qed.

End ListingFacts.

Lemma requests_fetches (A : Type) (l : list A) (url : string) (d : Z) (tr : Trace) :
  requests (flat_map (fun _ => [EvFetch url None; EvSleep d]) l ++ tr)
  = (List.length l + requests tr)%nat
  /\ sleeps (flat_map (fun _ => [EvFetch url None; EvSleep d]) l ++ tr)
     = repeat d (List.length l) ++ sleeps tr.
Proof.
  induction l as [| x l [IH1 IH2]]; simpl; [split; reflexivity |].
  rewrite IH1, IH2. split; reflexivity.
Qed.

Section Listing.
Variable net : Registry.Network.
Variable options : FetchServersOptions.t.

(** X2. When the registry answers the first pages each with a cursor and the
    page after them without one, [fetchAllServers] returns the entries of
    all these pages that are the latest version of their server, in the
    order of the pages; it has made one request a page and slept 100 ms
    after each page but the last. *)
Theorem fetchAllServers_listing
    (prefix : list MCPRegistryResponse.t) (last : MCPRegistryResponse.t) (fuel : nat) :
  followed net options None 0 prefix ->
  Registry.fetchServers net (Z.of_nat (List.length prefix) + 1)
    (Registry.with_cursor options (cursor_after None prefix)) = Returned last ->
  Js.truthy_opt_string (MCPRegistryResponse.nextCursor last) = false ->
  (List.length prefix < fuel)%nat ->
  exists tr,
    Registry.fetchAllServers net options fuel
    = Some (Returned (flat_map latest_of (prefix ++ [last])), tr)
    /\ requests tr = S (List.length prefix)
    /\ sleeps tr = repeat 100 (List.length prefix).
Proof.
  intros Hf Hlast Hend Hfuel. unfold Registry.fetchAllServers.
  replace fuel with (List.length prefix + S (fuel - List.length prefix - 1))%nat by lia.
  rewrite (pages_followed net options prefix _ [] None 0 Hf).
  cbn [Registry.pages]. rewrite Z.add_0_l, Hlast, Hend.
  eexists. split; [rewrite flat_map_app; simpl; now rewrite app_nil_r |].
  destruct (requests_fetches prefix Registry.servers_url 100
              [EvFetch Registry.servers_url None]) as [Hreq Hsl].
  rewrite Hreq, Hsl. simpl. rewrite app_nil_r. split; [lia | reflexivity].
Qed.

(** X3. A failure on any page is fatal to the listing: when the request for
    a page throws, is answered with a status that is not OK, or with a body
    that does not parse, [fetchAllServers] throws (the error of the request,
    an error that reads "Registry API error: " followed by the status and
    the status text of the answer, or the error of the parse) and the
    entries of the pages fetched before are lost. *)
Theorem fetchAllServers_fatal
    (prefix : list MCPRegistryResponse.t) (fuel : nat) :
  followed net options None 0 prefix ->
  (List.length prefix < fuel)%nat ->
  let page := Z.of_nat (List.length prefix) + 1 in
  let answer := net (query_of options (cursor_after None prefix)) page in
  (forall e, answer = Threw e ->
     exists tr, Registry.fetchAllServers net options fuel = Some (Threw e, tr))
  /\ (forall response, answer = Returned response -> ok response = false ->
     exists tr,
       Registry.fetchAllServers net options fuel
       = Some (Threw (new_Error
                        (String.append "Registry API error: "
                           (String.append (Js.number_to_string (status response))
                              (String.append " " (statusText response))))), tr))
  /\ (forall response e, answer = Returned response -> ok response = true ->
     json response = Threw e ->
     exists tr, Registry.fetchAllServers net options fuel = Some (Threw e, tr)).
Proof.
  intros Hf Hfuel. cbv zeta. unfold Registry.fetchAllServers.
  replace fuel with (List.length prefix + S (fuel - List.length prefix - 1))%nat by lia.
  rewrite (pages_followed net options prefix _ [] None 0 Hf).
  cbn [Registry.pages]. rewrite Z.add_0_l.
  unfold Registry.fetchServers, Registry.with_cursor. cbn [FetchServersOptions.limit
    FetchServersOptions.cursor FetchServersOptions.updatedSince].
  fold (query_of options (cursor_after None prefix)).
  repeat split.
  - intros e He. rewrite He. simpl. eexists. reflexivity.
  - intros response Hr Hok. rewrite Hr. simpl. rewrite Hok. simpl. eexists. reflexivity.
  - intros response e Hr Hok He. rewrite Hr. simpl. rewrite Hok, He. simpl.
    eexists. reflexivity.
Qed.

(** X4. [fetchAllServers] has no bound on the pages it follows: against a
    registry that answers every page with a cursor it never returns. *)
Theorem fetchAllServers_endless :
  (forall q page, exists response r,
      net q page = Returned response /\ ok response = true
      /\ json response = Returned r
      /\ Js.truthy_opt_string (MCPRegistryResponse.nextCursor r) = true) ->
  forall fuel, Registry.fetchAllServers net options fuel = None.
Proof.
  intros Hnet fuel. unfold Registry.fetchAllServers.
  generalize (@nil MCPRegistryEntry.t) (@None string) 0.
  induction fuel as [| fuel IH]; intros acc cursor page; [reflexivity |].
  cbn [Registry.pages]. unfold Registry.fetchServers.
  match goal with
  | |- context [net ?q ?p] => destruct (Hnet q p) as (response & r & Hr & Hok & Hj & Hc)
  end.
  rewrite Hr. simpl. rewrite Hok, Hj. simpl. rewrite Hc, IH. reflexivity.
Qed.

End Listing.

(** Two pages, the first with a superseded entry: the listing holds the two
    latest entries, after two requests and one sleep. *)
Lemma fetchAllServers_listing_witness :
  exists tr,
    Registry.fetchAllServers Cases.two_pages Cases.listing 5
    = Some (Returned [Scenario.tool_entry "1.0.0" active true;
                      Cases.entry_named "zeta/last"], tr)
    /\ requests tr = 2%nat
    /\ sleeps tr = [100].
Proof.
  refine (@fetchAllServers_listing Cases.two_pages Cases.listing
            [Cases.page_one] Cases.page_two 5 _ _ _ _).
  - repeat split.
  - reflexivity.
  - reflexivity.
  - simpl. lia.
Defined.

(** The connection drops on the second page: the listing throws that error,
    the first page is not returned.  The second page is answered with a
    503: the listing throws the error of that status. *)
Lemma fetchAllServers_fatal_witness :
  (exists tr,
     Registry.fetchAllServers Cases.second_page_fails Cases.listing 5
     = Some (Threw Scenario.reset_error, tr))
  /\ (exists tr,
       Registry.fetchAllServers Cases.second_page_unavailable Cases.listing 5
       = Some (Threw (new_Error "Registry API error: 503 Service Unavailable"), tr)).
Proof.
  split.
  - refine (proj1 (@fetchAllServers_fatal Cases.second_page_fails Cases.listing
                     [Cases.page_one] 5 _ _) Scenario.reset_error _).
    + repeat split.
    + simpl. lia.
    + reflexivity.
  - refine (proj1 (proj2 (@fetchAllServers_fatal Cases.second_page_unavailable
                            Cases.listing [Cases.page_one] 5 _ _))
              (mkResponse 503 "Service Unavailable" false (Threw Scenario.syntax_error))
              _ _).
    + repeat split.
    + simpl. lia.
    + reflexivity.
    + reflexivity.
Defined.

(** A registry whose every page has a cursor: a thousand pages do not end
    the listing. *)
Lemma fetchAllServers_endless_witness :
  Registry.fetchAllServers Cases.endless Cases.listing 1000 = None.
Proof.
  refine (@fetchAllServers_endless Cases.endless Cases.listing _ 1000).
  intros q page. eexists. eexists. repeat split; reflexivity.
Defined.

(** ** The coordinator, source by source and batch by batch *)

Section CoordinatorExtras.
Variable Date_getTime : DateParser.

Lemma run_enrichers_trace fns :
  forall server delayMs e,
  snd (Enrichers.run_enrichers fns server delayMs e)
  = flat_map (fun name => [EvEnricher name (MCPServer.name server); EvSleep delayMs])
      (map fst fns).
Proof.
  induction fns as [| [name fn] fns IH]; intros server delayMs e; simpl; [reflexivity |].
  match goal with
  | |- context [Enrichers.run_enrichers fns server delayMs ?x] =>
      specialize (IH server delayMs x);
      destruct (Enrichers.run_enrichers fns server delayMs x) as [e' tr]
  end.
  simpl in *. now rewrite IH.
Qed.

Lemma run_enrichers_calls fns :
  forall server delayMs e,
  enricher_calls (snd (Enrichers.run_enrichers fns server delayMs e)) = List.length fns.
Proof.
  induction fns as [| [name fn] fns IH]; intros server delayMs e; simpl; [reflexivity |].
  match goal with
  | |- context [Enrichers.run_enrichers fns server delayMs ?x] =>
      specialize (IH server delayMs x);
      destruct (Enrichers.run_enrichers fns server delayMs x) as [e' tr]
  end.
  simpl in *. now rewrite IH.
Qed.

Lemma enrichServer_selected_stamp env server options :
  selected Date_getTime env server options = true ->
  Enrichment.lastEnrichedAt
    (MCPServer.enrichment (fst (Enrichers.enrichServer Date_getTime env server options)))
  = toISOString (Enrichers.now env)
  /\ enricher_calls (snd (Enrichers.enrichServer Date_getTime env server options)) = 6%nat.
Proof.
  unfold selected. intros Hsel. apply negb_true_iff in Hsel.
  unfold Enrichers.enrichServer. rewrite Hsel.
  match goal with
  | |- context [Enrichers.run_enrichers ?f ?s ?d ?e] =>
      pose proof (run_enrichers_lastEnrichedAt f s d e) as H;
      pose proof (run_enrichers_calls f s d e) as Hc;
      destruct (Enrichers.run_enrichers f s d e) as [e' tr]
  end.
  simpl in *. now rewrite H.
Qed.

(** X5. A call of [enrichServer] for a selected server calls the six source
    enrichers one after the other, in the order GitHub, npm, PyPI, NuGet,
    Docker, MCPB, and sleeps [delayMs] after each of them, the last
    included: the call takes at least six delays. *)
Theorem enrichServer_calls_every_source (env : Enrichers.Env) (server : MCPServer.t)
    (options : EnrichmentOptions.t) :
  selected Date_getTime env server options = true ->
  snd (Enrichers.enrichServer Date_getTime env server options)
  = flat_map
      (fun name =>
         [EvEnricher name (MCPServer.name server);
          EvSleep (Options.delayMs (Enrichers.merge_options options))])
      enricher_names.
Proof.
  unfold selected. intros Hsel. apply negb_true_iff in Hsel.
  unfold Enrichers.enrichServer. rewrite Hsel.
  match goal with
  | |- context [Enrichers.run_enrichers ?f ?s ?d ?e] =>
      pose proof (run_enrichers_trace f s d e) as H;
      destruct (Enrichers.run_enrichers f s d e) as [e' tr]
  end.
  simpl in H. simpl. exact H.
Qed.

(** X6. A call of [enrichServer] for a selected server replaces the data of a
    source when its enricher resolves with data, and only then: the slot of
    a source whose enricher resolves with [null] or throws keeps what the
    record held before, so that a failure of one source neither erases its
    older data nor touches the slots of the others. *)
Theorem enrichServer_slots (env : Enrichers.Env) (server : MCPServer.t)
    (options : EnrichmentOptions.t) :
  selected Date_getTime env server options = true ->
  let src := Enrichers.sources env in
  let old := MCPServer.enrichment server in
  let new := MCPServer.enrichment
               (fst (Enrichers.enrichServer Date_getTime env server options)) in
  Enrichment.github new = slot_after (Enrichment.github old) (Enrichers.enrichGitHub src server)
  /\ Enrichment.npm new = slot_after (Enrichment.npm old) (Enrichers.enrichNpm src server)
  /\ Enrichment.pypi new = slot_after (Enrichment.pypi old) (Enrichers.enrichPyPi src server)
  /\ Enrichment.nuget new = slot_after (Enrichment.nuget old) (Enrichers.enrichNuGet src server)
  /\ Enrichment.docker new = slot_after (Enrichment.docker old) (Enrichers.enrichDocker src server)
  /\ Enrichment.mcpb new = slot_after (Enrichment.mcpb old) (Enrichers.enrichMcpb src server).
Proof.
  unfold selected. intros Hsel. apply negb_true_iff in Hsel.
  cbv zeta. unfold Enrichers.enrichServer. rewrite Hsel.
  unfold Enrichers.enrichers, Enrichers.lift. cbn [Enrichers.run_enrichers].
  destruct (MCPServer.enrichment server) as [at_ gh np py nu dk mb].
  destruct (Enrichers.enrichGitHub (Enrichers.sources env) server) as [[a1 |] | e1];
  destruct (Enrichers.enrichNpm (Enrichers.sources env) server) as [[a2 |] | e2];
  destruct (Enrichers.enrichPyPi (Enrichers.sources env) server) as [[a3 |] | e3];
  destruct (Enrichers.enrichNuGet (Enrichers.sources env) server) as [[a4 |] | e4];
  destruct (Enrichers.enrichDocker (Enrichers.sources env) server) as [[a5 |] | e5];
  destruct (Enrichers.enrichMcpb (Enrichers.sources env) server) as [[a6 |] | e6];
  repeat split.
Qed.

(** X7. A record that has never been enriched, or whose [lastEnrichedAt] is
    not a date, is never skipped as fresh: whatever the options, all six
    enrichers are called for it and the record returned is stamped with the
    clock of the call. *)
Theorem enrichServer_unstamped_is_enriched (env : Enrichers.Env) (server : MCPServer.t)
    (options : EnrichmentOptions.t) :
  let stamp := Enrichment.lastEnrichedAt (MCPServer.enrichment server) in
  stamp = "" \/ Date_getTime stamp = None ->
  let '(server', tr) := Enrichers.enrichServer Date_getTime env server options in
  Enrichment.lastEnrichedAt (MCPServer.enrichment server') = toISOString (Enrichers.now env)
  /\ enricher_calls tr = 6%nat.
Proof.
  cbv zeta. intros Hstamp.
  assert (selected Date_getTime env server options = true) as Hsel.
  { unfold selected, Enrichers.isEnrichmentFresh.
    destruct (Options.skipIfFresh (Enrichers.merge_options options)); [| reflexivity].
    destruct Hstamp as [H | H]; rewrite H; [reflexivity | now destruct (Js.truthy_string _)]. }
  pose proof (enrichServer_selected_stamp env server options Hsel) as H.
  destruct (Enrichers.enrichServer Date_getTime env server options) as [server' tr].
  exact H.
Qed.

Lemma registry_fields_enrichServer env s options :
  registry_fields (fst (Enrichers.enrichServer Date_getTime env s options))
  = registry_fields s
  /\ MCPServer._computed (fst (Enrichers.enrichServer Date_getTime env s options))
     = MCPServer._computed s.
Proof.
  unfold Enrichers.enrichServer.
  destruct (_ && _); [split; reflexivity |].
  destruct (Enrichers.run_enrichers _ _ _ _). split; reflexivity.
Qed.

Lemma enrichServer_calls_le env s options :
  (enricher_calls (snd (Enrichers.enrichServer Date_getTime env s options)) <= 6)%nat.
Proof.
  unfold Enrichers.enrichServer.
  destruct (_ && _); [simpl; lia |].
  match goal with
  | |- context [Enrichers.run_enrichers ?f ?sv ?d ?e] =>
      pose proof (run_enrichers_calls f sv d e) as H;
      destruct (Enrichers.run_enrichers f sv d e) as [e' tr]
  end.
  simpl in *. lia.
Qed.

Lemma enrich_batch_frame env opts l :
  forall index,
  map registry_fields (fst (Enrichers.enrich_batch Date_getTime env opts index l))
  = map registry_fields l
  /\ map MCPServer._computed (fst (Enrichers.enrich_batch Date_getTime env opts index l))
     = map MCPServer._computed l
  /\ (enricher_calls (snd (Enrichers.enrich_batch Date_getTime env opts index l))
      <= 6 * List.length l)%nat.
Proof.
  induction l as [| s l IH]; intros index; simpl; [repeat split; lia |].
  pose proof (registry_fields_enrichServer (env index) s (Enrichers.as_options opts)) as [Hf Hc].
  pose proof (enrichServer_calls_le (env index) s (Enrichers.as_options opts)) as Hn.
  destruct (Enrichers.enrichServer Date_getTime (env index) s _) as [s' tr1].
  destruct (IH (S index)) as (IH1 & IH2 & IH3).
  destruct (Enrichers.enrich_batch Date_getTime env opts (S index) l) as [o tr2].
  simpl in *. rewrite Hf, Hc, IH1, IH2, enricher_calls_app.
  repeat split; lia.
Qed.

(** X8. With a concurrency of one or more, [enrichServers] returns one record
    for each server it is given, in the order it is given them, whatever the
    size of the batches: the records returned have the registry fields and
    the [_computed] of the servers, position by position.  No more than six
    enricher calls are made for a server. *)
Theorem enrichServers_keeps_order (env : nat -> Enrichers.Env)
    (servers : list MCPServer.t) (options : EnrichmentOptions.t) :
  1 <= Options.concurrency (Enrichers.merge_options options) ->
  exists results tr,
    Enrichers.enrichServers Date_getTime env servers options = Some (results, tr)
    /\ map registry_fields results = map registry_fields servers
    /\ map MCPServer._computed results = map MCPServer._computed servers
    /\ (enricher_calls tr <= 6 * List.length servers)%nat.
Proof.
  intros Hc.
  destruct (enrichServers_some Date_getTime env servers options Hc) as [tr [Hrun Hcalls]].
  destruct (enrich_batch_frame env (Enrichers.merge_options options) servers O)
    as (H1 & H2 & H3).
  eexists. exists tr. split; [exact Hrun |]. rewrite Hcalls. repeat split; assumption.
Qed.

(** X9. With a concurrency of zero or less and at least one server,
    [enrichServers] never returns: every batch is empty, the queue stays as
    it is, and the loop goes on however long it is run. *)
Theorem enrichServers_no_progress (env : nat -> Enrichers.Env)
    (servers : list MCPServer.t) (options : EnrichmentOptions.t) :
  Options.concurrency (Enrichers.merge_options options) <= 0 ->
  servers <> [] ->
  (forall fuel index results,
     Enrichers.batches Date_getTime env (Enrichers.merge_options options)
       fuel index servers results = None)
  /\ Enrichers.enrichServers Date_getTime env servers options = None.
Proof.
  intros Hc Hne.
  assert (forall fuel index results,
            Enrichers.batches Date_getTime env (Enrichers.merge_options options)
              fuel index servers results = None) as Hall.
  { induction fuel as [| fuel IH]; intros index results.
    - destruct servers; [contradiction | reflexivity].
    - destruct servers as [| s rest] eqn:E; [contradiction |].
      cbn [Enrichers.batches].
      replace (Z.to_nat (Options.concurrency (Enrichers.merge_options options))) with O by lia.
      cbn [firstn skipn Enrichers.enrich_batch List.length].
      rewrite IH. reflexivity. }
  split; [exact Hall | apply Hall].
Qed.

End CoordinatorExtras.

(** Every source throws for a server that was never enriched: the six
    enrichers are called in order, each followed by a sleep of 200 ms. *)
Lemma enrichServer_calls_every_source_witness :
  snd (Enrichers.enrichServer Scenario.Date_getTime
         (Enrichers.mkEnv Scenario.t1 Scenario.broken)
         Scenario.new_server (Sync.enrich_options false))
  = [EvEnricher "GitHub" "acme/tool"; EvSleep 200;
     EvEnricher "npm" "acme/tool"; EvSleep 200;
     EvEnricher "PyPI" "acme/tool"; EvSleep 200;
     EvEnricher "NuGet" "acme/tool"; EvSleep 200;
     EvEnricher "Docker" "acme/tool"; EvSleep 200;
     EvEnricher "MCPB" "acme/tool"; EvSleep 200].
Proof.
  exact (@enrichServer_calls_every_source Scenario.Date_getTime
           (Enrichers.mkEnv Scenario.t1 Scenario.broken)
           Scenario.new_server (Sync.enrich_options false) eq_refl).
Defined.

(** A full sync of a record that holds npm data, against sources that all
    throw: the npm data stays, and no other slot is filled. *)
Lemma enrichServer_slots_witness :
  let new := MCPServer.enrichment
               (fst (Enrichers.enrichServer Scenario.Date_getTime
                       (Enrichers.mkEnv Scenario.t1 Scenario.broken)
                       Scenario.tool_server (Sync.enrich_options true))) in
  Enrichment.npm new = Some (Scenario.tool_npm 5000)
  /\ Enrichment.github new = None.
Proof.
  destruct (@enrichServer_slots Scenario.Date_getTime
              (Enrichers.mkEnv Scenario.t1 Scenario.broken)
              Scenario.tool_server (Sync.enrich_options true) eq_refl)
    as (Hgithub & Hnpm & _).
  split; [exact Hnpm | exact Hgithub].
Defined.

(** A server that was never enriched, with the default options (which skip
    fresh records): it is enriched and stamped. *)
Lemma enrichServer_unstamped_is_enriched_witness :
  let '(server', tr) :=
    Enrichers.enrichServer Scenario.Date_getTime
      (Enrichers.mkEnv Scenario.t1 Scenario.silent) Scenario.new_server
      (EnrichmentOptions.mk None None None None) in
  Enrichment.lastEnrichedAt (MCPServer.enrichment server')
  = toISOString Scenario.t1
  /\ enricher_calls tr = 6%nat.
Proof.
  exact (@enrichServer_unstamped_is_enriched Scenario.Date_getTime
           (Enrichers.mkEnv Scenario.t1 Scenario.silent) Scenario.new_server
           (EnrichmentOptions.mk None None None None) (or_introl eq_refl)).
Defined.

(** Three servers in batches of two: the records come back in the order
    given. *)
Lemma enrichServers_keeps_order_witness :
  exists results tr,
    Enrichers.enrichServers Scenario.Date_getTime
      (Scenario.at_time Scenario.t1 Scenario.npm_only)
      [Scenario.server_named "c"; Scenario.server_named "a"; Scenario.server_named "b"]
      (Sync.enrich_options true) = Some (results, tr)
    /\ map registry_fields results
       = map registry_fields
           [Scenario.server_named "c"; Scenario.server_named "a"; Scenario.server_named "b"]
    /\ map MCPServer._computed results
       = map MCPServer._computed
           [Scenario.server_named "c"; Scenario.server_named "a"; Scenario.server_named "b"]
    /\ (enricher_calls tr <= 6 * 3)%nat.
Proof.
  refine (@enrichServers_keeps_order Scenario.Date_getTime
            (Scenario.at_time Scenario.t1 Scenario.npm_only)
            [Scenario.server_named "c"; Scenario.server_named "a"; Scenario.server_named "b"]
            (Sync.enrich_options true) _).
  simpl. lia.
Defined.

(** A concurrency of zero with one server to enrich: the call does not
    return. *)
Lemma enrichServers_no_progress_witness :
  Enrichers.enrichServers Scenario.Date_getTime
    (Scenario.at_time Scenario.t1 Scenario.silent) [Scenario.new_server]
    Cases.no_concurrency = None.
Proof.
  refine (proj2 (@enrichServers_no_progress Scenario.Date_getTime
                   (Scenario.at_time Scenario.t1 Scenario.silent) [Scenario.new_server]
                   Cases.no_concurrency _ _)).
  - simpl. lia.
  - discriminate.
Defined.

(** ** What a run of [sync] writes *)

Section SyncExtras.
Variable Date_getTime : DateParser.
Variable localeCompare : string -> string -> Z.

Lemma sort_insert_sorted s sorted :
  (forall a b, localeCompare a b <= 0 \/ localeCompare b a <= 0) ->
  Sorted (name_le localeCompare) sorted ->
  Sorted (name_le localeCompare) (Sync.sort_insert localeCompare s sorted).
Proof.
  intros Htotal Hsorted. induction Hsorted as [| t rest Hrest IH Hhd]; simpl.
  - repeat constructor.
  - destruct (Z.leb_spec (localeCompare (MCPServer.name s) (MCPServer.name t)) 0) as [Hle | Hgt].
    + constructor; [constructor; assumption | constructor; exact Hle].
    + constructor; [exact IH |].
      assert (name_le localeCompare t s) as Hts.
      { unfold name_le. destruct (Htotal (MCPServer.name s) (MCPServer.name t)); [lia | assumption]. }
      destruct rest as [| u rest]; simpl; [constructor; exact Hts |].
      destruct (_ <=? 0); constructor; [exact Hts |].
      now inversion Hhd.
Qed.

Lemma saveServers_sorted servers :
  (forall a b, localeCompare a b <= 0 \/ localeCompare b a <= 0) ->
  Sorted (name_le localeCompare) (Sync.saveServers localeCompare servers).
Proof.
  intros Htotal. unfold Sync.saveServers, Sync.sort_by_name.
  induction servers as [| s servers IH]; simpl; [constructor |].
  now apply sort_insert_sorted.
Qed.

(** X10. The snapshot a completed run writes is sorted by name: for a
    [localeCompare] that is a total preorder of the names, every record of
    the snapshot compares below or equal to every record after it.  The
    snapshot holds the records of the map, each once: sorting neither drops
    nor repeats a record. *)
Theorem sync_saves_sorted (w : Sync.World) (fuel : nat) (run : Sync.Run) :
  (forall a b, localeCompare a b <= 0 \/ localeCompare b a <= 0) ->
  (forall a b c, localeCompare a b <= 0 -> localeCompare b c <= 0 ->
                 localeCompare a c <= 0) ->
  Sync.sync Date_getTime localeCompare w fuel = Some (Sync.Completed run) ->
  StronglySorted (name_le localeCompare) (Sync.saved run)
  /\ Permutation (Sync.saved run)
       (map Enrichers.computeServerFields (Js.map_values (Sync.updatedServers run))).
Proof.
  intros Htotal Htrans Hrun.
  destruct (@sync_completed Date_getTime localeCompare w fuel run Hrun) as (_ & _ & Harr & Hsaved).
  rewrite Hsaved, Harr. split; [| apply saveServers_perm].
  apply Sorted_StronglySorted; [| now apply saveServers_sorted].
  intros a b c Hab Hbc. unfold name_le in *. eapply Htrans; eassumption.
Qed.

Lemma keyed_names (m : Js.Map MCPServer.t) :
  keyed_by_name m -> map MCPServer.name (Js.map_values m) = Js.map_keys m.
Proof.
  intros [_ Hk]. unfold Js.map_values, Js.map_keys. rewrite map_map.
  apply map_ext_in. intros kv Hin. rewrite Forall_forall in Hk. symmetry. now apply Hk.
Qed.

(** X11. The snapshot a completed run writes holds no two records of the
    same name, whatever the registry sent and whatever the prior snapshot
    held. *)
Theorem sync_saves_unique_names (w : Sync.World) (fuel : nat) (run : Sync.Run) :
  Sync.sync Date_getTime localeCompare w fuel = Some (Sync.Completed run) ->
  NoDup (map MCPServer.name (Sync.saved run)).
Proof.
  intros Hrun. pose proof (@sync_keyed Date_getTime localeCompare w fuel run Hrun) as Hkeyed.
  destruct (@sync_completed Date_getTime localeCompare w fuel run Hrun) as (_ & _ & Harr & Hsaved).
  assert (Permutation (Sync.saved run) (Sync.serversArray run)) as Hperm
    by (rewrite Hsaved; apply saveServers_perm).
  apply (Permutation_NoDup (l := map MCPServer.name (Sync.serversArray run))).
  - apply Permutation_map, Permutation_sym, Hperm.
  - rewrite Harr, map_map.
    change (map (fun x => MCPServer.name (Enrichers.computeServerFields x))
              (Js.map_values (Sync.updatedServers run)))
      with (map MCPServer.name (Js.map_values (Sync.updatedServers run))).
    rewrite keyed_names by assumption. apply Hkeyed.
Qed.

Lemma fetched_last_entry entries s :
  Sync.fetched entries s = true ->
  last_entry_named (MCPServer.name s) entries <> None.
Proof.
  unfold Sync.fetched. induction entries as [| e entries IH]; simpl; [discriminate |].
  intros H. apply orb_true_iff in H.
  destruct (last_entry_named (MCPServer.name s) entries) as [later |]; [discriminate |].
  destruct H as [H | H]; [| now apply IH in H].
  unfold entry_name. now rewrite H.
Qed.

Lemma sync_steps w fuel run :
  Sync.sync Date_getTime localeCompare w fuel = Some (Sync.Completed run) ->
  exists tr0 tr1,
    Sync.fetch_entries w (Sync.doFullSync run) (Sync.sync_state_file w) fuel
    = Some (Returned (Sync.entries run), tr0)
    /\ Sync.enrich_step Date_getTime (Sync.enrich_env w) (Sync.doFullSync run)
         (Sync.entries run)
         (Sync.merge_entries (Sync.loadServers (Sync.servers_file w)) (Sync.entries run))
       = Some (Sync.updatedServers run, tr1)
    /\ Sync.trace run = tr0 ++ tr1
    /\ Sync.newState run
       = SyncState.mk (toISOString (Sync.finished w)) None
           (Z.of_nat (List.length (Sync.serversArray run)))
           (if Sync.doFullSync run then toISOString (Sync.finished w)
            else match Sync.sync_state_file w with
                 | Some state =>
                     if Js.truthy_string (SyncState.lastFullSyncAt state)
                     then SyncState.lastFullSyncAt state
                     else toISOString (Sync.finished w)
                 | None => toISOString (Sync.finished w)
                 end)
           1.
Proof.
  unfold Sync.sync.
  destruct (Sync.fetch_entries _ _ _ _) as [[[es | err] tr0] |] eqn:Ef; try discriminate.
  unfold Sync.sync_entries.
  destruct (Sync.enrich_step _ _ _ _ _) as [[m2 tr1] |] eqn:Es; [| discriminate].
  intros [= <-]. simpl. exists tr0, tr1. repeat split; assumption.
Qed.

(** X12. An incremental run leaves alone the records the registry did not
    send: under a name that none of the fetched entries carries, the map
    holds after the run what the prior snapshot held, neither re-enriched
    nor dropped, and the record written under the name is that record with
    its computed fields. *)
Theorem sync_leaves_unfetched (w : Sync.World) (fuel : nat) (run : Sync.Run) (n : string) :
  Sync.sync Date_getTime localeCompare w fuel = Some (Sync.Completed run) ->
  Sync.doFullSync run = false ->
  last_entry_named n (Sync.entries run) = None ->
  Js.map_get (Sync.updatedServers run) n
  = Js.map_get (Sync.loadServers (Sync.servers_file w)) n
  /\ forall r, In r (Sync.saved run) -> MCPServer.name r = n ->
       exists s, Js.map_get (Sync.loadServers (Sync.servers_file w)) n = Some s
                 /\ r = Enrichers.computeServerFields s.
Proof.
  intros Hrun Hincr Hlast.
  destruct (sync_steps _ _ Hrun) as (tr0 & tr1 & _ & Hstep & _ & _).
  rewrite Hincr in Hstep.
  set (existing := Sync.loadServers (Sync.servers_file w)) in *.
  assert (Js.map_get (Sync.merge_entries existing (Sync.entries run)) n
          = Js.map_get existing n) as Hmerged.
  { unfold Sync.merge_entries. rewrite fold_merge_get by apply keyed_loadServers.
    now rewrite Hlast. }
  assert (Js.map_get (Sync.updatedServers run) n = Js.map_get existing n) as Hsame.
  { rewrite <- Hmerged. revert Hstep. unfold Sync.enrich_step.
    destruct (0 <? List.length (Sync.entries run))%nat; [| now intros [= <- _]].
    match goal with
    | |- context [Enrichers.enrichServers _ ?env ?l ?o] =>
        destruct (@enrichServers_some Date_getTime env l o) as [tr' [Hsome _]];
          [simpl; lia |]
    end.
    rewrite Hsome. intros [= <- _].
    apply store_all_get_other. intros s' Hs' Hname.
    destruct (@enrich_batch_In Date_getTime _ _ _ _ _ Hs') as [i [s [Hs ->]]].
    rewrite enrichServer_name in Hname.
    apply filter_In in Hs. destruct Hs as [_ Hf].
    apply fetched_last_entry in Hf. rewrite Hname in Hf. contradiction. }
  split; [exact Hsame |].
  intros r Hin Hr.
  destruct (@saved_inv Date_getTime localeCompare w fuel run r Hrun Hin) as [s [Hs ->]].
  rewrite Hr, Hsame in Hs. now exists s.
Qed.

Lemma store_all_get_cases enriched :
  forall m n r,
  Js.map_get (Sync.store_all m enriched) n = Some r ->
  In r enriched \/ (Js.map_get m n = Some r
                    /\ forall s, In s enriched -> MCPServer.name s <> n).
Proof.
  unfold Sync.store_all.
  induction enriched as [| s enriched IH]; intros m n r; simpl.
  - intros H. right. split; [exact H | intros s []].
  - intros H. apply IH in H. destruct H as [H | [H Hno]]; [left; now right |].
    destruct (String.eqb_spec (MCPServer.name s) n) as [Hn | Hn].
    + rewrite <- Hn, map_get_set_eq in H. injection H as <-. left. now left.
    + rewrite map_get_set_ne in H by assumption. right. split; [exact H |].
      intros s' [<- | Hs']; [exact Hn | now apply Hno].
Qed.

Lemma enrich_batch_names env opts l :
  forall index,
  map MCPServer.name (fst (Enrichers.enrich_batch Date_getTime env opts index l))
  = map MCPServer.name l.
Proof.
  induction l as [| s l IH]; intros index; simpl; [reflexivity |].
  pose proof (@enrichServer_name Date_getTime (env index) s (Enrichers.as_options opts)) as Hn.
  destruct (Enrichers.enrichServer Date_getTime (env index) s _) as [s' tr1].
  specialize (IH (S index)).
  destruct (Enrichers.enrich_batch Date_getTime env opts (S index) l) as [o tr2].
  simpl in *. now rewrite Hn, IH.
Qed.

(** X13. A full sync that fetched at least one entry enriches every record
    it writes, those of the prior snapshot that the registry no longer sends
    included: each record written carries as [lastEnrichedAt] the time of
    one of the calls of [enrichServer] of the run. *)
Theorem full_sync_enriches_all (w : Sync.World) (fuel : nat) (run : Sync.Run) :
  Sync.sync Date_getTime localeCompare w fuel = Some (Sync.Completed run) ->
  Sync.doFullSync run = true ->
  Sync.entries run <> [] ->
  forall r, In r (Sync.saved run) ->
    exists i,
      Enrichment.lastEnrichedAt (MCPServer.enrichment r)
      = toISOString (Enrichers.now (Sync.enrich_env w i)).
Proof.
  intros Hrun Hfull Hne r Hin.
  destruct (sync_steps _ _ Hrun) as (tr0 & tr1 & _ & Hstep & _ & _).
  rewrite Hfull in Hstep.
  destruct (@saved_inv Date_getTime localeCompare w fuel run r Hrun Hin) as [s [Hs ->]].
  change (MCPServer.enrichment (Enrichers.computeServerFields s))
    with (MCPServer.enrichment s).
  revert Hstep. unfold Sync.enrich_step.
  destruct (Sync.entries run) as [| e0 es]; [contradiction |]. cbn [List.length Nat.ltb Nat.leb].
  set (merged := Sync.merge_entries _ _).
  destruct (@enrichServers_some Date_getTime (Sync.enrich_env w) (Js.map_values merged)
              (Sync.enrich_options true)) as [tr' [Hsome _]]; [simpl; lia |].
  rewrite Hsome. intros [= Hm _]. rewrite <- Hm in Hs.
  apply store_all_get_cases in Hs. destruct Hs as [Hs | [Hget Hno]].
  - destruct (@enrich_batch_In Date_getTime _ _ _ _ _ Hs) as [i [s0 [_ ->]]].
    exists i.
    apply (@enrichServer_selected_stamp Date_getTime (Sync.enrich_env w i) s0
             (Enrichers.as_options (Enrichers.merge_options (Sync.enrich_options true)))).
    reflexivity.
  - exfalso. apply get_value_In in Hget.
    assert (In (MCPServer.name s) (map MCPServer.name (Js.map_values merged))) as Hname
      by now apply in_map.
    rewrite <- (enrich_batch_names (Sync.enrich_env w)
                  (Enrichers.merge_options (Sync.enrich_options true))
                  (Js.map_values merged) O) in Hname.
    apply in_map_iff in Hname. destruct Hname as [s' [Hn Hs']].
    apply (Hno s' Hs'). exact Hn.
Qed.

Lemma pages_no_enricher net options fuel :
  forall acc cursor page result tr,
  Registry.pages net options fuel acc cursor page = Some (result, tr) ->
  enricher_calls tr = O.
Proof.
  induction fuel as [| fuel IH]; intros acc cursor page result tr; [discriminate |].
  cbn [Registry.pages].
  destruct (Registry.fetchServers net (page + 1) (Registry.with_cursor options cursor))
    as [response | e]; [| now intros [= _ <-]].
  destruct (Js.truthy_opt_string _); [| now intros [= _ <-]].
  destruct (Registry.pages net options fuel _ _ _) as [[res tr'] |] eqn:E; [| discriminate].
  intros [= _ <-]. simpl. eapply IH, E.
Qed.

(** X14. A run that fetches no entry, full or incremental, calls no
    enricher and keeps the map of the prior snapshot as it is: the records
    of the prior snapshot are written again. *)
Theorem sync_empty_fetch (w : Sync.World) (fuel : nat) (run : Sync.Run) :
  Sync.sync Date_getTime localeCompare w fuel = Some (Sync.Completed run) ->
  Sync.entries run = [] ->
  Sync.updatedServers run = Sync.loadServers (Sync.servers_file w)
  /\ enricher_calls (Sync.trace run) = O.
Proof.
  intros Hrun Hnil.
  destruct (sync_steps _ _ Hrun) as (tr0 & tr1 & Hfetch & Hstep & Htr & _).
  rewrite Hnil in Hstep. unfold Sync.enrich_step in Hstep. simpl in Hstep.
  injection Hstep as Hm Ht. split; [now symmetry |].
  rewrite Htr, enricher_calls_app, <- Ht. simpl.
  rewrite Nat.add_0_r. revert Hfetch. unfold Sync.fetch_entries.
  destruct (Sync.doFullSync run).
  - apply pages_no_enricher.
  - destruct (Sync.sync_state_file w); [apply pages_no_enricher | now intros [= _ <-]].
Qed.

(** X15. A state file whose [lastFullSyncAt] is not empty and not a date
    disables the periodic full sync for good: unless [FULL_SYNC] is "true"
    the run is incremental, it writes the same [lastFullSyncAt] to the new
    state, and with that state [shouldDoFullSync] is false at every later
    time. *)
Theorem unparsable_lastFullSyncAt_persists
    (w : Sync.World) (fuel : nat) (run : Sync.Run) (state : SyncState.t) :
  Sync.sync Date_getTime localeCompare w fuel = Some (Sync.Completed run) ->
  Fetch.prop_is (Sync.FULL_SYNC w) "true" = false ->
  Sync.sync_state_file w = Some state ->
  SyncState.lastFullSyncAt state <> "" ->
  Date_getTime (SyncState.lastFullSyncAt state) = None ->
  Sync.doFullSync run = false
  /\ SyncState.lastFullSyncAt (Sync.newState run) = SyncState.lastFullSyncAt state
  /\ forall now,
       Sync.shouldDoFullSync Date_getTime None now (Some (Sync.newState run)) = false.
Proof.
  intros Hrun Henv Hstate Hne Hnan.
  destruct (@sync_completed Date_getTime localeCompare w fuel run Hrun) as (Hfull & _).
  assert (Sync.doFullSync run = false) as Hincr.
  { rewrite Hfull. unfold Sync.shouldDoFullSync. now rewrite Henv, Hstate, Hnan. }
  destruct (sync_steps _ _ Hrun) as (tr0 & tr1 & _ & _ & _ & Hnew).
  assert (SyncState.lastFullSyncAt (Sync.newState run) = SyncState.lastFullSyncAt state)
    as Hsame.
  { rewrite Hnew, Hincr, Hstate. cbn [SyncState.lastFullSyncAt].
    destruct (SyncState.lastFullSyncAt state); [contradiction | reflexivity]. }
  split; [exact Hincr |]. split; [exact Hsame |].
  intros now. unfold Sync.shouldDoFullSync. simpl. now rewrite Hsame, Hnan.
Qed.

End SyncExtras.

Lemma localeCompare_total (a b : string) :
  Scenario.localeCompare a b <= 0 \/ Scenario.localeCompare b a <= 0.
Proof.
  unfold Scenario.localeCompare. rewrite (String.compare_antisym a b).
  destruct (String.compare b a); simpl; lia.
Qed.

Lemma Ascii_compare_lt_trans (x y z : ascii) :
  Ascii.compare x y = Lt -> Ascii.compare y z = Lt -> Ascii.compare x z = Lt.
Proof.
  unfold Ascii.compare. rewrite !N.compare_lt_iff. lia.
Qed.

Lemma String_compare_le_trans (a : string) :
  forall b c,
  String.compare a b <> Gt -> String.compare b c <> Gt -> String.compare a c <> Gt.
Proof.
  induction a as [| x a IH]; intros [| y b] [| z c]; simpl; try congruence.
  destruct (Ascii.compare x y) eqn:Exy; [| | congruence];
    destruct (Ascii.compare y z) eqn:Eyz; try congruence.
  - apply Ascii.compare_eq_iff in Exy, Eyz. subst y z.
    replace (Ascii.compare x x) with Eq
      by (symmetry; unfold Ascii.compare; apply N.compare_refl).
    apply IH.
  - apply Ascii.compare_eq_iff in Exy. subst y. rewrite Eyz. discriminate.
  - apply Ascii.compare_eq_iff in Eyz. subst z. rewrite Exy. discriminate.
  - rewrite (Ascii_compare_lt_trans _ _ _ Exy Eyz). discriminate.
Qed.

Lemma localeCompare_transitive (a b c : string) :
  Scenario.localeCompare a b <= 0 -> Scenario.localeCompare b c <= 0 ->
  Scenario.localeCompare a c <= 0.
Proof.
  unfold Scenario.localeCompare. intros Hab Hbc.
  pose proof (@String_compare_le_trans a b c) as H.
  destruct (String.compare a b); destruct (String.compare b c);
    destruct (String.compare a c); try lia;
    exfalso; apply H; congruence.
Qed.

(** A first run that fetches "zeta/last" before "alpha/first": the snapshot
    lists "alpha/first" first. *)
Lemma sync_saves_sorted_witness :
  exists run,
    Sync.sync Scenario.Date_getTime Scenario.localeCompare Cases.two_servers 5
    = Some (Sync.Completed run)
    /\ StronglySorted (name_le Scenario.localeCompare) (Sync.saved run)
    /\ map MCPServer.name (Sync.saved run) = ["alpha/first"; "zeta/last"].
Proof.
  eexists. split; [vm_compute; reflexivity |]. split; [| reflexivity].
  match goal with
  | |- StronglySorted _ (Sync.saved ?run) =>
      refine (proj1 (@sync_saves_sorted Scenario.Date_getTime Scenario.localeCompare
                       Cases.two_servers 5 run localeCompare_total
                       localeCompare_transitive _))
  end.
  vm_compute. reflexivity.
Defined.

(** The same run: the names of the snapshot are distinct. *)
Lemma sync_saves_unique_names_witness :
  exists run,
    Sync.sync Scenario.Date_getTime Scenario.localeCompare Cases.two_servers 5
    = Some (Sync.Completed run)
    /\ NoDup (map MCPServer.name (Sync.saved run)).
Proof.
  eexists. split; [vm_compute; reflexivity |].
  match goal with
  | |- NoDup (map _ (Sync.saved ?run)) =>
      refine (@sync_saves_unique_names Scenario.Date_getTime Scenario.localeCompare
                Cases.two_servers 5 run _)
  end.
  vm_compute. reflexivity.
Defined.

(** An incremental run that fetches "zeta/last": the record of "acme/tool"
    is the one of the prior snapshot. *)
Lemma sync_leaves_unfetched_witness :
  exists run,
    Sync.sync Scenario.Date_getTime Scenario.localeCompare Cases.other_server 5
    = Some (Sync.Completed run)
    /\ Js.map_get (Sync.updatedServers run) "acme/tool" = Some Scenario.tool_server.
Proof.
  eexists. split; [vm_compute; reflexivity |].
  match goal with
  | |- Js.map_get (Sync.updatedServers ?run) _ = _ =>
      refine (proj1 (@sync_leaves_unfetched Scenario.Date_getTime Scenario.localeCompare
                       Cases.other_server 5 run "acme/tool" _ _ _))
  end.
  - vm_compute. reflexivity.
  - reflexivity.
  - reflexivity.
Defined.

(** A first run, which is a full sync, over two servers: both records are
    stamped. *)
Lemma full_sync_enriches_all_witness :
  exists run,
    Sync.sync Scenario.Date_getTime Scenario.localeCompare Cases.two_servers 5
    = Some (Sync.Completed run)
    /\ forall r, In r (Sync.saved run) ->
         exists i,
           Enrichment.lastEnrichedAt (MCPServer.enrichment r)
           = toISOString (Enrichers.now (Sync.enrich_env Cases.two_servers i)).
Proof.
  eexists. split; [vm_compute; reflexivity |].
  match goal with
  | |- forall r, In r (Sync.saved ?run) -> _ =>
      refine (@full_sync_enriches_all Scenario.Date_getTime Scenario.localeCompare
                Cases.two_servers 5 run _ _ _)
  end.
  - vm_compute. reflexivity.
  - reflexivity.
  - discriminate.
Defined.

(** An incremental run against a registry with nothing new: no enricher is
    called and the map is the prior snapshot. *)
Lemma sync_empty_fetch_witness :
  exists run,
    Sync.sync Scenario.Date_getTime Scenario.localeCompare Cases.nothing_new 5
    = Some (Sync.Completed run)
    /\ Sync.updatedServers run = Sync.loadServers (Some [Scenario.tool_server])
    /\ enricher_calls (Sync.trace run) = O.
Proof.
  eexists. split; [vm_compute; reflexivity |].
  match goal with
  | |- Sync.updatedServers ?run = _ /\ _ =>
      refine (@sync_empty_fetch Scenario.Date_getTime Scenario.localeCompare
                Cases.nothing_new 5 run _ _)
  end.
  - vm_compute. reflexivity.
  - reflexivity.
Defined.

(** A state file whose [lastFullSyncAt] reads "yesterday": the run is
    incremental and the state it writes reads "yesterday" again. *)
Lemma unparsable_lastFullSyncAt_persists_witness :
  exists run,
    Sync.sync Scenario.Date_getTime Scenario.localeCompare Cases.undated_run 5
    = Some (Sync.Completed run)
    /\ Sync.doFullSync run = false
    /\ SyncState.lastFullSyncAt (Sync.newState run) = "yesterday".
Proof.
  eexists. split; [vm_compute; reflexivity |].
  match goal with
  | |- Sync.doFullSync ?run = _ /\ _ =>
      destruct (@unparsable_lastFullSyncAt_persists Scenario.Date_getTime
                  Scenario.localeCompare Cases.undated_run 5 run Cases.undated)
        as (Hincr & Hsame & _)
  end.
  - vm_compute. reflexivity.
  - reflexivity.
  - reflexivity.
  - discriminate.
  - vm_compute. reflexivity.
  - split; [exact Hincr | exact Hsame].
Defined.

(** ** The npm enricher *)

Lemma fetchWithRetry_requests_le (B : Type) (fetch : Fetch.Network B) url options
    maxRetries baseTimeout :
  (requests (snd (Fetch.fetchWithRetry fetch url options maxRetries baseTimeout))
   <= Z.to_nat maxRetries)%nat.
Proof.
  unfold Fetch.fetchWithRetry.
  destruct (Z.to_nat maxRetries) as [| m] eqn:Em; [simpl; lia |].
  pose proof (@attempts_invariant B fetch url options maxRetries baseTimeout
                (S m) 1 None ltac:(lia) ltac:(lia)) as H.
  destruct (Fetch.attempts fetch url options maxRetries baseTimeout (S m) 1 None)
    as [result tr].
  cbv zeta in H. simpl. lia.
Qed.

Lemma fetchWithRetry_first (B : Type) (fetch : Fetch.Network B) url options
    maxRetries baseTimeout response :
  1 <= maxRetries ->
  fetch url (with_signal options (baseTimeout * 1)) 1 = Returned response ->
  fst (Fetch.fetchWithRetry fetch url options maxRetries baseTimeout) = Returned response.
Proof.
  intros Hm Hr. unfold Fetch.fetchWithRetry.
  destruct (Z.to_nat maxRetries) as [| m] eqn:Em; [lia |].
  simpl. simpl in Hr. now rewrite Hr.
Qed.

Section NpmExtras.
Variable encodeURIComponent : string -> string.
Variable registry : Fetch.Network Npm.NpmPackageResponse.
Variable api : Fetch.Network Npm.NpmDownloadsResponse.

Lemma fetchPackageData_requests name :
  (requests (snd (Npm.fetchPackageData encodeURIComponent registry name)) <= 3)%nat.
Proof.
  unfold Npm.fetchPackageData.
  match goal with
  | |- context [Fetch.fetchWithRetry ?f ?u ?o ?m ?b] =>
      pose proof (fetchWithRetry_requests_le f u o m b) as H;
      destruct (Fetch.fetchWithRetry f u o m b) as [r tr]
  end.
  simpl in *. lia.
Qed.

Lemma fetchDownloads_requests name period :
  (requests (snd (Npm.fetchDownloads encodeURIComponent api name period)) <= 3)%nat.
Proof.
  unfold Npm.fetchDownloads.
  match goal with
  | |- context [Fetch.fetchWithRetry ?f ?u ?o ?m ?b] =>
      pose proof (fetchWithRetry_requests_le f u o m b) as H;
      destruct (Fetch.fetchWithRetry f u o m b) as [r tr]
  end.
  simpl in *. lia.
Qed.

Lemma find_none_of (A : Type) (f : A -> bool) (l : list A) :
  Forall (fun x => f x = false) l -> find f l = None.
Proof.
  induction 1 as [| x l Hx Hl IH]; simpl; [reflexivity |]. now rewrite Hx.
Qed.

(** X16. One call of [enrichNpm] makes at most nine requests (three
    retried fetches of three attempts each), and none at all for a server
    that lists no npm package: it resolves with [null] at once. *)
Theorem enrichNpm_requests (server : MCPServer.t) :
  let '(result, tr) := Npm.enrichNpm encodeURIComponent registry api server in
  (requests tr <= 9)%nat
  /\ (Forall (fun pkg => Package.registryType pkg <> npm) (MCPServer.packages server) ->
      result = Returned None /\ tr = []).
Proof.
  unfold Npm.enrichNpm.
  destruct (Npm.findNpmPackage server) as [name |] eqn:Ef.
  - pose proof (fetchPackageData_requests name) as H1.
    pose proof (fetchDownloads_requests name Npm.last_week) as H2.
    pose proof (fetchDownloads_requests name Npm.last_month) as H3.
    destruct (Npm.fetchPackageData encodeURIComponent registry name) as [p tr1].
    destruct (Npm.fetchDownloads encodeURIComponent api name Npm.last_week) as [wk tr2].
    destruct (Npm.fetchDownloads encodeURIComponent api name Npm.last_month) as [mo tr3].
    simpl in *. split; [rewrite !requests_app; lia |].
    intros Hnone. exfalso. unfold Npm.findNpmPackage in Ef.
    rewrite find_none_of in Ef; [discriminate |].
    eapply Forall_impl; [| exact Hnone]. intros pkg Hpkg. simpl in Hpkg.
    destruct (Package.registryType pkg); try reflexivity. now contradiction Hpkg.
  - split; [simpl; lia | intros _; split; reflexivity].
Qed.

(** X17. When [enrichNpm] resolves with data, the server lists an npm
    package, the [latestVersion] of the data is not empty and its count of
    dependencies is not negative: a package without [dist-tags] or without a
    latest tag gives [null], never a record with an empty version. *)
Theorem enrichNpm_result_has_version (server : MCPServer.t) (e : NpmEnrichment.t) :
  fst (Npm.enrichNpm encodeURIComponent registry api server) = Returned (Some e) ->
  NpmEnrichment.latestVersion e <> ""
  /\ 0 <= NpmEnrichment.dependencies e
  /\ Npm.findNpmPackage server <> None.
Proof.
  unfold Npm.enrichNpm.
  destruct (Npm.findNpmPackage server) as [name |]; [| discriminate].
  destruct (Npm.fetchPackageData encodeURIComponent registry name) as [p tr1].
  destruct (Npm.fetchDownloads encodeURIComponent api name Npm.last_week) as [wk tr2].
  destruct (Npm.fetchDownloads encodeURIComponent api name Npm.last_month) as [mo tr3].
  destruct p as [[d |] | err1]; destruct wk as [wk | err2];
    destruct mo as [mo | err3]; simpl; try discriminate.
  unfold Npm.npm_of. destruct (Npm.dist_tags d) as [tags |]; [| discriminate].
  destruct (Npm.latest tags) as [v |]; simpl; [| discriminate].
  destruct v as [| c v]; simpl; [discriminate |].
  intros [= <-]. simpl. split; [discriminate |]. split; [| discriminate].
  destruct (Js.map_get (Npm.versions d) (String c v)) as [data |]; [| lia].
  destruct (Npm.dependencies data); lia.
Qed.

(** X18. The download figures of npm degrade to zero: when the registry
    answers the first request for the package with a body that parses and
    the downloads API answers both periods with a status that is not OK,
    [enrichNpm] resolves as it would with downloads of 0 and 0, and does not
    throw. *)
Theorem enrichNpm_downloads_degrade (server : MCPServer.t) (name : string)
    (answer : Response Npm.NpmPackageResponse) (d : Npm.NpmPackageResponse)
    (weekly monthly : Response Npm.NpmDownloadsResponse) :
  Npm.findNpmPackage server = Some name ->
  first_answer registry (npm_package_url encodeURIComponent name) = Returned answer ->
  status answer <> 404 -> ok answer = true -> json answer = Returned d ->
  first_answer api (npm_downloads_url encodeURIComponent Npm.last_week name)
  = Returned weekly ->
  first_answer api (npm_downloads_url encodeURIComponent Npm.last_month name)
  = Returned monthly ->
  ok weekly = false -> ok monthly = false ->
  fst (Npm.enrichNpm encodeURIComponent registry api server)
  = Returned (Npm.npm_of d 0 0).
Proof.
  intros Hfind Hreg Hstatus Hok Hjson Hw Hm Hokw Hokm.
  unfold Npm.enrichNpm. rewrite Hfind.
  unfold Npm.fetchPackageData, Npm.fetchDownloads.
  fold (npm_package_url encodeURIComponent name).
  fold (npm_downloads_url encodeURIComponent Npm.last_week name).
  fold (npm_downloads_url encodeURIComponent Npm.last_month name).
  pose proof (@fetchWithRetry_first _ registry _ Npm.request_init 3 10000 answer
                ltac:(lia) Hreg) as H1.
  pose proof (@fetchWithRetry_first _ api _ Npm.request_init 3 10000 weekly
                ltac:(lia) Hw) as H2.
  pose proof (@fetchWithRetry_first _ api _ Npm.request_init 3 10000 monthly
                ltac:(lia) Hm) as H3.
  destruct (Fetch.fetchWithRetry registry _ _ 3 10000) as [r1 t1].
  destruct (Fetch.fetchWithRetry api (npm_downloads_url _ Npm.last_week _) _ 3 10000)
    as [r2 t2].
  destruct (Fetch.fetchWithRetry api (npm_downloads_url _ Npm.last_month _) _ 3 10000)
    as [r3 t3].
  simpl in H1, H2, H3. subst r1 r2 r3. simpl.
  apply Z.eqb_neq in Hstatus. rewrite Hstatus, Hok, Hjson, Hokw, Hokm. reflexivity.
Qed.

End NpmExtras.

(** The registry knows version 1.0.0 of the package, with one dependency. *)
Lemma enrichNpm_result_has_version_witness :
  exists e,
    fst (Npm.enrichNpm Scenario.encodeURIComponent Cases.npm_registry
           Scenario.npm_downloads Scenario.new_server) = Returned (Some e)
    /\ NpmEnrichment.latestVersion e <> ""
    /\ 0 <= NpmEnrichment.dependencies e
    /\ Npm.findNpmPackage Scenario.new_server <> None.
Proof.
  eexists. split; [vm_compute; reflexivity |].
  refine (@enrichNpm_result_has_version Scenario.encodeURIComponent Cases.npm_registry
            Scenario.npm_downloads Scenario.new_server _ _).
  vm_compute. reflexivity.
Defined.

(** The downloads API answers 503 to both requests: the record has the
    version of the registry and downloads of zero. *)
Lemma enrichNpm_downloads_degrade_witness :
  fst (Npm.enrichNpm Scenario.encodeURIComponent Cases.npm_registry
         Cases.downloads_down Scenario.new_server)
  = Returned (Some (NpmEnrichment.mk 0 0 "1.0.0" 1 (Some "2024-12-01T00:00:00.000Z")
                      [] None [])).
Proof.
  refine (@enrichNpm_downloads_degrade Scenario.encodeURIComponent Cases.npm_registry
            Cases.downloads_down Scenario.new_server "acme-tool"
            (Scenario.answer 200 Cases.tool_package_data) Cases.tool_package_data
            (mkResponse 503 "Service Unavailable" false (Threw Scenario.syntax_error))
            (mkResponse 503 "Service Unavailable" false (Threw Scenario.syntax_error))
            _ _ _ _ _ _ _ _ _); try reflexivity.
  discriminate.
Defined.

(** ** The Docker Hub enricher *)

Lemma split_nonempty sep s : Js.split sep s <> [].
Proof. rewrite split_first. discriminate. Qed.

Lemma join_split s : JsArray.join "/" (Js.split Js.slash s) = s.
Proof.
  induction s as [| c rest IH]; [reflexivity |].
  cbn [Js.split]. destruct (Ascii.eqb_spec c Js.slash) as [-> | Hne].
  - cbn [JsArray.join]. destruct (Js.split Js.slash rest) as [| seg segs] eqn:E.
    + now destruct (split_nonempty Js.slash rest).
    + rewrite IH. reflexivity.
  - destruct (Js.split Js.slash rest) as [| seg segs] eqn:E.
    + now destruct (split_nonempty Js.slash rest).
    + destruct segs as [| seg2 segs].
      * cbn [JsArray.join] in *. now rewrite IH.
      * change (JsArray.join "/" (String c seg :: seg2 :: segs))
          with (String c (String.append seg
                            (String.append "/" (JsArray.join "/" (seg2 :: segs))))).
        change (JsArray.join "/" (seg :: seg2 :: segs))
          with (String.append seg (String.append "/" (JsArray.join "/" (seg2 :: segs))))
          in IH.
        now rewrite IH.
Qed.

(** X19. [parseDockerImage] fails on exactly one shape of identifier: a path
    of two segments whose first contains a dot (a registry host followed by
    a repository without namespace, as in "ghcr.io/image").  Every other
    identifier, the empty one included, parses. *)
Theorem parseDockerImage_none (identifier : string) :
  Docker.parseDockerImage identifier = None
  <-> (List.length (path_segments identifier) = 2%nat
       /\ Js.includes "." (nth 0 (path_segments identifier) EmptyString) = true).
Proof.
  unfold Docker.parseDockerImage. fold (image_path identifier).
  fold (path_segments identifier).
  pose proof (@split_nonempty Js.slash (image_path identifier)) as Hne.
  fold (path_segments identifier) in Hne.
  destruct (path_segments identifier) as [| p0 [| p1 [| p2 rest]]]; [contradiction | | |].
  - simpl. split; [discriminate | intros [H _]; discriminate].
  - simpl. destruct (Js.includes "." p0); simpl.
    + split; [intros _; split; reflexivity | reflexivity].
    + split; [discriminate | intros [_ H]; discriminate].
  - simpl. split; [discriminate | intros [H _]; discriminate].
Qed.

(** X20. The parts [parseDockerImage] returns are those of the identifier:
    for Docker Hub the path is the repository in the namespace "library", or
    [namespace/repository]; for another registry it is
    [registry/namespace/repository], the repository taking every further
    segment. *)
Theorem parseDockerImage_reassembles (identifier : string) (img : Docker.Image) :
  Docker.parseDockerImage identifier = Some img ->
  (Docker.registry img = "docker.io"
   /\ (image_path identifier = Docker.repository img
         /\ Docker.image_namespace img = "library"
       \/ image_path identifier
          = slashed (Docker.image_namespace img) (Docker.repository img)))
  \/ image_path identifier
     = slashed (Docker.registry img)
         (slashed (Docker.image_namespace img) (Docker.repository img)).
Proof.
  unfold Docker.parseDockerImage. fold (image_path identifier).
  pose proof (join_split (image_path identifier)) as Hjoin.
  pose proof (@split_nonempty Js.slash (image_path identifier)) as Hne.
  destruct (Js.split Js.slash (image_path identifier)) as [| p0 [| p1 [| p2 rest]]];
    [contradiction | | |].
  - simpl. intros [= <-]. left. split; [reflexivity |]. left. simpl in *.
    split; [now symmetry | reflexivity].
  - simpl. destruct (Js.includes "." p0); simpl; [discriminate |].
    intros [= <-]. left. split; [reflexivity |]. right. simpl in *. now symmetry.
  - simpl. intros [= <-]. right. simpl. rewrite <- Hjoin. reflexivity.
Qed.

Section DockerExtras.
Variable hub : Web.Network Docker.DockerHubRepoResponse.
Variable hub_tags : Web.Network Docker.DockerHubTagsResponse.

(** X21. [enrichDocker] makes at most two requests, and none for an image of
    another registry than Docker Hub: on an identifier of three segments or
    more whose first is not "docker.io" it resolves with [null] without a
    request. *)
Theorem enrichDocker_only_docker_hub (server : MCPServer.t) :
  let '(result, tr) := Docker.enrichDocker hub hub_tags server in
  (requests tr <= 2)%nat
  /\ forall identifier,
       Docker.findDockerPackage server = Some identifier ->
       (3 <= List.length (path_segments identifier))%nat ->
       nth 0 (path_segments identifier) EmptyString <> "docker.io" ->
       result = Returned None /\ tr = [].
Proof.
  unfold Docker.enrichDocker.
  destruct (Docker.findDockerPackage server) as [identifier |] eqn:Ef;
    [| split; [simpl; lia | discriminate]].
  destruct (Docker.parseDockerImage identifier) as [img |] eqn:Ep;
    [| split; [simpl; lia | intros; split; reflexivity]].
  destruct (String.eqb_spec (Docker.registry img) "docker.io") as [Hreg | Hreg]; simpl.
  - split; [lia |]. intros id' [= <-] Hlen Hfirst. exfalso.
    revert Ep. unfold Docker.parseDockerImage. fold (image_path identifier).
    fold (path_segments identifier).
    destruct (path_segments identifier) as [| p0 [| p1 [| p2 rest]]];
      simpl in Hlen; try lia.
    simpl. intros [= <-]. simpl in *. contradiction.
  - split; [lia | intros; split; reflexivity].
Qed.

(** X22. For an image of Docker Hub whose list of tags cannot be had (the
    answer is not OK), [enrichDocker] resolves with [null] when the
    repository request is not OK either, and otherwise with the data of the
    repository and an empty list of tags: the tags are optional, the
    repository is not. *)
Theorem enrichDocker_degrades (server : MCPServer.t) (identifier : string)
    (img : Docker.Image) (answer : Response Docker.DockerHubRepoResponse)
    (tags : Response Docker.DockerHubTagsResponse) :
  Docker.findDockerPackage server = Some identifier ->
  Docker.parseDockerImage identifier = Some img ->
  Docker.registry img = "docker.io" ->
  hub (Docker.repo_url (Docker.image_namespace img) (Docker.repository img))
  = Returned answer ->
  hub_tags (Docker.tags_url (Docker.image_namespace img) (Docker.repository img))
  = Returned tags ->
  ok tags = false ->
  (ok answer = false ->
   fst (Docker.enrichDocker hub hub_tags server) = Returned None)
  /\ (forall d, ok answer = true -> status answer <> 404 -> status answer <> 429 ->
        json answer = Returned d ->
        fst (Docker.enrichDocker hub hub_tags server)
        = Returned (Some (DockerEnrichment.mk (Docker.pull_count d) (Docker.star_count d)
                            (Docker.last_updated d) [] (Docker.description d)
                            (Docker.is_official d) (Docker.is_automated d)))).
Proof.
  intros Hfind Hparse Hreg Hhub Htags Hokt.
  unfold Docker.enrichDocker. rewrite Hfind, Hparse, Hreg. simpl.
  unfold Docker.fetchRepoData, Docker.fetchTags. rewrite Hhub, Htags. simpl.
  rewrite Hokt. simpl. split.
  - intros Hok. rewrite Hok. simpl.
    destruct (status answer =? 404); [reflexivity |].
    destruct (status answer =? 429); reflexivity.
  - intros d Hok H404 H429 Hjson.
    apply Z.eqb_neq in H404, H429. rewrite H404, H429, Hok, Hjson. reflexivity.
Qed.

End DockerExtras.

(** An image of the GitHub registry with a nested repository. *)
Lemma parseDockerImage_reassembles_witness :
  Docker.parseDockerImage "ghcr.io/acme/tools/server:1.2"
  = Some (Docker.mkImage "ghcr.io" "acme" "tools/server" "1.2")
  /\ image_path "ghcr.io/acme/tools/server:1.2"
     = slashed "ghcr.io" (slashed "acme" "tools/server").
Proof.
  split; [reflexivity |].
  destruct (@parseDockerImage_reassembles "ghcr.io/acme/tools/server:1.2"
              (Docker.mkImage "ghcr.io" "acme" "tools/server" "1.2") eq_refl)
    as [[Hhub _] | Hother].
  - discriminate Hhub.
  - exact Hother.
Defined.

(** Docker Hub answers for the repository and fails for its tags: the record
    has the pulls of the repository and no tag. *)
Lemma enrichDocker_degrades_witness :
  fst (Docker.enrichDocker Cases.hub Cases.hub_tags_down Cases.image_server)
  = Returned (Some (DockerEnrichment.mk 1500 7 "2024-12-01T00:00:00.000Z" [] None
                      false false)).
Proof.
  refine (proj2 (@enrichDocker_degrades Cases.hub Cases.hub_tags_down Cases.image_server
                   "acme/tool:1.2" (Docker.mkImage "docker.io" "acme" "tool" "1.2")
                   (Scenario.answer 200 Cases.tool_repo)
                   (mkResponse 500 "Internal Server Error" false (Threw Scenario.syntax_error))
                   _ _ _ _ _ _) Cases.tool_repo _ _ _ _); try reflexivity;
    discriminate.
Defined.

(** ** Platforms of release assets, and the PyPI statistics *)

Lemma first_match_values patterns lower value :
  Mcpb.first_match patterns lower = Some value -> In value (map snd patterns).
Proof.
  unfold Mcpb.first_match.
  destruct (find (fun entry => Mcpb.test (fst entry) lower) patterns) as [entry |] eqn:E;
    [| discriminate].
  intros [= <-]. apply find_some in E. now apply in_map.
Qed.

Lemma os_match_none lower :
  Mcpb.first_match Mcpb.osPatterns lower = None
  <-> forall token, In token os_tokens -> Js.includes token lower = false.
Proof.
  unfold Mcpb.first_match, Mcpb.osPatterns, Mcpb.test, os_tokens.
  cbn [find fst snd existsb Mcpb.matches]. split.
  - intros Hnone token Hin.
    destruct (Js.includes "darwin" lower) eqn:H1; [discriminate |].
    destruct (Js.includes "macos" lower) eqn:H2; [discriminate |].
    destruct (Js.includes "osx" lower) eqn:H3; [discriminate |].
    destruct (Js.includes "linux" lower) eqn:H4; [discriminate |].
    destruct (Js.includes "windows" lower) eqn:H5; [discriminate |].
    destruct (Js.includes "win32" lower) eqn:H6; [discriminate |].
    destruct (Js.includes "win64" lower) eqn:H7; [discriminate |].
    destruct (Js.includes ".exe" lower) eqn:H8; [discriminate |].
    simpl in Hin. repeat (destruct Hin as [<- | Hin]; [assumption |]). contradiction.
  - intros Hall.
    rewrite (Hall "darwin"), (Hall "macos"), (Hall "osx"), (Hall "linux"),
      (Hall "windows"), (Hall "win32"), (Hall "win64"), (Hall ".exe");
      simpl; tauto.
Qed.

(** X23. [detectPlatform] names a platform exactly when the lower-cased
    filename contains one of the operating-system tokens; an architecture
    alone names none.  What it names is one of three operating systems,
    alone or followed by "-" and one of four architectures. *)
Theorem detectPlatform_needs_os (toLowerCase : string -> string) (filename : string) :
  (Mcpb.detectPlatform toLowerCase filename = None
   <-> forall token, In token os_tokens ->
         Js.includes token (toLowerCase filename) = false)
  /\ (forall platform,
        Mcpb.detectPlatform toLowerCase filename = Some platform ->
        In platform platforms).
Proof.
  unfold Mcpb.detectPlatform. set (lower := toLowerCase filename).
  pose proof (os_match_none lower) as Hnone.
  pose proof (@first_match_values Mcpb.osPatterns lower) as Hos.
  pose proof (@first_match_values Mcpb.archPatterns lower) as Harch.
  destruct (Mcpb.first_match Mcpb.osPatterns lower) as [os |];
    destruct (Mcpb.first_match Mcpb.archPatterns lower) as [arch |].
  - split; [split; [discriminate | intros H; apply Hnone in H; discriminate] |].
    intros platform [= <-].
    specialize (Hos os eq_refl). specialize (Harch arch eq_refl). simpl in Hos, Harch.
    destruct Hos as [<- | [<- | [<- | []]]];
      destruct Harch as [<- | [<- | [<- | [<- | []]]]]; simpl; tauto.
  - split; [split; [discriminate | intros H; apply Hnone in H; discriminate] |].
    intros platform [= <-]. specialize (Hos os eq_refl). simpl in Hos.
    destruct Hos as [<- | [<- | [<- | []]]]; simpl; tauto.
  - split; [split; [intros _; now apply Hnone | reflexivity] | discriminate].
  - split; [split; [intros _; now apply Hnone | reflexivity] | discriminate].
Qed.

(** X24. [fetchDownloads] of the PyPI enricher never throws: whatever the
    statistics service does (refuse the connection, answer with an error
    status, send a body that does not parse or has no [data]), the call
    resolves with a number, and with one other than 0 only when the service
    answered OK with that figure as [last_month]. *)
Theorem pypi_fetchDownloads_never_throws (stats : Web.Network PyPi.RecentResponse)
    (packageName : string) :
  exists n,
    fst (PyPi.fetchDownloads stats packageName) = Returned n
    /\ (n <> 0 ->
        exists response body recent,
          stats (pypi_recent_url packageName) = Returned response
          /\ ok response = true
          /\ json response = Returned body /\ PyPi.data body = Some recent
          /\ n = PyPi.last_month recent).
Proof.
  unfold PyPi.fetchDownloads. cbn [fst]. fold (pypi_recent_url packageName).
  destruct (stats (pypi_recent_url packageName)) as [response | e] eqn:Hs; simpl.
  - destruct (ok response) eqn:Hok; simpl.
    + destruct (json response) as [body | e] eqn:Hj; simpl.
      * destruct (PyPi.data body) as [recent |] eqn:Hd.
        -- destruct (Js.truthy_number (PyPi.last_month recent)).
           ++ eexists. split; [reflexivity |]. intros _.
              exists response, body, recent. repeat split; assumption.
           ++ exists 0. split; [reflexivity | intros H; contradiction].
        -- exists 0. split; [reflexivity | intros H; contradiction].
      * exists 0. split; [reflexivity | intros H; contradiction].
    + exists 0. split; [reflexivity | intros H; contradiction].
  - exists 0. split; [reflexivity | intros H; contradiction].
Qed.

(** ** Pagination *)

Lemma ceil_div_bounds a b :
  0 < b -> a <= b * Pagination.ceil_div a b < a + b.
Proof.
  intros Hb. unfold Pagination.ceil_div.
  pose proof (Z.div_mod (- a) b ltac:(lia)) as Hdm.
  pose proof (Z.mod_pos_bound (- a) b Hb) as Hm.
  nia.
Qed.

Lemma ceil_div_nonneg a b : 0 < b -> 0 <= a -> 0 <= Pagination.ceil_div a b.
Proof. intros Hb Ha. pose proof (ceil_div_bounds a Hb). nia. Qed.

Lemma ceil_div_pos a b : 0 < b -> 0 < a -> 1 <= Pagination.ceil_div a b.
Proof. intros Hb Ha. pose proof (ceil_div_bounds a Hb). nia. Qed.

(** X25. The functions of the pagination library keep the state valid: from
    a positive page size and a count of items that is not negative,
    [createPaginationState] gives a state whose page count is that of the
    items and whose page is in range, and [setPage], [nextPage], [prevPage],
    [updatePaginationTotal] and (for a list that is not empty)
    [setPageSize] give such a state from such a state.  On an empty list
    [setPageSize] does not: it sets the page to 0. *)
Theorem pagination_keeps_state_valid (s : PaginationState.t) :
  (forall n pageSize, 0 < pageSize -> 0 <= n ->
     paginated (Pagination.createPaginationState n pageSize))
  /\ (paginated s ->
      (forall p, paginated (Pagination.setPage s p))
      /\ paginated (Pagination.nextPage s)
      /\ paginated (Pagination.prevPage s)
      /\ (forall n, 0 <= n -> paginated (Pagination.updatePaginationTotal s n))
      /\ (forall pageSize, 0 < pageSize ->
            (0 < PaginationState.totalItems s ->
             paginated (Pagination.setPageSize s pageSize))
            /\ (PaginationState.totalItems s = 0 ->
                PaginationState.page (Pagination.setPageSize s pageSize) = 0))).
Proof.
  split.
  - intros n pageSize Hps Hn. unfold paginated. simpl.
    pose proof (ceil_div_nonneg Hps Hn). repeat split; lia.
  - intros (Hps & Hn & Htp & Hp).
    assert (forall p, paginated (Pagination.setPage s p)) as Hset.
    { intros p. unfold paginated. simpl. repeat split; try assumption; lia. }
    split; [exact Hset |]. split; [apply Hset |]. split; [apply Hset |]. split.
    + intros n Hn'. unfold paginated. simpl.
      pose proof (ceil_div_nonneg Hps Hn').
      destruct (Z.ltb_spec (Pagination.ceil_div n (PaginationState.pageSize s))
                  (PaginationState.page s)); repeat split; lia.
    + intros pageSize Hps'. split.
      * intros Hpos. unfold paginated. simpl.
        pose proof (ceil_div_pos Hps' Hpos) as Hc.
        assert (0 <= (PaginationState.page s - 1) * PaginationState.pageSize s) by nia.
        assert (0 <= Pagination.floor_div
                        ((PaginationState.page s - 1) * PaginationState.pageSize s) pageSize)
          by (unfold Pagination.floor_div; apply Z.div_pos; lia).
        repeat split; lia.
      * intros Hzero. rewrite Hzero in Htp.
        assert (PaginationState.totalPages s = 0) as Hnone
          by (rewrite Htp; unfold Pagination.ceil_div; change (- 0) with 0;
              now rewrite Zdiv_0_l).
        assert (PaginationState.page s = 1) as Hone by lia.
        cbn [Pagination.setPageSize PaginationState.page].
        rewrite Hzero, Hone. unfold Pagination.ceil_div, Pagination.floor_div.
        change (- 0) with 0. change ((1 - 1) * PaginationState.pageSize s) with 0.
        rewrite !Zdiv_0_l. reflexivity.
Qed.

Lemma firstn_min_length {A : Type} (n : nat) (l : list A) :
  firstn (Nat.min n (List.length l)) l = firstn n l.
Proof.
  revert n. induction l as [| x l IH]; intros [| n]; simpl; try reflexivity.
  now rewrite IH.
Qed.

Lemma slice_window {A : Type} (items : list A) (start n : Z) :
  0 <= start -> 0 <= n ->
  JsArray.slice items start (start + n)
  = firstn (Z.to_nat n) (skipn (Z.to_nat start) items).
Proof.
  intros Hs Hn. unfold JsArray.slice, JsArray.relative.
  destruct (Z.ltb_spec start 0); [lia |].
  destruct (Z.ltb_spec (start + n) 0); [lia |].
  set (len := Z.of_nat (List.length items)).
  destruct (Z.le_gt_cases start len) as [Hle | Hgt].
  - rewrite (Z.min_l start len) by lia.
    rewrite <- (firstn_min_length (Z.to_nat n)).
    f_equal. rewrite length_skipn. unfold len. lia.
  - rewrite (Z.min_r start len) by lia.
    rewrite (skipn_all2 (n := Z.to_nat len)) by (unfold len; lia).
    rewrite (skipn_all2 (n := Z.to_nat start)) by (unfold len in *; lia).
    now rewrite !firstn_nil.
Qed.

Lemma paginateItems_window {A : Type} (items : list A) s :
  1 <= PaginationState.page s -> 0 < PaginationState.pageSize s ->
  Pagination.paginateItems items s
  = firstn (Z.to_nat (PaginationState.pageSize s))
      (skipn (Z.to_nat ((PaginationState.page s - 1) * PaginationState.pageSize s)) items).
Proof.
  intros Hp Hps. unfold Pagination.paginateItems. apply slice_window; nia.
Qed.

Lemma chunks_concat {A : Type} (k : nat) (m : nat) (l : list A) :
  (0 < k)%nat -> (List.length l <= m * k)%nat ->
  flat_map (fun i => firstn k (skipn (i * k) l)) (seq 0 m) = l.
Proof.
  intros Hk. revert l. induction m as [| m IH]; intros l Hl.
  - destruct l; [reflexivity | simpl in Hl; lia].
  - rewrite <- cons_seq, <- seq_shift. cbn [flat_map].
    rewrite flat_map_concat_map, map_map, <- flat_map_concat_map.
    rewrite (flat_map_ext _ (fun i => firstn k (skipn (i * k) (skipn k l)))).
    + rewrite IH by (rewrite length_skipn; simpl in Hl; lia).
      simpl. apply firstn_skipn.
    + intros i. rewrite skipn_skipn. do 2 f_equal. simpl. lia.
Qed.

(** X26. The pages partition the items: for a positive page size, the slices
    [paginateItems] gives for the pages 1 to [totalPages], one after the
    other, are the list of items; no item is left out or shown twice. *)
Theorem pages_partition_items {A : Type} (items : list A) (pageSize : Z) :
  0 < pageSize ->
  let state := Pagination.createPaginationState (Z.of_nat (List.length items)) pageSize in
  flat_map (fun p => Pagination.paginateItems items (Pagination.setPage state (Z.of_nat p)))
    (seq 1 (Z.to_nat (PaginationState.totalPages state)))
  = items.
Proof.
  intros Hps state.
  pose proof (@ceil_div_bounds (Z.of_nat (List.length items)) pageSize Hps) as Hb.
  assert (0 <= PaginationState.totalPages state) as Htp
    by (apply ceil_div_nonneg; lia).
  change (PaginationState.totalPages state)
    with (Pagination.ceil_div (Z.of_nat (List.length items)) pageSize) in *.
  set (tp := Pagination.ceil_div (Z.of_nat (List.length items)) pageSize) in *.
  rewrite <- seq_shift, flat_map_concat_map, map_map, <- flat_map_concat_map.
  etransitivity;
    [| apply (@chunks_concat A (Z.to_nat pageSize) (Z.to_nat tp) items); nia].
  rewrite !flat_map_concat_map. f_equal. apply map_ext_in.
  intros i Hi. apply in_seq in Hi.
  rewrite paginateItems_window.
  - cbn [Pagination.setPage PaginationState.page PaginationState.pageSize
         PaginationState.totalPages state Pagination.createPaginationState].
    fold tp. do 2 f_equal. nia.
  - cbn. fold tp. lia.
  - exact Hps.
Qed.

(** X27. The range [getPaginationInfo] displays is the range of the page
    shown: on a valid state for a list of items, [end - start + 1] is the
    number of items [paginateItems] returns (0, displayed as "1 - 0", for an
    empty list), and [total] is the number of items. *)
Theorem getPaginationInfo_counts_page {A : Type} (items : list A) s :
  paginated s ->
  PaginationState.totalItems s = Z.of_nat (List.length items) ->
  let '(start, end_, total) := Pagination.getPaginationInfo s in
  Z.of_nat (List.length (Pagination.paginateItems items s)) = end_ - start + 1
  /\ total = Z.of_nat (List.length items).
Proof.
  intros (Hps & Hn & Htp & Hp) Hlen. unfold Pagination.getPaginationInfo.
  split; [| exact Hlen].
  rewrite paginateItems_window by lia.
  rewrite length_firstn, length_skipn.
  pose proof (@ceil_div_bounds (PaginationState.totalItems s)
                (PaginationState.pageSize s) Hps) as Hb.
  rewrite <- Htp in Hb. rewrite Hlen in *.
  destruct (Z.le_gt_cases 1 (PaginationState.totalPages s)); nia.
Qed.

Lemma hd_error_firstn_skipn {A : Type} (k i : nat) (l : list A) x :
  hd_error (firstn k (skipn i l)) = Some x -> nth_error l i = Some x.
Proof.
  revert l. induction i as [| i IH]; intros l H.
  - destruct k, l; simpl in *; try discriminate. exact H.
  - destruct l; simpl in *.
    + now rewrite firstn_nil in H.
    + now apply IH.
Qed.

Lemma nth_error_window {A : Type} (k i j : nat) (l : list A) x :
  nth_error l j = Some x -> (i <= j < i + k)%nat ->
  In x (firstn k (skipn i l)).
Proof.
  intros Hn Hj. apply (nth_error_In _ (j - i)).
  rewrite nth_error_firstn.
  destruct (Nat.ltb_spec (j - i) k); [| lia].
  rewrite nth_error_skipn. now replace (i + (j - i))%nat with j by lia.
Qed.

(** X28. Changing the page size keeps the place in the list: the first item
    of the page shown before [setPageSize] is on the page shown after it. *)
Theorem setPageSize_keeps_first_item {A : Type} (items : list A) s pageSize x :
  paginated s ->
  PaginationState.totalItems s = Z.of_nat (List.length items) ->
  0 < pageSize ->
  hd_error (Pagination.paginateItems items s) = Some x ->
  In x (Pagination.paginateItems items (Pagination.setPageSize s pageSize)).
Proof.
  intros (Hps & Hn & Htp & Hp) Hlen Hps' Hhd.
  rewrite paginateItems_window in Hhd by lia.
  apply hd_error_firstn_skipn in Hhd.
  assert (Z.of_nat (Z.to_nat ((PaginationState.page s - 1) * PaginationState.pageSize s))
          < Z.of_nat (List.length items)) as Hlt.
  { apply Nat2Z.inj_lt. apply nth_error_Some. now rewrite Hhd. }
  rewrite Z2Nat.id in Hlt by nia.
  set (fi := (PaginationState.page s - 1) * PaginationState.pageSize s) in *.
  assert (0 <= fi) as Hfi by (unfold fi; nia).
  pose proof (@ceil_div_bounds (PaginationState.totalItems s) pageSize Hps') as Hb.
  pose proof (Z.div_mod fi pageSize ltac:(lia)) as Hdm.
  pose proof (Z.mod_pos_bound fi pageSize Hps') as Hm.
  assert (0 <= fi / pageSize) as Hq by (apply Z.div_pos; lia).
  assert (PaginationState.page (Pagination.setPageSize s pageSize) = fi / pageSize + 1) as Hpage.
  { cbn [Pagination.setPageSize PaginationState.page]. fold fi.
    unfold Pagination.floor_div. apply Z.min_l. rewrite <- Hlen in Hlt.
    set (c := Pagination.ceil_div (PaginationState.totalItems s) pageSize) in *.
    assert (pageSize * (fi / pageSize) < pageSize * c) by lia. nia. }
  rewrite paginateItems_window.
  - rewrite Hpage. cbn [Pagination.setPageSize PaginationState.pageSize].
    apply (nth_error_window _ _ Hhd). nia.
  - rewrite Hpage. lia.
  - exact Hps'.
Qed.

Lemma length_numbers i n : List.length (Pagination.numbers i n) = n.
Proof. revert i. induction n; intros i; simpl; [reflexivity | now rewrite IHn]. Qed.

Lemma In_numbers p i n :
  i <= p < i + Z.of_nat n -> In (Pagination.Number p) (Pagination.numbers i n).
Proof.
  revert i. induction n as [| n IH]; intros i H; [lia |].
  simpl. destruct (Z.eq_dec i p) as [-> | Hne]; [now left |].
  right. apply IH. lia.
Qed.

(** X29. For a page in range and at least five visible entries asked for,
    the entries [getPageNumbers] returns include the first page, the current
    page and the last page; there are at most [maxVisible + 2] of them. *)
Theorem getPageNumbers_shows_current_page s maxVisible :
  1 <= PaginationState.page s <= PaginationState.totalPages s ->
  5 <= maxVisible ->
  let shown := Pagination.getPageNumbers s maxVisible in
  In (Pagination.Number 1) shown
  /\ In (Pagination.Number (PaginationState.page s)) shown
  /\ In (Pagination.Number (PaginationState.totalPages s)) shown
  /\ Z.of_nat (List.length shown) <= maxVisible + 2.
Proof.
  intros Hp Hmv. cbv zeta. unfold Pagination.getPageNumbers, Pagination.floor_div.
  set (page := PaginationState.page s) in *.
  set (tp := PaginationState.totalPages s) in *.
  pose proof (Z.div_mod (maxVisible - 3) 2 ltac:(lia)) as Hdm.
  pose proof (Z.mod_pos_bound (maxVisible - 3) 2 ltac:(lia)) as Hm.
  set (sp := (maxVisible - 3) / 2) in *.
  destruct (Z.leb_spec tp maxVisible) as [Hle | Hgt].
  - rewrite length_numbers. repeat split; try apply In_numbers; lia.
  - assert (forall a b e1 e2,
              let shown := [Pagination.Number 1]
                ++ (if e1 : bool then [Pagination.Ellipsis] else [])
                ++ Pagination.numbers a (Z.to_nat (b - a + 1))
                ++ (if e2 : bool then [Pagination.Ellipsis] else [])
                ++ [Pagination.Number tp] in
              (page = 1 \/ page = tp \/ a <= page <= b) ->
              b - a + 1 <= maxVisible - 2 ->
              In (Pagination.Number 1) shown
              /\ In (Pagination.Number page) shown
              /\ In (Pagination.Number tp) shown
              /\ Z.of_nat (List.length shown) <= maxVisible + 2) as Hshape.
    { intros a b e1 e2 shown Hin Hlen. unfold shown. repeat split.
      - now left.
      - destruct Hin as [-> | [-> | Hin]].
        + now left.
        + rewrite !in_app_iff. do 4 right. now left.
        + rewrite !in_app_iff. right. right. left. apply In_numbers. lia.
      - rewrite !in_app_iff. do 4 right. now left.
      - rewrite !length_app, length_numbers. destruct e1, e2; simpl; lia. }
    destruct (Z.leb_spec page (sp + 2)).
    + apply Hshape; lia.
    + destruct (Z.leb_spec (tp - sp - 1) page); apply Hshape; lia.
Qed.

Lemma numbers_succ i n :
  Pagination.numbers i (S n) = Pagination.Number i :: Pagination.numbers (i + 1) n.
Proof. reflexivity. Qed.

(** X30. With the default of seven visible entries and more than seven
    pages, [getPageNumbers] returns seven entries near either end (the first
    five pages, an ellipsis and the last page, or the mirror image) and nine
    in between: the first page, an ellipsis, the five pages around the
    current one, an ellipsis and the last page. *)
Theorem getPageNumbers_default_shape s :
  7 < PaginationState.totalPages s ->
  1 <= PaginationState.page s <= PaginationState.totalPages s ->
  let page := PaginationState.page s in
  let last := PaginationState.totalPages s in
  let N := Pagination.Number in
  Pagination.getPageNumbers s 7
  = if page <=? 4 then
      [N 1; N 2; N 3; N 4; N 5; Pagination.Ellipsis; N last]
    else if last - 3 <=? page then
      [N 1; Pagination.Ellipsis; N (last - 4); N (last - 3); N (last - 2);
       N (last - 1); N last]
    else
      [N 1; Pagination.Ellipsis; N (page - 2); N (page - 1); N page;
       N (page + 1); N (page + 2); Pagination.Ellipsis; N last].
Proof.
  intros Hlast Hp. cbv zeta. unfold Pagination.getPageNumbers, Pagination.floor_div.
  set (page := PaginationState.page s) in *.
  set (last := PaginationState.totalPages s) in *.
  destruct (Z.leb_spec last 7); [lia |].
  change ((7 - 3) / 2) with 2. change (2 + 2) with 4. change (7 - 2) with 5.
  destruct (Z.leb_spec page 4).
  - rewrite (Z.max_l 2 (page - 2)) by lia.
    destruct (Z.ltb_spec 5 (last - 1)); [| lia]. reflexivity.
  - replace (last - 2 - 1) with (last - 3) by lia.
    destruct (Z.leb_spec (last - 3) page).
    + rewrite (Z.min_l (last - 1) (page + 2)) by lia.
      destruct (Z.ltb_spec 2 (last - 7 + 3)); [| lia].
      destruct (Z.ltb_spec (last - 1) (last - 1)); [lia |].
      replace (Z.to_nat (last - 1 - (last - 7 + 3) + 1)) with 4%nat by lia.
      rewrite !numbers_succ. cbn [Pagination.numbers app].
      repeat (f_equal; try lia).
    + rewrite (Z.max_r 2 (page - 2)) by lia.
      rewrite (Z.min_r (last - 1) (page + 2)) by lia.
      destruct (Z.ltb_spec 2 (page - 2)); [| lia].
      destruct (Z.ltb_spec (page + 2) (last - 1)); [| lia].
      replace (Z.to_nat (page + 2 - (page - 2) + 1)) with 5%nat by lia.
      rewrite !numbers_succ. cbn [Pagination.numbers app].
      repeat (f_equal; try lia).
Qed.

(** Five items in pages of two: the three pages hold them all. *)
Lemma pages_partition_items_witness :
  flat_map
    (fun p => Pagination.paginateItems Cases.five
                (Pagination.setPage (Pagination.createPaginationState 5 2) (Z.of_nat p)))
    [1; 2; 3]%nat
  = Cases.five.
Proof.
  exact (@pages_partition_items Z Cases.five 2 eq_refl).
Defined.

Lemma paginated_last_of_three : paginated Cases.last_of_three.
Proof. repeat split; discriminate. Qed.

Lemma paginated_second_of_three : paginated Cases.second_of_three.
Proof. repeat split; discriminate. Qed.

(** The last of the three pages holds one item, displayed as "5 - 5 of 5". *)
Lemma getPaginationInfo_counts_page_witness :
  Pagination.getPaginationInfo Cases.last_of_three = (5, 5, 5)
  /\ Z.of_nat (List.length (Pagination.paginateItems Cases.five Cases.last_of_three))
     = 5 - 5 + 1.
Proof.
  split; [reflexivity |].
  exact (proj1 (@getPaginationInfo_counts_page Z Cases.five Cases.last_of_three
                  paginated_last_of_three eq_refl)).
Defined.

(** From the second page of two items to pages of three: the item 30 is on
    the page shown. *)
Lemma setPageSize_keeps_first_item_witness :
  In 30 (Pagination.paginateItems Cases.five
           (Pagination.setPageSize Cases.second_of_three 3)).
Proof.
  exact (@setPageSize_keeps_first_item Z Cases.five Cases.second_of_three 3 30
           paginated_second_of_three eq_refl eq_refl eq_refl).
Defined.

(** Page 10 of 20 with seven entries asked for. *)
Lemma getPageNumbers_shows_current_page_witness :
  In (Pagination.Number 10) (Pagination.getPageNumbers Cases.tenth_of_twenty 7)
  /\ Z.of_nat (List.length (Pagination.getPageNumbers Cases.tenth_of_twenty 7)) <= 9.
Proof.
  destruct (@getPageNumbers_shows_current_page Cases.tenth_of_twenty 7)
    as (_ & Hpage & _ & Hlen).
  - split; discriminate.
  - discriminate.
  - split; [exact Hpage | exact Hlen].
Defined.

(** Page 10 of 20: nine entries. *)
Lemma getPageNumbers_default_shape_witness :
  Pagination.getPageNumbers Cases.tenth_of_twenty 7
  = [Pagination.Number 1; Pagination.Ellipsis; Pagination.Number 8;
     Pagination.Number 9; Pagination.Number 10; Pagination.Number 11;
     Pagination.Number 12; Pagination.Ellipsis; Pagination.Number 20].
Proof.
  refine (@getPageNumbers_default_shape Cases.tenth_of_twenty _ _).
  - reflexivity.
  - split; discriminate.
Defined.
